(** * Rolling CAGR: a shallow embedding of the repository's CAGR routines

    The repository computes Compound Annual Growth Rates in four places:

    - [Excel]: [index_cagr_analysis_excel.py] ([calculate_cagr]);
    - [Yahoo]: [fetch_nifty_data.py] ([calculate_cagr],
      [calculate_rolling_cagr]);
    - [MF]:    [mf_st.py] ([calculate_cagr], [calculate_rolling_cagr]);
    - [NSE]:   [nse_index_st.py] ([calculate_nse_cagr],
      [calculate_nse_rolling_cagr]).

    Conventions of the embedding.

    - A calendar date (a pandas [Timestamp] at midnight, or a ['%d-%m-%Y']
      string) is its day number, a [Z].  A point in time that may fall inside
      a day (a date plus a fractional [timedelta]) is a [Q] number of days.
    - Prices and durations, Python floats in the source, are exact
      rationals [Q]; every comparison the source makes on them is computed.
      Results of [**] and of the square root are real numbers [R].  Binary
      rounding is not represented.  A power of Python floats beyond the
      largest float raises [OverflowError] ([Py.pow]); the same power of
      numpy's [float64] is infinite ([Np.power]).
      The rolling loops of [mf_st.py] and [nse_index_st.py] read their
      prices from a frame, as [float64]; their powers are taken by
      [Py.pow] all the same, and the rates of their windows are stated for
      powers within the floats.
    - A date given as text is what [strptime] makes of it
      ([Py.date_text]).
    - A Python exception is an explicit [Raise] outcome; [try]/[except] is a
      match on it.
    - [while] loops take a fuel argument and return [None] when it runs out.

    Around them the embedding covers what fetches and presents the data:
    [YahooFetch] ([fetch_index_data], [fetch_all_historical_data]),
    [ExcelTable] (the table of [index_cagr_analysis_excel.py]), [MFApp] (the
    figures of the page of [mf_st.py]), [NSEFetch]
    ([fetch_nse_historical_data]) and [NSEIndices] ([fetch_nse_indices]). *)

From Stdlib Require Import ZArith QArith Qround Qreals Reals Psatz Lia List Bool Sorted
  Permutation.
From Stdlib Require String Ascii.
Import ListNotations.
Import String.StringSyntax Ascii.AsciiSyntax.
Delimit Scope string_scope with string.
Delimit Scope char_scope with char.

Set Implicit Arguments.

(** ** Python numbers *)

Module Py.

Inductive exn : Set :=
| ZeroDivisionError
| TypeError
| IndexError
| OverflowError
| ValueError.

Inductive result (A : Type) : Type :=
| Ok (a : A)
| Raise (e : exn).

Arguments Ok {A} a.
Arguments Raise {A} e.

Definition bind {A B : Type} (m : result A) (k : A -> result B) : result B :=
  match m with
  | Ok a => k a
  | Raise e => Raise e
  end.

Notation "x <- m ;; k" := (bind m (fun x => k))
  (at level 61, m at next level, right associativity).

(** What an arithmetic expression over floats evaluates to: a float, or a
    complex number (the value of a negative base raised to a fractional
    power). *)
Inductive num : Type :=
| Float (x : R)
| Complex.

(** [x <= 0], [x > 0] and [x < y] on floats. *)
Definition le0 (x : Q) : bool := Qle_bool x 0.
Definition gt0 (x : Q) : bool := negb (Qle_bool x 0).
Definition ltb (x y : Q) : bool := negb (Qle_bool y x).
Definition geb (x y : Q) : bool := Qle_bool y x.
Definition gtb (x y : Q) : bool := negb (Qle_bool x y).

Definition is_integer (q : Q) : bool := Pos.eqb (Qden (Qred q)) 1.

(** [sys.float_info.max], the largest float: [(2 - 2 ** -52) * 2 ** 1023],
    and [sys.float_info.min], the least positive one at full precision:
    [2 ** -1022]. *)
Definition max_float : R := IZR (2 ^ 1024 - 2 ^ 971).
Definition min_float : R := / IZR (2 ^ 1022).

(** [a ** b] on floats.  A positive base gives [exp (b * ln a)]; zero to a
    positive power is zero, to the power zero one, and to a negative power
    raises; a negative base gives a float only for an integral exponent.
    A result whose size is beyond the largest float raises
    [OverflowError], also where it would be complex. *)
Definition pow (a b : Q) : result num :=
  match Qcompare a 0 with
  | Gt =>
      if Rlt_dec max_float (Rpower (Q2R a) (Q2R b)) then Raise OverflowError
      else Ok (Float (Rpower (Q2R a) (Q2R b)))
  | Eq =>
      match Qcompare b 0 with
      | Gt => Ok (Float 0)
      | Eq => Ok (Float 1)
      | Lt => Raise ZeroDivisionError
      end
  | Lt =>
      if Rlt_dec max_float (Rpower (Q2R (- a)) (Q2R b)) then Raise OverflowError
      else if is_integer b then
        if Z.even (Qnum (Qred b))
        then Ok (Float (Rpower (Q2R (- a)) (Q2R b)))
        else Ok (Float (- Rpower (Q2R (- a)) (Q2R b)))
      else Ok Complex
  end.

(** [a / b] on floats. *)
Definition div (a b : Q) : result Q :=
  if Qeq_bool b 0 then Raise ZeroDivisionError else Ok (a / b).

(** [int(x)] truncates towards zero. *)
Definition int_of (x : Q) : Z := Z.quot (Qnum x) (Zpos (Qden x)).

(** [z - 1] and [z * 100] keep a complex number complex. *)
Definition sub1 (z : num) : num :=
  match z with Float x => Float (x - 1) | Complex => Complex end.
Definition times100 (z : num) : num :=
  match z with Float x => Float (x * 100) | Complex => Complex end.

(** Rounding to the nearest integer, ties to the even one. *)
Definition round_half_even (x : R) : Z :=
  let f := Int_part x in
  if Rlt_dec (x - IZR f) (1 / 2) then f
  else if Rlt_dec (1 / 2) (x - IZR f) then (f + 1)%Z
  else if Z.even f then f else (f + 1)%Z.

(** [round(x, 2)] on a float. *)
Definition round2 (x : R) : R := IZR (round_half_even (x * 100)) / 100.

(** [round(z, 2)]: a complex number has no [__round__]. *)
Definition round2_num (z : num) : result R :=
  match z with
  | Float x => Ok (round2 x)
  | Complex => Raise TypeError
  end.

(** A date written as text, by what [datetime.strptime(text, '%d-%m-%Y')]
    makes of it: a text it rejects, or the day it reads, together with
    whether the text is the one [strftime('%d-%m-%Y')] writes for that day
    (day and month on two digits, the year on four). *)
Inductive date_text : Type :=
| Rejected
| Denotes (day : Z) (padded : bool).

Definition strptime (text : date_text) : result Z :=
  match text with
  | Rejected => Raise ValueError
  | Denotes day _ => Ok day
  end.

End Py.

(** ** Data frames *)

Module Frame.

(** [l[-1]]. *)
Fixpoint last_row {A : Type} (l : list A) : option A :=
  match l with
  | [] => None
  | [x] => Some x
  | _ :: t => last_row t
  end.

(** [df.iloc[i]]: a negative position counts from the end; a position
    outside the frame raises. *)
Definition iloc {A : Type} (l : list A) (i : Z) : Py.result A :=
  let n := Z.of_nat (length l) in
  let k := if (i <? 0)%Z then (n + i)%Z else i in
  if (k <? 0)%Z then Py.Raise Py.IndexError
  else match nth_error l (Z.to_nat k) with
       | Some x => Py.Ok x
       | None => Py.Raise Py.IndexError
       end.

(** [min(l, key=key)] with [best] the first element: the first of the
    minimal elements. *)
Fixpoint argmin_first (key : Z -> Z) (best : Z) (l : list Z) : Z :=
  match l with
  | [] => best
  | x :: t => argmin_first key (if (key x <? key best)%Z then x else best) t
  end.

(** Insertion of a row in front of the first row that does not come before
    it, and [sort_values] by such insertions from the last row on: rows of
    equal key keep the order they came in. *)
Fixpoint insert_by {A : Type} (key : A -> Z) (x : A) (l : list A) : list A :=
  match l with
  | [] => [x]
  | y :: t => if (key x <=? key y)%Z then x :: y :: t else y :: insert_by key x t
  end.

Fixpoint sort_values {A : Type} (key : A -> Z) (l : list A) : list A :=
  match l with
  | [] => []
  | x :: t => insert_by key x (sort_values key t)
  end.

End Frame.

(** ** Statistics shared by the reports *)

Module Stats.

(** [sum(l)]. *)
Definition sum (l : list R) : R := fold_right Rplus 0%R l.

(** [np.mean]. *)
Definition mean (l : list R) : R := (sum l / INR (length l))%R.

(** [np.std], with its default [ddof=0]: the root of the mean squared
    distance to the mean. *)
Definition np_std (l : list R) : R :=
  sqrt (mean (map (fun x => Rsqr (x - mean l)) l)).

(** pandas' [Series.std], with its default [ddof=1]: the squared distances
    are divided by [N - 1]; not a number for fewer than two values, which
    is [None] here. *)
Definition pd_std (l : list R) : option R :=
  match l with
  | [] | [_] => None
  | _ =>
      Some (sqrt (sum (map (fun x => Rsqr (x - mean l)) l)
                  / (INR (length l) - 1)))%R
  end.

(** [min(x :: l)] and [max(x :: l)]. *)
Definition min_list (x : R) (l : list R) : R := fold_left Rmin l x.
Definition max_list (x : R) (l : list R) : R := fold_left Rmax l x.

(** The present values of a list of optional ones, in order. *)
Fixpoint present (l : list (option R)) : list R :=
  match l with
  | [] => []
  | Some x :: t => x :: present t
  | None :: t => present t
  end.

End Stats.

(** ** [index_cagr_analysis_excel.py] *)

Module Excel.
Import Py.

Definition calculate_cagr (start_price end_price years : Q) : option num :=
  if le0 start_price || le0 end_price || le0 years then None
  else
    let attempt :=
      ratio <- div end_price start_price ;;
      expo <- div 1 years ;;
      p <- pow ratio expo ;;
      let cagr := sub1 p in
      Ok (times100 cagr) in
    match attempt with
    | Ok v => Some v
    | Raise _ => None
    end.

End Excel.

(** ** [fetch_nifty_data.py] *)

Module Yahoo.
Import Py Frame.

(** The dates arrive as day numbers; [years] is their distance in days over
    365.25.  Only [years] and [start_value] are guarded. *)
Definition calculate_cagr (start_value end_value : Q) (start_date end_date : Z)
  : result (option num) :=
  let years := inject_Z (end_date - start_date) / 365.25 in
  if le0 years || le0 start_value then Ok None
  else
    ratio <- div end_value start_value ;;
    expo <- div 1 years ;;
    p <- pow ratio expo ;;
    let cagr := sub1 p in
    Ok (Some (times100 cagr)).

(** A row of [hist_data]: the index date and the closing price. *)
Record Bar : Type := { date : Z; Close : Q }.

(** An entry of [windows]. *)
Record Window : Type := {
  window : nat;
  start_date : Z;
  end_date : Z;
  start_nav : R;
  end_nav : R;
  actual_years : R;
  cagr : option R
}.

(** The variables the [while True] loop updates. *)
Record Loop : Type := {
  current_start : Z;
  windows : list Window;
  window_num : nat
}.

(** How an iteration ends: [break], or on to the next one. *)
Inductive control : Type :=
| Break (st : Loop)
| Next (st : Loop).

Definition index_min (d : Z) (l : list Bar) : Z :=
  fold_left (fun m b => Z.min m (date b)) l d.
Definition index_max (d : Z) (l : list Bar) : Z :=
  fold_left (fun m b => Z.max m (date b)) l d.

(** [hist_data[hist_data.index <= current_start]] and
    [hist_data[hist_data.index <= window_end]]; the latter bound may fall
    inside a day. *)
Definition start_prices (hist_data : list Bar) (current_start : Z) : list Bar :=
  filter (fun b => (date b <=? current_start)%Z) hist_data.
Definition end_prices (hist_data : list Bar) (window_end : Q) : list Bar :=
  filter (fun b => Qle_bool (inject_Z (date b)) window_end) hist_data.

(** [round(cagr, 2) if cagr is not None else None]. *)
Definition round_cagr (c : option num) : result (option R) :=
  match c with
  | None => Ok None
  | Some z => r <- round2_num z ;; Ok (Some r)
  end.

Section Walk.

Variable hist_data : list Bar.
Variable window_years : Z.
Variable stride_days : Z.
Variable end_dt : Z.

Definition window_days : Q := inject_Z window_years * 365.25.

(** One pass through the body of the loop.  The two frames are empty
    exactly when they have no last row. *)
Definition step (st : Loop) : result control :=
  let window_end := inject_Z (current_start st) + window_days in
  let remaining_days := (end_dt - current_start st)%Z in
  if ltb (inject_Z remaining_days) (window_days * 0.98) then Ok (Break st)
  else
    let window_end :=
      if gtb window_end (inject_Z end_dt) then inject_Z end_dt else window_end in
    let actual_days := Qfloor (window_end - inject_Z (current_start st)) in
    if ltb (inject_Z actual_days) (window_days * 0.98) then Ok (Break st)
    else
      match last_row (start_prices hist_data (current_start st)),
            last_row (end_prices hist_data window_end) with
      | Some first_bar, Some last_bar =>
          let actual_start_date := date first_bar in
          let actual_end_date := date last_bar in
          let start_price := Close first_bar in
          let end_price := Close last_bar in
          let actual_years :=
            inject_Z (actual_end_date - actual_start_date) / 365.25 in
          if ltb actual_years (inject_Z window_years * 0.9) then Ok (Break st)
          else
            st1 <-
              (if gt0 actual_years && gt0 start_price then
                 c <- calculate_cagr start_price end_price
                        actual_start_date actual_end_date ;;
                 rc <- round_cagr c ;;
                 Ok {| current_start := current_start st;
                       windows :=
                         windows st ++
                         [{| window := window_num st;
                             start_date := actual_start_date;
                             end_date := actual_end_date;
                             start_nav := round2 (Q2R start_price);
                             end_nav := round2 (Q2R end_price);
                             actual_years := round2 (Q2R actual_years);
                             cagr := rc |}];
                       window_num := S (window_num st) |}
               else Ok st) ;;
            let st2 :=
              {| current_start := (current_start st1 + stride_days)%Z;
                 windows := windows st1;
                 window_num := window_num st1 |} in
            if geb (inject_Z (current_start st2))
                   (inject_Z end_dt - window_days * 0.9)
            then Ok (Break st2)
            else Ok (Next st2)
      | _, _ =>
          Ok (Next {| current_start := (current_start st + stride_days)%Z;
                      windows := windows st;
                      window_num := window_num st |})
      end.

(** The loop, for at most [fuel] iterations. *)
Fixpoint loop (fuel : nat) (st : Loop) : option (result (list Window)) :=
  match fuel with
  | O => None
  | S fuel' =>
      match step st with
      | Raise e => Some (Raise e)
      | Ok (Break st') => Some (Ok (windows st'))
      | Ok (Next st') => loop fuel' st'
      end
  end.

End Walk.

(** The ["error"] dictionaries. *)
Inductive failure : Type :=
| NoHistoricalData
| NoValidCagr
| NoRollingWindows
| Exception (e : exn).

(** The dictionary of a completed analysis. *)
Record Report : Type := {
  rep_window_years : Z;
  rep_start_date : option date_text;
  rep_stride_days : Z;
  total_windows : nat;
  avg_cagr : R;
  std_cagr : R;
  rep_windows : list Window;
  analysis_period : Z * Z
}.

Inductive outcome : Type :=
| Failed (f : failure)
| Done (r : Report).

(** [windows[0]['start_date']] and [windows[-1]['end_date']]. *)
Definition period_of (first_window : Window) (ws : list Window) : Z * Z :=
  (start_date first_window, end_date (last ws first_window)).

(** The statistics over the collected windows; [** 0.5] of a float that is
    not negative is its square root. *)
Definition summarise (window_years : Z) (start_date : option date_text)
    (stride_days : Z) (ws : list Window) : outcome :=
  match ws with
  | [] => Failed NoRollingWindows
  | first_window :: _ =>
      let valid_cagrs := Stats.present (map cagr ws) in
      match valid_cagrs with
      | [] => Failed NoValidCagr
      | _ =>
          let avg := (Stats.sum valid_cagrs / INR (length valid_cagrs))%R in
          let std :=
            sqrt (Stats.sum (map (fun x => (x - avg) ^ 2) valid_cagrs)
                  / INR (length valid_cagrs))%R in
          Done {| rep_window_years := window_years;
                  rep_start_date := start_date;
                  rep_stride_days := stride_days;
                  total_windows := length ws;
                  avg_cagr := round2 avg;
                  std_cagr := round2 std;
                  rep_windows := ws;
                  analysis_period := period_of first_window ws |}
      end
  end.

(** The date the walk starts from: the date of the history closest to a
    given [start_date], which [strptime] reads first, or else the earliest
    one. *)
Definition starting_date (first_bar : Bar) (rest : list Bar)
    (start_date : option date_text) : result Z :=
  match start_date with
  | Some text =>
      start_dt <- strptime text ;;
      Ok (argmin_first (fun x => Z.abs (x - start_dt))
                       (date first_bar) (map date rest))
  | None => Ok (index_min (date first_bar) rest)
  end.

(** [hist_data] stands for [ticker.history(period="max")]; [start_date] is
    [None] for an argument that is [None] or the empty text.  The whole
    body is inside the [try]: an exception becomes an error dictionary.
    [None] when [fuel] iterations do not end the loop. *)
Definition calculate_rolling_cagr (fuel : nat) (hist_data : list Bar)
    (window_years : Z) (start_date : option date_text) (stride_days : Z)
  : option outcome :=
  match hist_data with
  | [] => Some (Failed NoHistoricalData)
  | first_bar :: rest =>
      match starting_date first_bar rest start_date with
      | Raise e => Some (Failed (Exception e))
      | Ok start_dt =>
          let end_dt := index_max (date first_bar) rest in
          match loop hist_data window_years stride_days end_dt fuel
                     {| current_start := start_dt; windows := [];
                        window_num := 1 |}
          with
          | None => None
          | Some (Raise e) => Some (Failed (Exception e))
          | Some (Ok ws) =>
              Some (summarise window_years start_date stride_days ws)
          end
      end
  end.

End Yahoo.

(** ** [mf_st.py] *)

Module MF.
Import Py Frame.

(** The mutual-fund calculator is typed [-> float]: it answers [0.0] where
    the others answer [None], and has no [try]. *)
Definition calculate_cagr (start_value end_value years : Q) : result num :=
  if le0 start_value || le0 end_value || le0 years then Ok (Float 0)
  else
    ratio <- div end_value start_value ;;
    expo <- div 1 years ;;
    p <- pow ratio expo ;;
    Ok (times100 (sub1 p)).

(** An entry of [data], with the date and the NAV already parsed. *)
Record Point : Type := { date : Z; nav : Q }.

(** An entry of [window_details]; the NAVs are kept as numbers rather than
    as the formatted text. *)
Record Detail : Type := {
  d_window : nat;
  d_start_date : Z;
  d_end_date : Z;
  d_start_nav : Q;
  d_end_nav : Q;
  d_actual_years : R;
  d_cagr : R
}.

(** The two lists the [for] loop appends to. *)
Record Acc : Type := {
  cagr_values : list R;
  window_details : list Detail
}.

Inductive control : Type :=
| Break (acc : Acc)
| Next (acc : Acc).

(** [range(0, n, stride)]. *)
Definition range_step (n stride : nat) : list nat :=
  map (fun k => k * stride)%nat (seq 0 ((n + stride - 1) / stride)).

(** The inner loop: the first position [j], counted from the position of the
    head of [rows], whose date has reached [target_end_date]. *)
Fixpoint find_end_idx (target_end_date : Q) (j : nat) (rows : list Point)
  : option nat :=
  match rows with
  | [] => None
  | r :: rest =>
      if geb (inject_Z (date r)) target_end_date then Some j
      else find_end_idx target_end_date (S j) rest
  end.

Section Walk.

Variable df : list Point.
Variable window_years : Z.

Definition window_days : Q := inject_Z window_years * 365.25.
Definition stride_days : nat := 21.

(** The body of the [for] loop at [i]. *)
Definition body (i : nat) (acc : Acc) : result control :=
  let start_idx := i in
  first_row <- iloc df (Z.of_nat start_idx) ;;
  let start_date := date first_row in
  let target_end_date := inject_Z start_date + window_days in
  match find_end_idx target_end_date (S start_idx) (skipn (S start_idx) df) with
  | None => Ok (Break acc)
  | Some end_idx =>
      last_row <- iloc df (Z.of_nat end_idx) ;;
      let start_nav := nav first_row in
      let end_nav := nav last_row in
      let actual_start_date := date first_row in
      let actual_end_date := date last_row in
      let actual_days := (actual_end_date - actual_start_date)%Z in
      let actual_years := inject_Z actual_days / 365.25 in
      if gt0 start_nav && gt0 end_nav && gt0 actual_years then
        ratio <- div end_nav start_nav ;;
        expo <- div 1 actual_years ;;
        p <- pow ratio expo ;;
        match times100 (sub1 p) with
        | Complex => Raise TypeError
        | Float cagr =>
            Ok (Next
                  {| cagr_values := cagr_values acc ++ [cagr];
                     window_details :=
                       window_details acc ++
                       [{| d_window := length (window_details acc) + 1;
                           d_start_date := actual_start_date;
                           d_end_date := actual_end_date;
                           d_start_nav := start_nav;
                           d_end_nav := end_nav;
                           d_actual_years := round2 (Q2R actual_years);
                           d_cagr := round2 cagr |}] |})
        end
      else Ok (Next acc)
  end.

(** The [for] loop over the remaining start positions. *)
Fixpoint run (starts : list nat) (acc : Acc) : result Acc :=
  match starts with
  | [] => Ok acc
  | i :: rest =>
      c <- body i acc ;;
      match c with
      | Break acc' => Ok acc'
      | Next acc' => run rest acc'
      end
  end.

End Walk.

(** The returned dictionary; [std_dev] is [None] where pandas answers NaN,
    [report_values] is [None] where the key ["cagr_values"] is missing. *)
Record Report : Type := {
  average_cagr : R;
  std_dev : option R;
  num_windows : nat;
  report_values : option (list R);
  report_details : list Detail
}.

Definition empty_report : Report :=
  {| average_cagr := 0;
     std_dev := Some 0%R;
     num_windows := 0;
     report_values := None;
     report_details := [] |}.

(** Rows of equal date keep the order they have in [data]. *)
Definition calculate_rolling_cagr (data : list Point) (window_years : Z)
  : Report :=
  let df := sort_values date data in
  match run df window_years (range_step (length df) stride_days)
            {| cagr_values := []; window_details := [] |}
  with
  | Raise _ => empty_report
  | Ok acc =>
      match cagr_values acc with
      | [] => empty_report
      | _ =>
          {| average_cagr := round2 (Stats.mean (cagr_values acc));
             std_dev := option_map round2 (Stats.pd_std (cagr_values acc));
             num_windows := length (cagr_values acc);
             report_values := Some (cagr_values acc);
             report_details := window_details acc |}
      end
  end.

End MF.

(** ** [nse_index_st.py] *)

Module NSE.
Import Py Frame.

Definition calculate_nse_cagr (start_value end_value years : Q) : option num :=
  if le0 start_value || le0 end_value || le0 years then None
  else
    let attempt :=
      ratio <- div end_value start_value ;;
      expo <- div 1 years ;;
      p <- pow ratio expo ;;
      let cagr := times100 (sub1 p) in
      Ok cagr in
    match attempt with
    | Ok v => Some v
    | Raise _ => None
    end.

(** A row of the frame [historical_data], with its index label. *)
Record Row : Type := { label : Z; Date : Z; Close : Q }.

(** [fetch_nse_historical_data] answers an error or a frame. *)
Inductive fetched : Type :=
| FetchError
| Fetched (df : list Row).

Record Window : Type := {
  window : nat;
  start_date : Z;
  end_date : Z;
  start_nav : Q;
  end_nav : Q;
  actual_years : R;
  cagr : option R
}.

Record Loop : Type := {
  start_idx : Z;
  windows : list Window
}.

Inductive control : Type :=
| Break (st : Loop)
| Next (st : Loop).

(** [df.reset_index(drop=True)]. *)
Definition reset_index (df : list Row) : list Row :=
  map (fun p => {| label := Z.of_nat (fst p); Date := Date (snd p);
                   Close := Close (snd p) |})
      (combine (seq 0 (length df)) df).

Definition round_cagr (c : option num) : result (option R) :=
  match c with
  | None => Ok None
  | Some z => r <- round2_num z ;; Ok (Some r)
  end.

Section Walk.

Variable df : list Row.
Variable window_days : Z.
Variable stride_days : Z.

(** The body of the [while] loop. *)
Definition step (st : Loop) : result control :=
  first_row <- iloc df (start_idx st) ;;
  let window_start_date := Date first_row in
  let window_end_date := (window_start_date + window_days)%Z in
  let end_candidates :=
    filter (fun r => (window_end_date <=? Date r)%Z) df in
  match end_candidates with
  | candidate :: _ =>
      let end_idx := label candidate in
      last_row <- iloc df end_idx ;;
      let start_value := Close first_row in
      let end_value := Close last_row in
      let actual_start_date := Date first_row in
      let actual_end_date := Date last_row in
      let actual_years :=
        inject_Z (actual_end_date - actual_start_date) / 365.25 in
      let c := calculate_nse_cagr start_value end_value actual_years in
      rc <- round_cagr c ;;
      Ok (Next {| start_idx := (start_idx st + stride_days)%Z;
                  windows :=
                    windows st ++
                    [{| window := length (windows st) + 1;
                        start_date := actual_start_date;
                        end_date := actual_end_date;
                        start_nav := start_value;
                        end_nav := end_value;
                        actual_years := round2 (Q2R actual_years);
                        cagr := rc |}] |})
  | [] => Ok (Break st)
  end.

(** [while start_idx < len(df)], for at most [fuel] iterations. *)
Fixpoint loop (fuel : nat) (st : Loop) : option (result (list Window)) :=
  match fuel with
  | O => None
  | S fuel' =>
      if (start_idx st <? Z.of_nat (length df))%Z then
        match step st with
        | Raise e => Some (Raise e)
        | Ok (Break st') => Some (Ok (windows st'))
        | Ok (Next st') => loop fuel' st'
        end
      else Some (Ok (windows st))
  end.

End Walk.

Inductive failure : Type :=
| FetchFailed
| NoHistoricalData
| NoDataFromStart
| InsufficientData
| NotEnoughData
| NoValidCagr
| Exception (e : exn).

Record Report : Type := {
  rep_window_years : Z;
  rep_start_date : option date_text;
  analysis_period : Z * Z;
  total_windows : nat;
  avg_cagr : R;
  std_cagr : R;
  min_cagr : R;
  max_cagr : R;
  rep_windows : list Window
}.

Inductive outcome : Type :=
| Failed (f : failure)
| Done (r : Report).

Definition period_of (first_window : Window) (ws : list Window) : Z * Z :=
  (start_date first_window, end_date (last ws first_window)).

Definition summarise (window_years : Z) (start_date : option date_text)
    (ws : list Window) : outcome :=
  match ws with
  | [] => Failed NotEnoughData
  | first_window :: _ =>
      let valid_cagrs := Stats.present (map cagr ws) in
      match valid_cagrs with
      | [] => Failed NoValidCagr
      | c :: cs =>
          let avg_cagr := Stats.mean valid_cagrs in
          let std_cagr := Stats.np_std valid_cagrs in
          Done {| rep_window_years := window_years;
                  rep_start_date := start_date;
                  analysis_period := period_of first_window ws;
                  total_windows := length ws;
                  avg_cagr := round2 avg_cagr;
                  std_cagr := round2 std_cagr;
                  min_cagr := round2 (Stats.min_list c cs);
                  max_cagr := round2 (Stats.max_list c cs);
                  rep_windows := ws |}
      end
  end.

(** The frame after the optional [start_date] filter; [strptime] reads the
    date first, inside the [try] of the routine. *)
Definition from_start (df : list Row) (start_date : option date_text)
  : failure + list Row :=
  match start_date with
  | Some text =>
      match strptime text with
      | Raise e => inl (Exception e)
      | Ok start_date_obj =>
          match filter (fun r => (start_date_obj <=? Date r)%Z) df with
          | [] => inl NoDataFromStart
          | kept => inr (reset_index kept)
          end
      end
  | None => inr df
  end.

(** [historical_result] stands for the answer of
    [fetch_nse_historical_data]; [start_date] is [None] for an argument
    that is [None] or the empty text.  [None] when [fuel] iterations do not
    end the loop. *)
Definition calculate_nse_rolling_cagr (fuel : nat)
    (historical_result : fetched) (window_years : Z)
    (start_date : option date_text) (stride_days : Z) : option outcome :=
  match historical_result with
  | FetchError => Some (Failed FetchFailed)
  | Fetched [] => Some (Failed NoHistoricalData)
  | Fetched df =>
      match from_start df start_date with
      | inl f => Some (Failed f)
      | inr df =>
          let window_days := int_of (inject_Z window_years * 365.25) in
          if (Z.of_nat (length df) <? window_days / 30)%Z
          then Some (Failed InsufficientData)
          else
            match loop df window_days stride_days fuel
                       {| start_idx := 0; windows := [] |}
            with
            | None => None
            | Some (Raise e) => Some (Failed (Exception e))
            | Some (Ok ws) => Some (summarise window_years start_date ws)
            end
      end
  end.

End NSE.

(** ** The specification's formulas *)

Module Spec.

(** The growth rate as the specification writes it, over the reals:
    [((end_price / start_price) ** (1 / years) - 1) * 100]. *)
Definition cagr (start_price end_price years : Q) : R :=
  ((Rpower (Q2R end_price / Q2R start_price) (1 / Q2R years) - 1) * 100)%R.

(** The power inside it. *)
Definition growth (start_price end_price years : Q) : R :=
  Rpower (Q2R end_price / Q2R start_price) (1 / Q2R years).

(** What keeps the float computation of the rate within the floats: the
    quotient of the prices is neither below the least float of full
    precision nor beyond the largest float, and the exponent and the rate
    itself are not beyond the largest float. *)
Definition in_range (start_price end_price years : Q) : Prop :=
  (Py.min_float <= Q2R end_price / Q2R start_price <= Py.max_float
   /\ 1 / Q2R years <= Py.max_float
   /\ cagr start_price end_price years <= Py.max_float)%R.

(** The quotient and the exponent are floats, and the power is beyond the
    largest one. *)
Definition overflows (start_price end_price years : Q) : Prop :=
  (Q2R end_price / Q2R start_price <= Py.max_float
   /\ 1 / Q2R years <= Py.max_float
   /\ Py.max_float < growth start_price end_price years)%R.

(** The 98% pre-check: the span that remains after the anchor covers at
    least 98% of the window length in days. *)
Definition pre_check (latest_date anchor_date window_years : Z) : bool :=
  Py.geb (inject_Z (latest_date - anchor_date))
         (0.98 * (inject_Z window_years * 365.25)).

(** The 90% post-check: the years between the resolved endpoints are at
    least 90% of the requested ones. *)
Definition post_check (start_date end_date window_years : Z) : bool :=
  Py.geb (inject_Z (end_date - start_date) / 365.25)
         (0.9 * inject_Z window_years).

(** The population standard deviation: the sum of the squared deviations
    from the mean, divided by [N], then the square root. *)
Definition population_std (l : list R) : R :=
  let mu := (Stats.sum l / INR (length l))%R in
  sqrt (Stats.sum (map (fun x => (x - mu) * (x - mu)) l) / INR (length l))%R.

(** The sample variant divides by [N - 1]. *)
Definition sample_std (l : list R) : R :=
  let mu := (Stats.sum l / INR (length l))%R in
  sqrt (Stats.sum (map (fun x => (x - mu) * (x - mu)) l)
        / (INR (length l) - 1))%R.

(** Elapsed years between two dates. *)
Definition elapsed_years (start_date end_date : Z) : Q :=
  inject_Z (end_date - start_date) / 365.25.

End Spec.


(** ** [fetch_nifty_data.py]: one date, and the whole history *)

Module YahooFetch.
Import Py Frame.

(** A row of [ticker.history(...)]: the index date and the columns.  A
    volume that is missing or not a number is [None]. *)
Record Quote : Type := {
  date : Z;
  Open : Q;
  High : Q;
  Low : Q;
  Close : Q;
  Volume : option Q
}.

(** The ["error"] dictionaries of [fetch_index_data]; [Crashed] stands for
    the answer of its [except Exception] branch. *)
Inductive lookup_failure : Type :=
| NoDataInRange
| Crashed.

(** The dictionary [fetch_index_data] answers: the date as it was asked
    for, and the date of the row that answers it. *)
Record IndexData : Type := {
  requested_date : date_text;
  actual_date : Z;
  exact_match : bool;
  data_open : R;
  data_high : R;
  data_low : R;
  data_close : R;
  data_volume : Z
}.

Inductive lookup : Type :=
| NotFound (f : lookup_failure)
| Found (d : IndexData).

(** [hist_data['date_diff'].idxmin()]: the date of the first of the rows
    with the least distance, [best] being the first row. *)
Fixpoint idxmin (target : Z) (best : Quote) (rest : list Quote) : Z :=
  match rest with
  | [] => date best
  | q :: rest' =>
      idxmin target
             (if (Z.abs (date q - target) <? Z.abs (date best - target))%Z
              then q else best)
             rest'
  end.

(** [int(row['Volume']) if 'Volume' in row and pd.notna(row['Volume'])
    else 0]. *)
Definition volume_of (row : Quote) : Z :=
  match Volume row with
  | Some v => int_of v
  | None => 0%Z
  end.

Definition describe (target_date : date_text) (exact : bool) (row : Quote)
  : IndexData :=
  {| requested_date := target_date;
     actual_date := date row;
     exact_match := exact;
     data_open := round2 (Q2R (Open row));
     data_high := round2 (Q2R (High row));
     data_low := round2 (Q2R (Low row));
     data_close := round2 (Q2R (Close row));
     data_volume := volume_of row |}.

(** The rows whose date, written by [strftime('%d-%m-%Y')], is the text
    asked for: the rows of the day the text denotes when the text is written
    that way, and none otherwise. *)
Definition rows_written_as (hist_data : list Quote) (target_dt : Z)
    (padded : bool) : list Quote :=
  if padded then filter (fun q => (date q =? target_dt)%Z) hist_data else [].

(** [hist_data] stands for the history of the week before and the week
    after the date [strptime] reads in [target_date]; a text it rejects
    raises before the history is fetched.  [hist_data.loc[closest_idx]] is a
    row when the date labels one row; when it labels several it is a frame,
    on which the test of the volume raises. *)
Definition fetch_index_data (hist_data : list Quote) (target_date : date_text)
  : lookup :=
  match target_date with
  | Rejected => NotFound Crashed
  | Denotes target_dt padded =>
      match hist_data with
      | [] => NotFound NoDataInRange
      | first_row :: rest =>
          match rows_written_as hist_data target_dt padded with
          | row :: _ => Found (describe target_date true row)
          | [] =>
              let closest_idx := idxmin target_dt first_row rest in
              match filter (fun q => (date q =? closest_idx)%Z) hist_data with
              | [row] => Found (describe target_date false row)
              | _ => NotFound Crashed
              end
          end
      end
  end.

(** The ["error"] dictionaries of [fetch_all_historical_data]. *)
Inductive history_failure : Type :=
| NoHistoricalData
| Exception (e : exn).

(** The dictionary [fetch_all_historical_data] answers, without the frame
    it carries along. *)
Record History : Type := {
  earliest_date : Z;
  latest_date : Z;
  first_close : R;
  last_close : R;
  absolute_change : R;
  percentage_change : R;
  cagr : option R;
  days_diff : Z;
  years_diff : R;
  total_data_points : nat
}.

Inductive history : Type :=
| Failed (f : history_failure)
| Done (h : History).

Definition fetch_all_historical_data (hist_data : list Yahoo.Bar) : history :=
  match hist_data with
  | [] => Failed NoHistoricalData
  | first_bar :: rest =>
      let earliest_date := Yahoo.index_min (Yahoo.date first_bar) rest in
      let latest_date := Yahoo.index_max (Yahoo.date first_bar) rest in
      let first_close := Yahoo.Close first_bar in
      let last_close := Yahoo.Close (last hist_data first_bar) in
      let attempt :=
        c <- Yahoo.calculate_cagr first_close last_close
               earliest_date latest_date ;;
        let absolute_change := last_close - first_close in
        ratio <- div absolute_change first_close ;;
        let percentage_change := ratio * 100 in
        let days_diff := (latest_date - earliest_date)%Z in
        let years_diff := inject_Z days_diff / 365.25 in
        rc <- Yahoo.round_cagr c ;;
        Ok {| earliest_date := earliest_date;
              latest_date := latest_date;
              first_close := round2 (Q2R first_close);
              last_close := round2 (Q2R last_close);
              absolute_change := round2 (Q2R absolute_change);
              percentage_change := round2 (Q2R percentage_change);
              cagr := rc;
              days_diff := days_diff;
              years_diff := round2 (Q2R years_diff);
              total_data_points := length hist_data |} in
      match attempt with
      | Ok h => Done h
      | Raise e => Failed (Exception e)
      end
  end.

End YahooFetch.

(** ** numpy's [float64] *)

Module Np.
Import Py.

(** A value of [float64]: a number, an infinity, or not a number. *)
Inductive float64 : Type :=
| Num (x : R)
| Inf
| NegInf
| NaN.

(** A result that is beyond the largest float is an infinity; nothing is
    raised. *)
Definition overflowing (x : R) : float64 :=
  if Rlt_dec max_float x then Inf
  else if Rlt_dec x (- max_float) then NegInf
  else Num x.

(** [a ** b] on a [float64] base: as [Py.pow], except that a result beyond
    the floats is an infinity, that zero to a negative power is infinity,
    and that a negative base to a fractional power is not a number. *)
Definition power (a b : Q) : float64 :=
  match Qcompare a 0 with
  | Gt => overflowing (Rpower (Q2R a) (Q2R b))
  | Eq =>
      match Qcompare b 0 with
      | Gt => Num 0
      | Eq => Num 1
      | Lt => Inf
      end
  | Lt =>
      if is_integer b then
        if Z.even (Qnum (Qred b))
        then overflowing (Rpower (Q2R (- a)) (Q2R b))
        else overflowing (- Rpower (Q2R (- a)) (Q2R b))
      else NaN
  end.

(** [(p - 1) * 100]. *)
Definition rate (p : float64) : float64 :=
  match p with
  | Num x => overflowing ((x - 1) * 100)
  | Inf => Inf
  | NegInf => NegInf
  | NaN => NaN
  end.

(** [round(x, 2)] leaves what is not a number as it is. *)
Definition round2 (x : float64) : float64 :=
  match x with
  | Num x => Num (Py.round2 x)
  | other => other
  end.

End Np.

(** ** [index_cagr_analysis_excel.py]: the table *)

Module ExcelTable.
Import Py Frame.

(** [hist] stands for [ticker.history(start=..., end=...)], [None] when the
    call raises.  The three values are all present or all absent. *)
Definition get_index_data_for_period (hist : option (list Yahoo.Bar))
  : option (Q * Q * Q) :=
  match hist with
  | None => None
  | Some rows =>
      match rows with
      | [] => None
      | first_bar :: rest =>
          if (length rows <? 2)%nat then None
          else
            let last_bar := last rows first_bar in
            let start_price := Yahoo.Close first_bar in
            let end_price := Yahoo.Close last_bar in
            let actual_years :=
              inject_Z (Yahoo.date last_bar - Yahoo.date first_bar) / 365.25 in
            Some (start_price, end_price, actual_years)
      end
  end.

(** [recent] stands for [ticker.history(period="5d")]. *)
Definition test_index_availability (recent : option (list Yahoo.Bar)) : bool :=
  match recent with
  | Some (_ :: _) => true
  | _ => false
  end.

(** A cell of [results_df]: the text ["NA"] or a rate, a [float64]. *)
Inductive cell : Type :=
| NA
| Rate (x : Np.float64).

(** [calculate_cagr] as [main] calls it, on the [float64] prices that
    [get_index_data_for_period] reads from the frame: the guards are the
    same, and the power does not raise. *)
Definition calculate_cagr (start_price end_price years : Q)
  : option Np.float64 :=
  if le0 start_price || le0 end_price || le0 years then None
  else
    let cagr := Np.power (end_price / start_price) (1 / years) in
    Some (Np.rate cagr).

(** The body of the loop over [years_list] in [main]. *)
Definition cell_for (hist : option (list Yahoo.Bar)) : cell :=
  match get_index_data_for_period hist with
  | Some (start_price, end_price, actual_years) =>
      match calculate_cagr start_price end_price actual_years with
      | Some cagr => Rate (Np.round2 cagr)
      | None => NA
      end
  | None => NA
  end.

Definition years_list : list Z := map Z.of_nat (seq 1 20).

(** The row of one index: [history years] stands for the history fetched
    for [years] years back. *)
Definition row_for (recent : option (list Yahoo.Bar))
    (history : Z -> option (list Yahoo.Bar)) : list cell :=
  if test_index_availability recent
  then map cell_for (map history years_list)
  else map (fun _ => NA) years_list.

(** The fills [apply_excel_formatting] gives to the data cells. *)
Inductive fill : Type :=
| PositiveFill
| NegativeFill
| NaFill.

(** The colour of a data cell, chosen from the value the sheet holds: the
    text ["NA"], a number, or something else (an infinite rate is written
    as text, one that is not a number as an empty cell), which gets no
    fill. *)
Definition data_fill (value : cell) : option fill :=
  match value with
  | NA => Some NaFill
  | Rate (Np.Num x) =>
      Some (if Rlt_dec 0 x then PositiveFill else NegativeFill)
  | Rate _ => None
  end.

End ExcelTable.

(** ** [mf_st.py]: the figures of the page *)

Module MFApp.
Import Py Frame.

(** Rounding of an exactly known float to the nearest integer, ties to the
    even one. *)
Definition round_half_even_Q (x : Q) : Z :=
  let f := Qfloor x in
  match Qcompare (x - inject_Z f) (1 # 2) with
  | Lt => f
  | Gt => (f + 1)%Z
  | Eq => if Z.even f then f else (f + 1)%Z
  end.

(** [round(x, 1)]. *)
Definition round1 (x : Q) : Q := inject_Z (round_half_even_Q (x * 10)) / 10.

(** A date is [None] when [strptime] rejects its text, which raises the
    [ValueError] the function catches. *)
Definition calculate_years_since_nfo (start_date end_date : option Z) : Q :=
  match start_date, end_date with
  | Some start, Some end_ =>
      let days_diff := (end_ - start)%Z in
      round1 (inject_Z days_diff / 365.25)
  | _, _ => 0
  end.

(** An entry of [scheme_data['data']]. *)
Record Entry : Type := { date : option Z; nav : Q }.

(** The rate since the first NAV as [main] computes it: the first entry is
    the latest, the last one the oldest.  [None] when there is no entry,
    where [main] returns before. *)
Definition cagr_since_nfo (data : list Entry) : option (result num) :=
  match data with
  | [] => None
  | latest_data :: _ =>
      let first_data := last data latest_data in
      let latest_nav := nav latest_data in
      let nfo_nav := nav first_data in
      let latest_date := date latest_data in
      let nfo_date := date first_data in
      let years_since_nfo := calculate_years_since_nfo nfo_date latest_date in
      Some (MF.calculate_cagr nfo_nav latest_nav years_since_nfo)
  end.

Inductive volatility : Type :=
| LowVolatility
| ModerateVolatility
| HighVolatility.

(** The description chosen from [std_dev]; a comparison with NaN is
    false. *)
Definition volatility_desc (std_dev : option R) : volatility :=
  match std_dev with
  | None => HighVolatility
  | Some s =>
      if Rlt_dec s 5 then LowVolatility
      else if Rlt_dec s 10 then ModerateVolatility
      else HighVolatility
  end.

(** What the page shows for a report: the warning that there is not enough
    data, or the description and the range of the rates; [None] where the
    key ["cagr_values"] is looked up and missing. *)
Inductive shown : Type :=
| NotEnoughData
| Results (desc : volatility) (min_cagr max_cagr : R).

Definition show_rolling (rolling_results : MF.Report) : option shown :=
  if (0 <? MF.num_windows rolling_results)%nat then
    match MF.report_values rolling_results with
    | Some (c :: cs) =>
        Some (Results (volatility_desc (MF.std_dev rolling_results))
                      (Stats.min_list c cs) (Stats.max_list c cs))
    | _ => None
    end
  else Some NotEnoughData.

End MFApp.

(** ** [nse_index_st.py]: the history *)

Module NSEFetch.
Import Py Frame.

(** What a request for a number of years comes to: no usable answer (an
    exception, a status other than 200, or a body without the graph), or
    the list [grapthData], each item a list of numbers. *)
Inductive response : Type :=
| NoAnswer
| Graph (graph_data : list (list Q)).

(** Rounding of an exactly known float to two decimals. *)
Definition round2_Q (x : Q) : Q :=
  inject_Z (MFApp.round_half_even_Q (x * 100)) / 100.

Record Summary : Type := {
  historical_data : list NSE.Row;
  earliest_date : Z;
  latest_date : Z;
  first_close : Q;
  last_close : Q;
  total_data_points : nat;
  days_diff : Z;
  years_diff : Q;
  cagr : option Np.float64;
  absolute_change : Q;
  percentage_change : Q;
  years_fetched : Z
}.

Section Fetch.

(** The local calendar day of a timestamp in milliseconds. *)
Variable day_of : Q -> Z.

(** The rows collected from the items that have a timestamp and a value,
    labelled in the order in which they are appended. *)
Fixpoint collect (label : nat) (graph_data : list (list Q)) : list NSE.Row :=
  match graph_data with
  | [] => []
  | (timestamp :: value :: _) :: rest =>
      {| NSE.label := Z.of_nat label; NSE.Date := day_of timestamp;
         NSE.Close := value |} :: collect (S label) rest
  | _ :: rest => collect label rest
  end.

(** The dictionary built from the rows of one answer; the closes are
    [float64] values read from the frame. *)
Definition summarise (years : Z) (first_row : NSE.Row) (others : list NSE.Row)
  : Summary :=
  let df := sort_values NSE.Date (first_row :: others) in
  let first_sorted := hd first_row df in
  let first_close := NSE.Close first_sorted in
  let last_close := NSE.Close (last df first_row) in
  let earliest_date :=
    fold_left Z.min (map NSE.Date others) (NSE.Date first_row) in
  let latest_date :=
    fold_left Z.max (map NSE.Date others) (NSE.Date first_row) in
  let date_diff := (latest_date - earliest_date)%Z in
  let years_diff := round2_Q (inject_Z date_diff / 365.25) in
  let cagr :=
    if gt0 first_close && gt0 years_diff
    then Some (Np.rate (Np.power (last_close / first_close) (1 / years_diff)))
    else None in
  {| historical_data := df;
     earliest_date := earliest_date;
     latest_date := latest_date;
     first_close := first_close;
     last_close := last_close;
     total_data_points := length df;
     days_diff := date_diff;
     years_diff := years_diff;
     cagr := cagr;
     absolute_change := last_close - first_close;
     percentage_change :=
       if gt0 first_close
       then (last_close - first_close) / first_close * 100
       else 0;
     years_fetched := years |}.

(** The answers to the requests, by number of years. *)
Variable respond : Z -> response.

(** The loop over [range(max_years, 0, -1)], [n] years being left to try:
    the first answer with a row is the one summarised. *)
Fixpoint try_years (n : nat) : option Summary :=
  match n with
  | O => None
  | S n' =>
      let years := Z.of_nat n in
      match respond years with
      | Graph graph_data =>
          match collect 0 graph_data with
          | first_row :: others => Some (summarise years first_row others)
          | [] => try_years n'
          end
      | NoAnswer => try_years n'
      end
  end.

(** [None] is the error dictionary. *)
Definition fetch_nse_historical_data (max_years : Z) : option Summary :=
  try_years (Z.to_nat max_years).

(** What [calculate_nse_rolling_cagr] makes of the answer. *)
Definition as_fetched (historical_result : option Summary) : NSE.fetched :=
  match historical_result with
  | None => NSE.FetchError
  | Some s => NSE.Fetched (historical_data s)
  end.

End Fetch.

End NSEFetch.

(** ** [nse_index_st.py]: the list of indices *)

Module NSEIndices.

Local Abbreviation string := String.string.
Local Abbreviation EmptyString := String.EmptyString.
Local Abbreviation String := String.String.

(** The whitespace [str.strip] removes, among the characters below 256. *)
Definition is_space (c : Ascii.ascii) : bool :=
  let n := Ascii.N_of_ascii c in
  ((9 <=? n) && (n <=? 13) || (28 <=? n) && (n <=? 32)
   || (n =? 133) || (n =? 160))%N.

Fixpoint lstrip (s : string) : string :=
  match s with
  | EmptyString => EmptyString
  | String c s' => if is_space c then lstrip s' else s
  end.

Fixpoint rstrip (s : string) : string :=
  match s with
  | EmptyString => EmptyString
  | String c s' =>
      match rstrip s' with
      | EmptyString => if is_space c then EmptyString else String c EmptyString
      | r => String c r
      end
  end.

(** [s.strip()]. *)
Definition strip (s : string) : string := rstrip (lstrip s).

(** What follows [sep] when [s] starts with it. *)
Fixpoint drop_prefix (sep s : string) : option string :=
  match sep with
  | EmptyString => Some s
  | String a sep' =>
      match s with
      | String b s' => if Ascii.eqb a b then drop_prefix sep' s' else None
      | EmptyString => None
      end
  end.

(** [s.split(sep, 1)[1]], the text after the first occurrence of [sep];
    [None] when [sep] is not in [s]. *)
Fixpoint after_first (sep s : string) : option string :=
  match drop_prefix sep s with
  | Some rest => Some rest
  | None =>
      match s with
      | String _ s' => after_first sep s'
      | EmptyString => None
      end
  end.

(** The name under which an index is kept. *)
Definition normalise (index_name : string) : string :=
  match after_first "NIFTY"%string index_name with
  | Some rest => String.append "NIFTY "%string (strip rest)
  | None => index_name
  end.

(** A dictionary from names to symbols, in the order of insertion. *)
Definition dict : Type := list (string * string).

(** [d[k] = v]. *)
Fixpoint set_item (k v : string) (d : dict) : dict :=
  match d with
  | [] => [(k, v)]
  | (k', v') :: d' =>
      if String.eqb k k' then (k, v) :: d' else (k', v') :: set_item k v d'
  end.

(** [d.get(k)]. *)
Fixpoint get_item (k : string) (d : dict) : option string :=
  match d with
  | [] => None
  | (k', v') :: d' => if String.eqb k k' then Some v' else get_item k d'
  end.

(** The loop over [data['stn']], each item a list of strings. *)
Definition parse_stn (stn : list (list string)) : dict :=
  fold_left
    (fun indices item =>
       match item with
       | index_symbol :: index_name :: _ =>
           set_item (normalise index_name) index_symbol indices
       | _ => indices
       end)
    stn [].

(** [data] is [None] when the key ['stn'] is missing. *)
Definition parse (data : option (list (list string))) : dict :=
  match data with
  | Some stn => parse_stn stn
  | None => []
  end.

(** The local file: missing, unreadable, or holding [data]. *)
Inductive local_file : Type :=
| Missing
| Unreadable
| File (data : option (list (list string))).

(** The answer of the API: a status of 200 with its [data], or anything
    else (another status, an exception). *)
Inductive api_answer : Type :=
| ApiFailed
| ApiOk (data : option (list (list string))).

(** The dictionaries returned: the indices, or one with the key
    ["error"]. *)
Inductive indices_result : Type :=
| Indices (d : dict)
| Error.

Definition load_local_nse_indices (file : local_file) : indices_result :=
  match file with
  | File data => Indices (parse data)
  | Missing | Unreadable => Error
  end.

(** ["error" in local_result]. *)
Definition has_error (r : indices_result) : bool :=
  match r with
  | Indices d =>
      match get_item "error"%string d with Some _ => true | None => false end
  | Error => true
  end.

Definition fetch_nse_indices (api : api_answer) (file : local_file)
  : indices_result :=
  match api with
  | ApiOk data => Indices (parse data)
  | ApiFailed =>
      let local_result := load_local_nse_indices file in
      if negb (has_error local_result) then local_result else Error
  end.

End NSEIndices.
(** ** Concrete inputs *)

Module Examples.

(** Two closes 360 days apart. *)
Definition short_history : list Yahoo.Bar :=
  [{| Yahoo.date := 0; Yahoo.Close := 100 |};
   {| Yahoo.date := 360; Yahoo.Close := 110 |}].

(** A NAV of 100 on every second day from day 0 to day 42, then on day 366
    and on day 408. *)
Definition alternate_days : list MF.Point :=
  map (fun k => {| MF.date := 2 * Z.of_nat k; MF.nav := 100 |}) (seq 0 22)
  ++ [{| MF.date := 366; MF.nav := 100 |};
      {| MF.date := 408; MF.nav := 100 |}].

(** A NAV of 1 on each of the days 0 to 21, of 16 on day 1461 and of 1 on
    day 1482. *)
Definition quadrupled : list MF.Point :=
  map (fun k => {| MF.date := Z.of_nat k; MF.nav := 1 |}) (seq 0 22)
  ++ [{| MF.date := 1461; MF.nav := 16 |};
      {| MF.date := 1482; MF.nav := 1 |}].

(** A close of 0 on day 0 and of 10 on day 365. *)
Definition zero_start : list Yahoo.Bar :=
  [{| Yahoo.date := 0; Yahoo.Close := 0 |};
   {| Yahoo.date := 365; Yahoo.Close := 10 |}].

(** A frame of 24 rows labelled by position: days 0 to 21, then days 365 and
    386; the close is 0 on day 0 and 100 on the other days. *)
Definition zero_first_close : list NSE.Row :=
  map (fun k => {| NSE.label := Z.of_nat k; NSE.Date := Z.of_nat k;
                   NSE.Close := if (k =? 0)%nat then 0 else 100 |})
      (seq 0 22)
  ++ [{| NSE.label := 22; NSE.Date := 365; NSE.Close := 100 |};
      {| NSE.label := 23; NSE.Date := 386; NSE.Close := 100 |}].

(** The closes of 01-01-2020 and 01-01-2021, 366 days apart. *)
Definition two_observations : list Yahoo.Bar :=
  [{| Yahoo.date := 0; Yahoo.Close := 100 |};
   {| Yahoo.date := 366; Yahoo.Close := 110 |}].

(** The same two observations as NAVs. *)
Definition two_navs : list MF.Point :=
  [{| MF.date := 0; MF.nav := 100 |};
   {| MF.date := 366; MF.nav := 110 |}].

(** A close that rises from 1000000 to 1000001 over 365 days. *)
Definition slow_growth : list Yahoo.Bar :=
  [{| Yahoo.date := 0; Yahoo.Close := 1000000 |};
   {| Yahoo.date := 365; Yahoo.Close := 1000001 |}].

(** A frame of 13 rows labelled by position: a close of 100 on each of the
    days 0 to 11 and of 110 on day 365. *)
Definition year_apart : list NSE.Row :=
  map (fun k => {| NSE.label := Z.of_nat k; NSE.Date := Z.of_nat k;
                   NSE.Close := 100 |})
      (seq 0 12)
  ++ [{| NSE.label := 12; NSE.Date := 365; NSE.Close := 110 |}].

(** The closes of [short_history] in falling and in constant versions. *)
Definition falling_history : list Yahoo.Bar :=
  [{| Yahoo.date := 0; Yahoo.Close := 110 |};
   {| Yahoo.date := 360; Yahoo.Close := 100 |}].
Definition flat_history : list Yahoo.Bar :=
  [{| Yahoo.date := 0; Yahoo.Close := 100 |};
   {| Yahoo.date := 360; Yahoo.Close := 100 |}].

End Examples.
(** ** Auxiliary predicates *)

Module Props.
Import Py.

(** What the Yahoo loop knows about a window when it appends it: the two
    rows it was read from, the checks it went through and how its rate was
    obtained. *)
Definition yahoo_emitted (hist_data : list Yahoo.Bar) (window_years : Z)
    (w : Yahoo.Window) : Prop :=
  exists first_bar last_bar c,
    In first_bar hist_data /\ In last_bar hist_data
    /\ Yahoo.start_date w = Yahoo.date first_bar
    /\ Yahoo.end_date w = Yahoo.date last_bar
    /\ ltb (Spec.elapsed_years (Yahoo.date first_bar) (Yahoo.date last_bar))
           (inject_Z window_years * 0.9) = false
    /\ gt0 (Spec.elapsed_years (Yahoo.date first_bar) (Yahoo.date last_bar))
       = true
    /\ gt0 (Yahoo.Close first_bar) = true
    /\ Yahoo.calculate_cagr (Yahoo.Close first_bar) (Yahoo.Close last_bar)
         (Yahoo.date first_bar) (Yahoo.date last_bar) = Ok c
    /\ Yahoo.round_cagr c = Ok (Yahoo.cagr w).

(** The state an iteration hands on. *)
Definition yahoo_state (c : Yahoo.control) : Yahoo.Loop :=
  match c with Yahoo.Break st | Yahoo.Next st => st end.


(** What the mutual-fund loop knows about a rate [c] and the detail [d] it
    appends with it: the positions of the two rows, the search that found
    the second, the guard, and the rate itself. *)
Definition mf_emitted (df : list MF.Point) (window_years : Z)
    (c : R) (d : MF.Detail) : Prop :=
  exists i j first_row last_row,
    nth_error df i = Some first_row /\ nth_error df j = Some last_row
    /\ (i < j)%nat
    /\ MF.d_start_date d = MF.date first_row
    /\ MF.d_end_date d = MF.date last_row
    /\ geb (inject_Z (MF.date last_row))
           (inject_Z (MF.date first_row) + MF.window_days window_years) = true
    /\ (forall k row, (i < k < j)%nat -> nth_error df k = Some row ->
          geb (inject_Z (MF.date row))
              (inject_Z (MF.date first_row) + MF.window_days window_years)
          = false)
    /\ gt0 (MF.nav first_row) = true /\ gt0 (MF.nav last_row) = true
    /\ gt0 (Spec.elapsed_years (MF.date first_row) (MF.date last_row)) = true
    /\ c = Spec.cagr (MF.nav first_row) (MF.nav last_row)
             (Spec.elapsed_years (MF.date first_row) (MF.date last_row))
    /\ MF.d_cagr d = round2 c.

Definition mf_state (c : MF.control) : MF.Acc :=
  match c with MF.Break acc | MF.Next acc => acc end.



Definition mf_invariant (df : list MF.Point) (window_years : Z)
    (acc : MF.Acc) : Prop :=
  Forall2 (mf_emitted df window_years)
          (MF.cagr_values acc) (MF.window_details acc).


(** What the NSE loop knows about a window when it appends it: the anchor
    row, the first row at or after the window's end, the row read at that
    row's label, and how the rate was obtained. *)
Definition nse_emitted (df : list NSE.Row) (window_days : Z)
    (w : NSE.Window) : Prop :=
  exists first_row candidate rest last_row,
    In first_row df
    /\ filter (fun r => (NSE.Date first_row + window_days <=? NSE.Date r)%Z) df
       = candidate :: rest
    /\ Frame.iloc df (NSE.label candidate) = Ok last_row
    /\ NSE.start_date w = NSE.Date first_row
    /\ NSE.end_date w = NSE.Date last_row
    /\ NSE.start_nav w = NSE.Close first_row
    /\ NSE.end_nav w = NSE.Close last_row
    /\ NSE.round_cagr
         (NSE.calculate_nse_cagr (NSE.Close first_row) (NSE.Close last_row)
            (Spec.elapsed_years (NSE.Date first_row) (NSE.Date last_row)))
       = Ok (NSE.cagr w).

(** What the rate of a reported NSE window is, from its prices and its
    dates. *)
Definition nse_rate_known (w : NSE.Window) : Prop :=
  let start_value := NSE.start_nav w in
  let end_value := NSE.end_nav w in
  let years := Spec.elapsed_years (NSE.start_date w) (NSE.end_date w) in
  (start_value <= 0 \/ end_value <= 0 \/ years <= 0 -> NSE.cagr w = None)
  /\ (0 < start_value -> 0 < end_value -> 0 < years ->
      Spec.in_range start_value end_value years ->
      NSE.cagr w = Some (round2 (Spec.cagr start_value end_value years)))
  /\ (NSE.cagr w = None ->
      start_value <= 0 \/ end_value <= 0 \/ years <= 0
      \/ (max_float < Spec.growth start_value end_value years)%R).

Definition nse_state (c : NSE.control) : NSE.Loop :=
  match c with NSE.Break st | NSE.Next st => st end.

(** The labels of a frame are the positions of its rows. *)
Definition positional (df : list NSE.Row) : Prop :=
  forall k r, nth_error df k = Some r -> NSE.label r = Z.of_nat k.

(** The date of some row of a history. *)
Definition date_of (hist_data : list Yahoo.Bar) (d : Z) : Prop :=
  exists b, In b hist_data /\ Yahoo.date b = d.

(** A number of remaining days below which the first check of the Yahoo
    loop is certain to end it. *)
Definition break_bound (window_years : Z) : Z :=
  Qfloor (Yahoo.window_days window_years * 0.98).

(** Price series in date order, no date twice. *)
Definition yahoo_ordered (hist_data : list Yahoo.Bar) : Prop :=
  StronglySorted (fun a b => (Yahoo.date a < Yahoo.date b)%Z) hist_data.
Definition mf_ordered (df : list MF.Point) : Prop :=
  StronglySorted (fun a b => (MF.date a < MF.date b)%Z) df.

(** Prices that rise, fall, or stay with the date. *)
Definition rising (hist_data : list Yahoo.Bar) : Prop :=
  forall a b, In a hist_data -> In b hist_data ->
    (Yahoo.date a < Yahoo.date b)%Z -> Yahoo.Close a < Yahoo.Close b.
Definition falling (hist_data : list Yahoo.Bar) : Prop :=
  forall a b, In a hist_data -> In b hist_data ->
    (Yahoo.date a < Yahoo.date b)%Z -> Yahoo.Close b < Yahoo.Close a.
Definition flat (hist_data : list Yahoo.Bar) : Prop :=
  forall a b, In a hist_data -> In b hist_data ->
    Yahoo.Close a == Yahoo.Close b.

End Props.

(** ** Further predicates *)

Module MoreProps.
Import Py.

(** The history of a period has the start price [s], the end price [e] and
    the years [y] of a rate of the table: it has two rows or more, [s] and
    [e] are its first and last closes, both positive, its last date comes
    after its first, and [y] are the years between the two dates. *)
Definition excel_period (hist : option (list Yahoo.Bar)) (s e y : Q) : Prop :=
  exists first_bar rest,
    hist = Some (first_bar :: rest) /\ rest <> []
    /\ s = Yahoo.Close first_bar
    /\ e = Yahoo.Close (last rest first_bar)
    /\ y = Spec.elapsed_years (Yahoo.date first_bar)
                              (Yahoo.date (last rest first_bar))
    /\ 0 < s /\ 0 < e
    /\ (Yahoo.date first_bar < Yahoo.date (last rest first_bar))%Z.

(** An answer to a request of the NSE history that has a row: one with a
    graph of which some item has a timestamp and a value. *)
Definition usable (day_of : Q -> Z) (r : NSEFetch.response) : bool :=
  match r with
  | NSEFetch.Graph graph_data =>
      match NSEFetch.collect day_of 0 graph_data with
      | [] => false
      | _ :: _ => true
      end
  | NSEFetch.NoAnswer => false
  end.

(** Rows in the order of their dates, no date twice. *)
Definition chronological (rows : list NSE.Row) : Prop :=
  StronglySorted (fun a b => (NSE.Date a < NSE.Date b)%Z) rows.

(** The labels of a frame are positions of the frame. *)
Definition labelled_within (df : list NSE.Row) : Prop :=
  forall r, In r df -> (0 <= NSE.label r < Z.of_nat (length df))%Z.

(** The detail [d] was appended by the mutual-fund loop at the start
    position [i]: it runs from the row at [i] to the first later row whose
    date has reached the end of the window. *)
Definition mf_emitted_at (df : list MF.Point) (window_years : Z)
    (i : nat) (d : MF.Detail) : Prop :=
  exists j first_row last_row,
    nth_error df i = Some first_row /\ nth_error df j = Some last_row
    /\ (i < j)%nat
    /\ MF.d_start_date d = MF.date first_row
    /\ MF.d_end_date d = MF.date last_row
    /\ geb (inject_Z (MF.date last_row))
           (inject_Z (MF.date first_row) + MF.window_days window_years) = true
    /\ (forall k row, (i < k < j)%nat -> nth_error df k = Some row ->
          geb (inject_Z (MF.date row))
              (inject_Z (MF.date first_row) + MF.window_days window_years)
          = false).

(** The end of the window the Yahoo loop looks at from the anchor
    [current_start]: the anchor plus the window, or the last date when that
    lies beyond it. *)
Definition yahoo_window_end (window_years end_dt current_start : Z) : Q :=
  let window_end := inject_Z current_start + Yahoo.window_days window_years in
  if gtb window_end (inject_Z end_dt) then inject_Z end_dt else window_end.

(** The window [w] was appended by the Yahoo loop at the anchor
    [current_start]. *)
Definition yahoo_emitted_at (hist_data : list Yahoo.Bar)
    (window_years end_dt current_start : Z) (w : Yahoo.Window) : Prop :=
  exists first_bar last_bar,
    Frame.last_row (Yahoo.start_prices hist_data current_start)
    = Some first_bar
    /\ Frame.last_row
         (Yahoo.end_prices hist_data
            (yahoo_window_end window_years end_dt current_start))
       = Some last_bar
    /\ Yahoo.start_date w = Yahoo.date first_bar
    /\ Yahoo.end_date w = Yahoo.date last_bar.

(** The window [w] was appended by the NSE loop at the position
    [start_idx]. *)
Definition nse_emitted_at (df : list NSE.Row) (window_days start_idx : Z)
    (w : NSE.Window) : Prop :=
  exists first_row candidate rest last_row,
    Frame.iloc df start_idx = Ok first_row
    /\ filter (fun r => (NSE.Date first_row + window_days <=? NSE.Date r)%Z) df
       = candidate :: rest
    /\ Frame.iloc df (NSE.label candidate) = Ok last_row
    /\ NSE.start_date w = NSE.Date first_row
    /\ NSE.end_date w = NSE.Date last_row.

(** A frame in the order of its dates, equal dates allowed. *)
Definition nse_date_order (df : list NSE.Row) : Prop :=
  StronglySorted Z.le (map NSE.Date df).

End MoreProps.

(** ** Further concrete inputs *)

Module MoreExamples.

(** The rows of a Friday (day 10), the Monday after (day 13) and the
    Tuesday (day 14). *)
Definition week_quotes : list YahooFetch.Quote :=
  [{| YahooFetch.date := 10; YahooFetch.Open := 99; YahooFetch.High := 101;
      YahooFetch.Low := 98; YahooFetch.Close := 100;
      YahooFetch.Volume := Some 1000 |};
   {| YahooFetch.date := 13; YahooFetch.Open := 100; YahooFetch.High := 103;
      YahooFetch.Low := 100; YahooFetch.Close := 102;
      YahooFetch.Volume := None |};
   {| YahooFetch.date := 14; YahooFetch.Open := 102; YahooFetch.High := 104;
      YahooFetch.Low := 101; YahooFetch.Close := 103;
      YahooFetch.Volume := Some 1200 |}].

(** A close of 100 on day 0 and of -50 four years later. *)
Definition negative_close : list Yahoo.Bar :=
  [{| Yahoo.date := 0; Yahoo.Close := 100 |};
   {| Yahoo.date := 1461; Yahoo.Close := -50 |}].

(** A close of 1 and, a day later, one of -10. *)
Definition negative_in_a_day : list Yahoo.Bar :=
  [{| Yahoo.date := 0; Yahoo.Close := 1 |};
   {| Yahoo.date := 1; Yahoo.Close := -10 |}].

(** A close of 1 and, a day later, one of 10. *)
Definition ten_a_day : list Yahoo.Bar :=
  [{| Yahoo.date := 0; Yahoo.Close := 1 |};
   {| Yahoo.date := 1; Yahoo.Close := 10 |}].

(** One close only. *)
Definition one_close : list Yahoo.Bar :=
  [{| Yahoo.date := 7; Yahoo.Close := 100 |}].

(** Three items of a graph in the order of their days, the second without
    a value. *)
Definition three_items : list (list Q) :=
  [[0; 100]; [1]; [86400000; 101]; [172800000; 102; 7]].

(** The day of a timestamp in milliseconds, for a clock on universal
    time. *)
Definition utc_day (timestamp : Q) : Z := Qfloor (timestamp / 86400000).

(** An index whose history is answered for at most two years. *)
Definition two_years_only (years : Z) : NSEFetch.response :=
  if (years <=? 2)%Z then NSEFetch.Graph three_items else NSEFetch.NoAnswer.

(** An index for which no request is answered. *)
Definition no_answer (years : Z) : NSEFetch.response := NSEFetch.NoAnswer.

(** Two items of the list of indices whose names are kept under one name. *)
Definition two_names : list (list String.string) :=
  [["NIFTY50"; "NIFTY 50"]; ["CNX50"; "S&P CNX NIFTY   50 "]]%string.

(** Closes on the days 0, 30, 365 and 395. *)
Definition four_closes : list Yahoo.Bar :=
  [{| Yahoo.date := 0; Yahoo.Close := 100 |};
   {| Yahoo.date := 30; Yahoo.Close := 101 |};
   {| Yahoo.date := 365; Yahoo.Close := 110 |};
   {| Yahoo.date := 395; Yahoo.Close := 112 |}].

End MoreExamples.
(** * Properties *)

(** ** Python numbers *)

Section PyFacts.
Import Py.

Lemma le0_true (x : Q) : le0 x = true <-> x <= 0.
Proof. unfold le0. apply Qle_bool_iff. Qed.

Lemma le0_false (x : Q) : le0 x = false <-> 0 < x.
Proof.
  unfold le0. split; intros H.
  - apply Qnot_le_lt. intros Hle. apply Qle_bool_iff in Hle. congruence.
  - destruct (Qle_bool x 0) eqn:E; [|reflexivity].
    apply Qle_bool_iff in E. exfalso. exact (Qlt_not_le _ _ H E).
Qed.

Lemma gt0_true (x : Q) : gt0 x = true <-> 0 < x.
Proof.
  unfold gt0. rewrite negb_true_iff. apply le0_false.
Qed.

Lemma ltb_true (x y : Q) : ltb x y = true <-> x < y.
Proof.
  unfold ltb. rewrite negb_true_iff. split; intros H.
  - apply Qnot_le_lt. intros Hle. apply Qle_bool_iff in Hle. congruence.
  - destruct (Qle_bool y x) eqn:E; [|reflexivity].
    apply Qle_bool_iff in E. exfalso. exact (Qlt_not_le _ _ H E).
Qed.

Lemma ltb_false (x y : Q) : ltb x y = false <-> y <= x.
Proof.
  unfold ltb. rewrite negb_false_iff. apply Qle_bool_iff.
Qed.

Lemma geb_true (x y : Q) : geb x y = true <-> y <= x.
Proof. unfold geb. apply Qle_bool_iff. Qed.

Lemma div_ok (a b : Q) : ~ b == 0 -> div a b = Ok (a / b).
Proof.
  intros H. unfold div. destruct (Qeq_bool b 0) eqn:E; [|reflexivity].
  apply Qeq_bool_iff in E. contradiction.
Qed.

(** A power of a positive base within the floats, and one beyond them. *)
Lemma pow_positive (a b : Q) :
  0 < a -> (Rpower (Q2R a) (Q2R b) <= max_float)%R ->
  pow a b = Ok (Float (Rpower (Q2R a) (Q2R b))).
Proof.
  intros H Hfit. unfold pow.
  apply Qgt_alt in H. rewrite H.
  destruct (Rlt_dec max_float (Rpower (Q2R a) (Q2R b))) as [Hover | _];
    [lra | reflexivity].
Qed.

Lemma pow_overflow (a b : Q) :
  0 < a -> (max_float < Rpower (Q2R a) (Q2R b))%R ->
  pow a b = Raise OverflowError.
Proof.
  intros H Hover. unfold pow.
  apply Qgt_alt in H. rewrite H.
  destruct (Rlt_dec max_float (Rpower (Q2R a) (Q2R b))) as [_ | Hfit];
    [reflexivity | contradiction].
Qed.

Lemma max_float_large : (IZR (2 ^ 100) <= max_float)%R.
Proof.
  unfold max_float. apply IZR_le. apply Z.leb_le. vm_compute. reflexivity.
Qed.

Lemma max_float_pos : (0 < max_float)%R.
Proof.
  apply Rlt_le_trans with (IZR (2 ^ 100)); [|exact max_float_large].
  apply IZR_lt. reflexivity.
Qed.

Lemma min_float_small : (min_float <= / 1024)%R.
Proof.
  unfold min_float. apply Rinv_le_contravar; [lra|].
  apply IZR_le. discriminate.
Qed.

(** A base of at most 1024 to a power between 0 and 8 is at most
    [2 ** 80], well within the floats. *)
Lemma Rpower_bounded (x y : R) :
  (0 < x <= 1024 -> 0 <= y <= 8 -> Rpower x y <= IZR (2 ^ 80))%R.
Proof.
  intros [Hx0 Hx] [Hy0 Hy].
  destruct (Rle_dec x 1) as [Hle | Hgt].
  - apply Rle_trans with (exp 0);
      [|rewrite exp_0; apply IZR_le; discriminate].
    unfold Rpower.
    assert (Hln : (ln x <= 0)%R).
    { destruct (Rle_lt_or_eq_dec _ _ Hle) as [Hlt | Heq].
      - left. rewrite <- ln_1. apply ln_increasing; lra.
      - subst x. rewrite ln_1. lra. }
    assert (Hprod : (y * ln x <= 0)%R) by nra.
    destruct (Rle_lt_or_eq_dec _ _ Hprod) as [Hlt | Heq].
    + left. apply exp_increasing. exact Hlt.
    + right. f_equal. exact Heq.
  - apply Rnot_le_lt in Hgt.
    apply Rle_trans with (Rpower x 8).
    { apply Rle_Rpower; lra. }
    apply Rle_trans with (Rpower 1024 8).
    { apply Rle_Rpower_l; lra. }
    replace 8%R with (INR 8) by (simpl; lra).
    rewrite Rpower_pow by lra.
    rewrite pow_IZR. apply IZR_le. apply Z.leb_le. vm_compute. reflexivity.
Qed.

Lemma Rpower_moderate (x y : R) :
  (0 < x <= 1024 -> 0 <= y <= 8 -> Rpower x y <= max_float)%R.
Proof.
  intros Hx Hy.
  apply Rle_trans with (IZR (2 ^ 80)); [apply Rpower_bounded; assumption|].
  apply Rle_trans with (IZR (2 ^ 100)); [|exact max_float_large].
  apply IZR_le. discriminate.
Qed.

(** The same for a computation on concrete numbers, where the bounds are
    decided. *)
Lemma pow_moderate (a b : Q) :
  gt0 a && Qle_bool a 1024 && Qle_bool 0 b && Qle_bool b 8 = true ->
  pow a b = Ok (Float (Rpower (Q2R a) (Q2R b))).
Proof.
  intros H.
  apply andb_true_iff in H as [H Hb8].
  apply andb_true_iff in H as [H Hb0].
  apply andb_true_iff in H as [Ha0 Ha].
  apply gt0_true in Ha0.
  apply Qle_bool_iff in Ha, Hb0, Hb8.
  apply pow_positive; [exact Ha0|].
  apply Rpower_moderate.
  - split.
    + replace 0%R with (Q2R 0) by (unfold Q2R; simpl; lra).
      apply Qlt_Rlt. exact Ha0.
    + replace 1024%R with (Q2R 1024) by (unfold Q2R; simpl; lra).
      apply Qle_Rle. exact Ha.
  - split.
    + replace 0%R with (Q2R 0) by (unfold Q2R; simpl; lra).
      apply Qle_Rle. exact Hb0.
    + replace 8%R with (Q2R 8) by (unfold Q2R; simpl; lra).
      apply Qle_Rle. exact Hb8.
Qed.

(** A negative base of at most 1024 in size to a fractional power between
    0 and 8 is a complex number. *)
Lemma pow_moderate_complex (a b : Q) :
  negb (Qle_bool 0 a) && Qle_bool (-1024) a && Qle_bool 0 b && Qle_bool b 8
    && negb (is_integer b) = true ->
  pow a b = Ok Complex.
Proof.
  intros H.
  apply andb_true_iff in H as [H Hfrac].
  apply andb_true_iff in H as [H Hb8].
  apply andb_true_iff in H as [H Hb0].
  apply andb_true_iff in H as [Ha0 Ha].
  apply negb_true_iff in Hfrac.
  assert (Hneg : a < 0).
  { apply Qnot_le_lt. intros Hle. apply Qle_bool_iff in Hle.
    rewrite Hle in Ha0. discriminate. }
  apply Qle_bool_iff in Ha, Hb0, Hb8.
  unfold pow. rewrite (proj1 (Qlt_alt _ _) Hneg), Hfrac.
  destruct (Rlt_dec max_float (Rpower (Q2R (- a)) (Q2R b))) as [Hover|_];
    [|reflexivity].
  exfalso. apply (Rlt_not_le _ _ Hover).
  apply Qlt_Rlt in Hneg. apply Qle_Rle in Ha, Hb0, Hb8.
  rewrite Q2R_opp.
  replace (Q2R 0) with 0%R in * by (unfold Q2R; simpl; lra).
  replace (Q2R (-1024)) with (-1024)%R in Ha by (unfold Q2R; simpl; lra).
  replace (Q2R 8) with 8%R in Hb8 by (unfold Q2R; simpl; lra).
  apply Rpower_moderate; lra.
Qed.

Lemma pow_zero (b : Q) : 0 < b -> pow 0 b = Ok (Float 0).
Proof.
  intros H. unfold pow. simpl (0 ?= 0). cbv iota.
  apply Qgt_alt in H. rewrite H. reflexivity.
Qed.

Lemma Q2R_pos_neq (x : Q) : 0 < x -> ~ x == 0.
Proof. intros H E. rewrite E in H. exact (Qlt_irrefl _ H). Qed.

Lemma growth_quotient (s e y : Q) :
  0 < s -> 0 < y ->
  Rpower (Q2R (e / s)) (Q2R (1 / y)) = Spec.growth s e y.
Proof.
  intros Hs Hy. unfold Spec.growth.
  rewrite (Q2R_div e s (Q2R_pos_neq Hs)), (Q2R_div 1 y (Q2R_pos_neq Hy)).
  replace (Q2R 1) with 1%R by (unfold Q2R; simpl; lra).
  reflexivity.
Qed.

Lemma quotient_pos (s e : Q) : 0 < s -> 0 < e -> 0 < e / s.
Proof.
  intros Hs He.
  apply Qlt_shift_div_l; [exact Hs|]. rewrite Qmult_0_l. exact He.
Qed.

Lemma growth_pos (s e y : Q) : (0 < Spec.growth s e y)%R.
Proof. unfold Spec.growth, Rpower. apply exp_pos. Qed.

Lemma cagr_growth (s e y : Q) :
  Spec.cagr s e y = ((Spec.growth s e y - 1) * 100)%R.
Proof. reflexivity. Qed.

(** A rate within the floats has its power within them. *)
Lemma in_range_growth (s e y : Q) :
  Spec.in_range s e y -> (Spec.growth s e y <= max_float)%R.
Proof.
  intros [_ [_ H]]. rewrite cagr_growth in H.
  pose proof max_float_large as L.
  assert (H80 : (2 <= IZR (2 ^ 100))%R) by (apply IZR_le; discriminate).
  lra.
Qed.

(** Prices whose quotient lies between 1/1024 and 1024, over an eighth of a
    year or more, are within the floats; the bounds are decided on
    concrete numbers. *)
Lemma in_range_moderate (s e y : Q) :
  gt0 s && gt0 e && Qle_bool (e / s) 1024 && Qle_bool (1 # 1024) (e / s)
    && Qle_bool (1 # 8) y = true ->
  Spec.in_range s e y.
Proof.
  intros H.
  apply andb_true_iff in H as [H Hy].
  apply andb_true_iff in H as [H Hlo].
  apply andb_true_iff in H as [H Hhi].
  apply andb_true_iff in H as [Hs He].
  apply gt0_true in Hs, He. apply Qle_bool_iff in Hy, Hlo, Hhi.
  assert (Hy0 : 0 < y) by (apply Qlt_le_trans with (1 # 8); [reflexivity|exact Hy]).
  apply Qle_Rle in Hy, Hlo, Hhi.
  rewrite (Q2R_div e s (Q2R_pos_neq Hs)) in Hlo, Hhi.
  replace (Q2R 1024) with 1024%R in Hhi by (unfold Q2R; simpl; lra).
  replace (Q2R (1 # 1024)) with (/ 1024)%R in Hlo by (unfold Q2R; simpl; lra).
  replace (Q2R (1 # 8)) with (/ 8)%R in Hy by (unfold Q2R; simpl; lra).
  pose proof max_float_large as L. pose proof min_float_small as M.
  assert (H100 : (IZR (2 ^ 80) * 100 <= IZR (2 ^ 100))%R).
  { rewrite <- mult_IZR. apply IZR_le. apply Z.leb_le. vm_compute.
    reflexivity. }
  assert (H80 : (1024 <= IZR (2 ^ 80))%R) by (apply IZR_le; discriminate).
  assert (Hexpo : (0 < 1 / Q2R y <= 8)%R).
  { split.
    - apply Rdiv_lt_0_compat; lra.
    - apply (Rmult_le_reg_r (Q2R y)); [lra|].
      unfold Rdiv. rewrite Rmult_assoc, Rinv_l by lra. lra. }
  assert (Hg : (Spec.growth s e y <= IZR (2 ^ 80))%R).
  { unfold Spec.growth. apply Rpower_bounded; lra. }
  unfold Spec.in_range. rewrite cagr_growth.
  repeat split; lra.
Qed.

(** The chain of operations every site evaluates, on positive arguments:
    within the floats, and beyond them. *)
Lemma cagr_chain {B : Type} (s e y : Q) (k : num -> result B) :
  0 < s -> 0 < e -> 0 < y -> (Spec.growth s e y <= max_float)%R ->
  (ratio <- div e s ;; expo <- div 1 y ;; p <- pow ratio expo ;; k p)
  = k (Float (Rpower (Q2R e / Q2R s) (1 / Q2R y))).
Proof.
  intros Hs He Hy Hfit.
  rewrite (div_ok e (Q2R_pos_neq Hs)). cbn [bind].
  rewrite (div_ok 1 (Q2R_pos_neq Hy)). cbn [bind].
  rewrite <- (growth_quotient e Hs Hy) in Hfit.
  rewrite (pow_positive _ (quotient_pos Hs He) Hfit). cbn [bind].
  rewrite (growth_quotient e Hs Hy). reflexivity.
Qed.

Lemma cagr_chain_overflow {B : Type} (s e y : Q) (k : num -> result B) :
  0 < s -> 0 < e -> 0 < y -> (max_float < Spec.growth s e y)%R ->
  (ratio <- div e s ;; expo <- div 1 y ;; p <- pow ratio expo ;; k p)
  = Raise OverflowError.
Proof.
  intros Hs He Hy Hover.
  rewrite (div_ok e (Q2R_pos_neq Hs)). cbn [bind].
  rewrite (div_ok 1 (Q2R_pos_neq Hy)). cbn [bind].
  rewrite <- (growth_quotient e Hs Hy) in Hover.
  rewrite (pow_overflow _ (quotient_pos Hs He) Hover). reflexivity.
Qed.

(** One of the two. *)
Lemma cagr_chain_cases {B : Type} (s e y : Q) (k : num -> result B) :
  0 < s -> 0 < e -> 0 < y ->
  (ratio <- div e s ;; expo <- div 1 y ;; p <- pow ratio expo ;; k p)
  = k (Float (Rpower (Q2R e / Q2R s) (1 / Q2R y)))
  \/ (ratio <- div e s ;; expo <- div 1 y ;; p <- pow ratio expo ;; k p)
     = Raise OverflowError.
Proof.
  intros Hs He Hy.
  destruct (Rlt_dec max_float (Spec.growth s e y)) as [Hover | Hfit].
  - right. apply cagr_chain_overflow; assumption.
  - left. apply cagr_chain; try assumption. lra.
Qed.

Lemma cagr_expression (s e y : Q) :
  0 < s -> 0 < e -> 0 < y -> (Spec.growth s e y <= max_float)%R ->
  (ratio <- div e s ;; expo <- div 1 y ;; p <- pow ratio expo ;;
   Ok (times100 (sub1 p))) = Ok (Float (Spec.cagr s e y)).
Proof.
  intros Hs He Hy Hfit. rewrite (cagr_chain _ Hs He Hy Hfit). reflexivity.
Qed.

End PyFacts.

(** ** The calculators *)

Section Calculators.
Import Py.
Open Scope R_scope.

(** [2 ** (1/5)] lies between 1.14865 and 1.14875. *)
Lemma fifth_root_two : 114865 / 100000 < Rpower 2 (1 / 5) < 114875 / 100000.
Proof.
  set (r := Rpower 2 (1 / 5)).
  assert (Hpos : 0 < r) by (unfold r, Rpower; apply exp_pos).
  assert (H5 : r ^ 5 = 2).
  { unfold r. rewrite <- Rpower_pow by (unfold Rpower; apply exp_pos).
    rewrite Rpower_mult.
    replace (1 / 5 * INR 5) with 1 by (simpl; lra).
    apply Rpower_1; lra. }
  split.
  - apply Rnot_le_lt; intros Hle.
    assert (Hb : r ^ 5 <= (114865 / 100000) ^ 5)
      by (apply pow_incr; lra).
    rewrite H5 in Hb. lra.
  - apply Rnot_le_lt; intros Hle.
    assert (Hb : (114875 / 100000) ^ 5 <= r ^ 5)
      by (apply pow_incr; lra).
    rewrite H5 in Hb. lra.
Qed.

Lemma cagr_100_200_5 :
  Spec.cagr 100 200 5 = 100 * (Rpower 2 (1 / 5) - 1)
  /\ 14865 / 1000 < Spec.cagr 100 200 5 < 14875 / 1000.
Proof.
  assert (E : Spec.cagr 100 200 5 = 100 * (Rpower 2 (1 / 5) - 1)).
  { unfold Spec.cagr.
    replace (Q2R 200 / Q2R 100) with 2 by (unfold Q2R; simpl; lra).
    replace (Q2R 5) with 5 by (unfold Q2R; simpl; lra).
    ring. }
  split; [exact E|].
  rewrite E. pose proof fifth_root_two. lra.
Qed.

Lemma guards_pass (s e y : Q) :
  (0 < s)%Q -> (0 < e)%Q -> (0 < y)%Q -> le0 s || le0 e || le0 y = false.
Proof.
  intros Hs He Hy.
  rewrite (proj2 (le0_false s) Hs), (proj2 (le0_false e) He),
    (proj2 (le0_false y) Hy). reflexivity.
Qed.

Lemma excel_cagr_positive (s e y : Q) :
  (0 < s)%Q -> (0 < e)%Q -> (0 < y)%Q -> Spec.growth s e y <= max_float ->
  Excel.calculate_cagr s e y = Some (Float (Spec.cagr s e y)).
Proof.
  intros Hs He Hy Hfit. unfold Excel.calculate_cagr.
  rewrite (guards_pass Hs He Hy).
  rewrite (cagr_expression Hs He Hy Hfit). reflexivity.
Qed.

Lemma excel_cagr_overflow (s e y : Q) :
  (0 < s)%Q -> (0 < e)%Q -> (0 < y)%Q -> max_float < Spec.growth s e y ->
  Excel.calculate_cagr s e y = None.
Proof.
  intros Hs He Hy Hover. unfold Excel.calculate_cagr.
  rewrite (guards_pass Hs He Hy).
  rewrite (cagr_chain_overflow _ Hs He Hy Hover). reflexivity.
Qed.

Lemma nse_cagr_positive (s e y : Q) :
  (0 < s)%Q -> (0 < e)%Q -> (0 < y)%Q -> Spec.growth s e y <= max_float ->
  NSE.calculate_nse_cagr s e y = Some (Float (Spec.cagr s e y)).
Proof.
  intros Hs He Hy Hfit. unfold NSE.calculate_nse_cagr.
  rewrite (guards_pass Hs He Hy).
  rewrite (cagr_expression Hs He Hy Hfit). reflexivity.
Qed.

Lemma nse_cagr_overflow (s e y : Q) :
  (0 < s)%Q -> (0 < e)%Q -> (0 < y)%Q -> max_float < Spec.growth s e y ->
  NSE.calculate_nse_cagr s e y = None.
Proof.
  intros Hs He Hy Hover. unfold NSE.calculate_nse_cagr.
  rewrite (guards_pass Hs He Hy).
  rewrite (cagr_chain_overflow _ Hs He Hy Hover). reflexivity.
Qed.

Lemma mf_cagr_positive (s e y : Q) :
  (0 < s)%Q -> (0 < e)%Q -> (0 < y)%Q -> Spec.growth s e y <= max_float ->
  MF.calculate_cagr s e y = Ok (Float (Spec.cagr s e y)).
Proof.
  intros Hs He Hy Hfit. unfold MF.calculate_cagr.
  rewrite (guards_pass Hs He Hy).
  apply (cagr_expression Hs He Hy Hfit).
Qed.

(** The rate of [(100, 200, 5)] is within the floats, and the power of
    [(1, 10, 1/1000)], which is [10 ** 1000], is beyond them. *)
Lemma in_range_100_200_5 : Spec.in_range 100 200 5.
Proof.
  apply in_range_moderate. reflexivity.
Qed.

Lemma overflows_1_10_1000 : Spec.overflows 1 10 (1 # 1000).
Proof.
  pose proof max_float_large as L.
  assert (H80 : 1000 <= IZR (2 ^ 100)) by (apply IZR_le; discriminate).
  split; [|split].
  - replace (Q2R 10 / Q2R 1) with 10 by (unfold Q2R; simpl; lra). lra.
  - replace (1 / Q2R (1 # 1000)) with 1000 by (unfold Q2R; simpl; lra). lra.
  - unfold Spec.growth.
    replace (Q2R 10 / Q2R 1) with 10 by (unfold Q2R; simpl; lra).
    replace (1 / Q2R (1 # 1000)) with (INR 1000).
    2:{ rewrite INR_IZR_INZ. unfold Q2R; simpl. lra. }
    rewrite Rpower_pow by lra.
    rewrite pow_IZR. unfold max_float.
    apply IZR_lt. apply Z.ltb_lt. vm_compute. reflexivity.
Qed.

Lemma growth_1_10_1000 : max_float < Spec.growth 1 10 (1 # 1000).
Proof. exact (proj2 (proj2 overflows_1_10_1000)). Qed.

Lemma guard_fires (s e y : Q) :
  (s <= 0)%Q \/ (e <= 0)%Q \/ (y <= 0)%Q ->
  le0 s || le0 e || le0 y = true.
Proof.
  intros [H | [H | H]]; apply le0_true in H; rewrite H;
    rewrite ?orb_true_r; reflexivity.
Qed.




(** C2 fails as stated: on an end price of zero the mutual-fund calculator
    returns the number [0.0]. *)
Lemma calculate_cagr_absent_counterexample :
  (0 <= 0)%Q /\ MF.calculate_cagr 100 0 5 = Ok (Float 0).
Proof. split; [apply Qle_refl | reflexivity]. Qed.

(** C2, amended.  When the start price, the end price or the years are not
    positive, the calculators of [index_cagr_analysis_excel.py] and
    [nse_index_st.py] return [None] and the one of [mf_st.py] returns the
    number [0.0]; the one of [fetch_nifty_data.py] returns [None] when the
    start value or the elapsed time is not positive. *)
Theorem calculate_cagr_guard (start_price end_price years : Q)
    (start_date end_date : Z)
    (Hbad : (start_price <= 0)%Q \/ (end_price <= 0)%Q \/ (years <= 0)%Q) :
  Excel.calculate_cagr start_price end_price years = None
  /\ NSE.calculate_nse_cagr start_price end_price years = None
  /\ MF.calculate_cagr start_price end_price years = Ok (Float 0)
  /\ ((start_price <= 0)%Q \/ (end_date <= start_date)%Z ->
      Yahoo.calculate_cagr start_price end_price start_date end_date
        = Ok None).
Proof.
  pose proof (guard_fires Hbad) as G.
  unfold Excel.calculate_cagr, NSE.calculate_nse_cagr, MF.calculate_cagr.
  rewrite G. repeat split.
  intros H. unfold Yahoo.calculate_cagr. cbv zeta.
  match goal with
  | |- context [le0 ?a || le0 start_price] =>
      assert (G' : le0 a || le0 start_price = true)
  end.
  { destruct H as [H | H].
    - apply le0_true in H. rewrite H. apply orb_true_r.
    - apply orb_true_iff. left. apply le0_true.
      unfold Qle, Qdiv, Qmult, Qinv, inject_Z. simpl. nia. }
  rewrite G'. reflexivity.
Qed.

Lemma calculate_cagr_guard_witness :
  Excel.calculate_cagr 100 0 5 = None
  /\ NSE.calculate_nse_cagr 100 0 5 = None
  /\ MF.calculate_cagr 100 0 5 = Ok (Float 0)
  /\ Excel.calculate_cagr 100 100 0 = None
  /\ Yahoo.calculate_cagr 100 0 7 7 = Ok None.
Proof.
  assert (H1 : (100 <= 0)%Q \/ (0 <= 0)%Q \/ (5 <= 0)%Q)
    by (right; left; apply Qle_refl).
  assert (H2 : (100 <= 0)%Q \/ (100 <= 0)%Q \/ (0 <= 0)%Q)
    by (right; right; apply Qle_refl).
  destruct (calculate_cagr_guard 7 7 H1) as [A [B [C E]]].
  destruct (calculate_cagr_guard 0 0 H2) as [D _].
  split; [exact A|]. split; [exact B|]. split; [exact C|].
  split; [exact D|]. apply E. right. apply Z.le_refl.
Defined.

End Calculators.

(** The power an iteration is about to take is within the floats or beyond
    them: [chain_cases] rewrites the chain of operations in the goal both
    ways. *)
Ltac chain_cases P1 P2 P3 Hfit :=
  match goal with
  | |- context [Py.bind (Py.div ?e ?s) _] =>
      match goal with
      | |- context [Py.div 1 ?y] =>
          destruct (Rlt_dec Py.max_float (Spec.growth s e y)) as [Hfit | Hfit];
          [ rewrite (cagr_chain_overflow _ P1 P2 P3 Hfit)
          | apply Rnot_lt_le in Hfit; rewrite (cagr_chain _ P1 P2 P3 Hfit) ]
      end
  end.

(** Evaluation of a run on concrete numbers: the left-hand side is
    computed from the head down to the next power, which [pow_moderate]
    and [pow_moderate_complex] check to be within the floats, and then as a
    whole, the operations on real numbers apart. *)
Ltac py_head :=
  match goal with
  | |- ?l = _ =>
      let l' :=
        eval lazy head beta iota zeta delta
          -[Py.pow Py.round2 Py.max_float Rpower Q2R IZR INR Rplus Rminus
            Rmult Rdiv Rinv Ropp sqrt Rsqr Rmin Rmax Rabs Rlt_dec Rle_dec
            Rpow_def.pow exp ln] in l in
      change l with l'
  end.

Ltac py_compute :=
  cbv -[Py.pow Py.round2 Py.max_float Rpower Q2R IZR INR Rplus Rminus Rmult
        Rdiv Rinv Ropp sqrt Rsqr Rmin Rmax Rabs Rlt_dec Rle_dec Rpow_def.pow
        exp ln].

Ltac py_pow :=
  first [ rewrite pow_moderate by reflexivity
        | rewrite pow_moderate_complex by reflexivity ].

Ltac py_run :=
  py_head; repeat (py_pow; py_head); py_compute; repeat (py_pow; py_compute).

(** ** Rounding *)

Section Rounding.
Import Py.
Open Scope R_scope.

(** The rounded integer is within one half of the number. *)
Lemma round_half_even_near (y : R) :
  IZR (round_half_even y) - 1 / 2 <= y <= IZR (round_half_even y) + 1 / 2.
Proof.
  unfold round_half_even. cbv zeta.
  destruct (base_Int_part y) as [Hlo Hhi].
  destruct (Rlt_dec (y - IZR (Int_part y)) (1 / 2)) as [H1|H1]; [lra|].
  destruct (Rlt_dec (1 / 2) (y - IZR (Int_part y))) as [H2|H2].
  - rewrite plus_IZR. lra.
  - destruct (Z.even (Int_part y)); [lra|]. rewrite plus_IZR. lra.
Qed.

(** An integer strictly within one half of the number is the rounded one. *)
Lemma round_half_even_unique (y : R) (k : Z) :
  IZR k - 1 / 2 < y < IZR k + 1 / 2 -> round_half_even y = k.
Proof.
  intros [Hlo Hhi]. destruct (round_half_even_near y) as [Nlo Nhi].
  assert (H1 : (round_half_even y < k + 1)%Z).
  { apply lt_IZR. rewrite plus_IZR. lra. }
  assert (H2 : (k < round_half_even y + 1)%Z).
  { apply lt_IZR. rewrite plus_IZR. lra. }
  lia.
Qed.

Lemma round2_near (x : R) : x - 1 / 200 <= round2 x <= x + 1 / 200.
Proof.
  unfold round2. destruct (round_half_even_near (x * 100)) as [Hlo Hhi]. lra.
Qed.

Lemma round2_small (x : R) : - (1 / 200) < x < 1 / 200 -> round2 x = 0.
Proof.
  intros H. unfold round2.
  rewrite (@round_half_even_unique (x * 100) 0); lra.
Qed.

Lemma round2_nonneg (x : R) : 0 <= x -> 0 <= round2 x.
Proof.
  intros H. unfold round2.
  destruct (round_half_even_near (x * 100)) as [_ Hhi].
  assert (Hz : (-1 < round_half_even (x * 100))%Z).
  { apply lt_IZR. lra. }
  assert (0 <= IZR (round_half_even (x * 100))) by (apply IZR_le; lia).
  lra.
Qed.

Lemma round2_nonpos (x : R) : x <= 0 -> round2 x <= 0.
Proof.
  intros H. unfold round2.
  destruct (round_half_even_near (x * 100)) as [Hlo _].
  assert (Hz : (round_half_even (x * 100) < 1)%Z).
  { apply lt_IZR. lra. }
  assert (IZR (round_half_even (x * 100)) <= 0) by (apply IZR_le; lia).
  lra.
Qed.

End Rounding.

(** ** The Yahoo loop *)

Section YahooLoop.
Import Py Frame Yahoo Props.

Variable hist_data : list Bar.
Variable window_years stride_days end_dt : Z.

Local Abbreviation step := (Yahoo.step hist_data window_years stride_days end_dt).
Local Abbreviation loop := (Yahoo.loop hist_data window_years stride_days end_dt).

Lemma last_row_In {A : Type} (l : list A) (x : A) :
  last_row l = Some x -> In x l.
Proof.
  induction l as [|a l IH]; simpl; [discriminate|].
  destruct l as [|b l].
  - intros H; inversion H; now left.
  - intros H. right. apply IH. exact H.
Qed.

(** An iteration leaves the windows alone or appends one that went through
    the checks. *)
Lemma step_windows (st : Loop) (c : control) :
  step st = Ok c ->
  windows (yahoo_state c) = windows st
  \/ exists w, windows (yahoo_state c) = windows st ++ [w]
               /\ yahoo_emitted hist_data window_years w.
Proof.
  unfold Yahoo.step. cbv zeta.
  destruct (ltb _ _); [intros H; inversion H; now left|].
  destruct (ltb _ _); [intros H; inversion H; now left|].
  destruct (last_row (start_prices _ _)) as [first_bar|] eqn:Es;
    [|intros H; inversion H; now left].
  destruct (last_row (end_prices _ _)) as [last_bar|] eqn:Ee;
    [|intros H; inversion H; now left].
  destruct (ltb _ _) eqn:Egate; [intros H; inversion H; now left|].
  destruct (gt0 _ && gt0 _) eqn:Eguard.
  - destruct (calculate_cagr _ _ _ _) as [c0|e] eqn:Ec; cbn [bind];
      [|discriminate].
    destruct (round_cagr c0) as [rc|e] eqn:Er; cbn [bind]; [|discriminate].
    cbn [current_start windows window_num].
    intros H. right.
    eexists. split.
    + destruct (geb _ _); inversion H; reflexivity.
    + apply andb_true_iff in Eguard. destruct Eguard as [G1 G2].
      exists first_bar, last_bar, c0. cbn [start_date end_date cagr].
      apply last_row_In in Es, Ee.
      unfold start_prices, end_prices in Es, Ee.
      apply filter_In in Es, Ee.
      repeat split; try tauto; assumption.
  - cbn [bind]. intros H. left.
    destruct (geb _ _); inversion H; reflexivity.
Qed.

Lemma loop_emitted (fuel : nat) :
  forall (st : Loop) (ws : list Window),
    loop fuel st = Some (Ok ws) ->
    Forall (yahoo_emitted hist_data window_years) (windows st) ->
    Forall (yahoo_emitted hist_data window_years) ws.
Proof.
  induction fuel as [|fuel IH]; intros st ws; simpl; [discriminate|].
  destruct (step st) as [c|e] eqn:Estep; [|discriminate].
  pose proof Estep as Hw; apply step_windows in Hw.
  intros H Hinv.
  assert (Hinv' : Forall (yahoo_emitted hist_data window_years)
                         (windows (yahoo_state c))).
  { destruct Hw as [-> | [w [-> Hem]]]; [assumption|].
    apply Forall_app. split; [assumption|]. constructor; [assumption|constructor]. }
  destruct c as [st'|st']; simpl in Hinv'.
  - inversion H; subst. assumption.
  - apply (IH st' ws H Hinv').
Qed.

End YahooLoop.

Section Deviations.

Lemma two_pass_std (l : list R) :
  sqrt (Stats.sum (map (fun x => (x - Stats.sum l / INR (length l)) ^ 2) l)
        / INR (length l))%R
  = Spec.population_std l.
Proof.
  unfold Spec.population_std. cbv zeta. do 3 f_equal.
  apply map_ext. intros x. ring.
Qed.

Lemma np_std_population (l : list R) : Stats.np_std l = Spec.population_std l.
Proof.
  unfold Stats.np_std, Spec.population_std, Stats.mean. cbv zeta.
  rewrite length_map. reflexivity.
Qed.

Lemma pd_std_sample (x y : R) (l : list R) :
  Stats.pd_std (x :: y :: l) = Some (Spec.sample_std (x :: y :: l)).
Proof. reflexivity. Qed.

End Deviations.

Section YahooReport.
Import Py Frame Yahoo Props.

Lemma summarise_done (window_years : Z) (start_date : option Py.date_text)
    (stride_days : Z) (ws : list Window) (r : Report) :
  summarise window_years start_date stride_days ws = Done r ->
  rep_windows r = ws
  /\ total_windows r = length ws
  /\ avg_cagr r = round2 (Stats.mean (Stats.present (map cagr ws)))
  /\ std_cagr r = round2 (Spec.population_std (Stats.present (map cagr ws)))
  /\ Stats.present (map cagr ws) <> [].
Proof.
  unfold summarise. destruct ws as [|w ws]; [discriminate|].
  destruct (Stats.present (map cagr (w :: ws))) as [|c cs] eqn:E;
    [discriminate|].
  intros H. injection H as Hr. subst r.
  repeat split; try reflexivity.
  - rewrite <- two_pass_std. reflexivity.
  - discriminate.
Qed.

Lemma rolling_done (fuel : nat) (hist_data : list Bar) (window_years : Z)
    (start_date : option Py.date_text) (stride_days : Z) (r : Report) :
  calculate_rolling_cagr fuel hist_data window_years start_date stride_days
    = Some (Done r) ->
  Forall (yahoo_emitted hist_data window_years) (rep_windows r)
  /\ summarise window_years start_date stride_days (rep_windows r) = Done r.
Proof.
  unfold calculate_rolling_cagr.
  destruct hist_data as [|first_bar rest]; [discriminate|].
  destruct (starting_date _ _ _) as [start_dt|e0]; [|discriminate].
  destruct (loop _ _ _ _ _ _) as [[ws|e]|] eqn:El; try discriminate.
  intros H. injection H as Hs.
  pose proof (summarise_done _ _ _ _ Hs) as [Hw _]. rewrite Hw.
  split; [|assumption].
  eapply loop_emitted; [exact El|]. constructor.
Qed.

End YahooReport.

(** ** The mutual-fund loop *)

Section MFLoop.
Import Py Frame MF Props.

Lemma iloc_nat {A : Type} (l : list A) (k : nat) (x : A) :
  iloc l (Z.of_nat k) = Ok x <-> nth_error l k = Some x.
Proof.
  unfold iloc.
  destruct (Z.of_nat k <? 0)%Z eqn:E; [apply Z.ltb_lt in E; lia|].
  rewrite E, Nat2Z.id.
  destruct (nth_error l k); split; congruence.
Qed.

Lemma find_end_idx_some (t : Q) (rows : list Point) :
  forall j k, find_end_idx t j rows = Some k ->
    (j <= k)%nat
    /\ (exists r, nth_error rows (k - j) = Some r
                  /\ geb (inject_Z (date r)) t = true)
    /\ (forall m r', (m < k - j)%nat -> nth_error rows m = Some r' ->
          geb (inject_Z (date r')) t = false).
Proof.
  induction rows as [|r rows IH]; intros j k; simpl; [discriminate|].
  destruct (geb (inject_Z (date r)) t) eqn:E.
  - intros H; inversion H; subst k. rewrite Nat.sub_diag.
    split; [lia|]. split; [exists r; split; [reflexivity|assumption]|].
    intros m r' Hm; lia.
  - intros H. apply IH in H. destruct H as [Hle [[r0 [Hn Hg]] Hbefore]].
    split; [lia|]. split.
    + exists r0. replace (k - j)%nat with (S (k - S j)) by lia. simpl. tauto.
    + intros m r' Hm Hnth. destruct m as [|m]; simpl in Hnth.
      * inversion Hnth; subst; assumption.
      * apply (Hbefore m r'); [lia|assumption].
Qed.

Lemma find_end_idx_none (t : Q) (rows : list Point) :
  forall j, find_end_idx t j rows = None ->
    Forall (fun r => geb (inject_Z (date r)) t = false) rows.
Proof.
  induction rows as [|r rows IH]; intros j; simpl; [constructor|].
  destruct (geb (inject_Z (date r)) t) eqn:E; [discriminate|].
  intros H. constructor; [assumption|]. apply (IH (S j)). assumption.
Qed.

Lemma nth_error_skipn {A : Type} (n m : nat) (l : list A) :
  nth_error (skipn n l) m = nth_error l (n + m).
Proof.
  revert l. induction n as [|n IH]; intros l; simpl; [reflexivity|].
  destruct l as [|a l]; [destruct m; reflexivity|]. apply IH.
Qed.

Variable df : list Point.
Variable window_years : Z.

Local Abbreviation body := (MF.body df window_years).
Local Abbreviation run := (MF.run df window_years).

Lemma body_invariant (i : nat) (acc : Acc) (c : control) :
  body i acc = Ok c -> mf_invariant df window_years acc -> mf_invariant df window_years (mf_state c).
Proof.
  unfold MF.body. cbv zeta.
  destruct (iloc df (Z.of_nat i)) as [first_row|e] eqn:Ei; cbn [bind];
    [|discriminate].
  destruct (find_end_idx _ _ _) as [end_idx|] eqn:Ef;
    [|intros H; inversion H; trivial].
  destruct (iloc df (Z.of_nat end_idx)) as [last_row|e] eqn:Ej; cbn [bind];
    [|discriminate].
  destruct (gt0 (nav first_row) && gt0 (nav last_row) && gt0 _) eqn:Eg;
    [|intros H; inversion H; trivial].
  apply andb_true_iff in Eg. destruct Eg as [Eg G3].
  apply andb_true_iff in Eg. destruct Eg as [G1 G2].
  pose proof (proj1 (gt0_true _) G1) as P1.
  pose proof (proj1 (gt0_true _) G2) as P2.
  pose proof (proj1 (gt0_true _) G3) as P3.
  chain_cases P1 P2 P3 Hfit; [discriminate|]. cbn [sub1 times100].
  intros H Hinv. inversion H; subst c. unfold mf_invariant. cbn.
  apply Forall2_app; [exact Hinv|]. constructor; [|constructor].
  apply iloc_nat in Ei, Ej.
  apply find_end_idx_some in Ef. destruct Ef as [Hle [[r [Hn Hg]] Hbefore]].
  rewrite nth_error_skipn in Hn.
  replace (S i + (end_idx - S i))%nat with end_idx in Hn by lia.
  assert (r = last_row) by congruence. subst r.
  exists i, end_idx, first_row, last_row. cbn.
  repeat split; try assumption; try lia.
  intros k row Hk Hrow.
  apply (Hbefore (k - S i)%nat row); [lia|].
  rewrite nth_error_skipn. replace (S i + (k - S i))%nat with k by lia.
  assumption.
Qed.

End MFLoop.

Section MFReport.
Import Py Frame MF Props.

Lemma run_invariant (df : list Point) (window_years : Z) (starts : list nat) :
  forall acc acc',
    run df window_years starts acc = Ok acc' ->
    mf_invariant df window_years acc -> mf_invariant df window_years acc'.
Proof.
  induction starts as [|i starts IH]; intros acc acc'; simpl.
  - intros H; inversion H; trivial.
  - destruct (body df window_years i acc) as [c|e] eqn:Eb; cbn [bind];
      [|discriminate].
    intros H Hinv.
    assert (Hinv' : mf_invariant df window_years (mf_state c))
      by (eapply body_invariant; eassumption).
    destruct c as [acc1|acc1]; simpl in Hinv'.
    + inversion H; subst; assumption.
    + apply (IH acc1 acc' H Hinv').
Qed.

(** The details of a report and the rates behind them. *)
Lemma rolling_details (data : list Point) (window_years : Z) :
  exists values,
    Forall2 (mf_emitted (sort_values date data) window_years) values
            (report_details (calculate_rolling_cagr data window_years))
    /\ (values = [] ->
        calculate_rolling_cagr data window_years = empty_report)
    /\ (values <> [] ->
        calculate_rolling_cagr data window_years
        = {| average_cagr := round2 (Stats.mean values);
             std_dev := option_map round2 (Stats.pd_std values);
             num_windows := length values;
             report_values := Some values;
             report_details :=
               report_details (calculate_rolling_cagr data window_years) |}).
Proof.
  unfold calculate_rolling_cagr.
  destruct (run _ _ _ _) as [acc|e] eqn:Er.
  - apply run_invariant in Er; [|constructor].
    destruct (cagr_values acc) as [|c cs] eqn:Ev.
    + exists []. split; [constructor|]. split; [reflexivity|congruence].
    + exists (c :: cs). cbn [report_details].
      split; [rewrite <- Ev; exact Er|]. split; [discriminate|reflexivity].
  - exists []. split; [constructor|]. split; [reflexivity|congruence].
Qed.

End MFReport.

Section Span.
Import Py Props.

(** Elapsed years without the division: one day is 4/1461 of a year. *)
Lemma elapsed_years_minus (a b : Z) :
  Spec.elapsed_years a b == (inject_Z b - inject_Z a) * (4 # 1461).
Proof.
  unfold Spec.elapsed_years. unfold Zminus.
  rewrite inject_Z_plus, inject_Z_opp. unfold Qdiv.
  apply Qmult_comp; reflexivity.
Qed.

Lemma yahoo_emitted_span (hist_data : list Yahoo.Bar) (window_years : Z)
    (w : Yahoo.Window) :
  yahoo_emitted hist_data window_years w ->
  0.9 * inject_Z window_years
    <= Spec.elapsed_years (Yahoo.start_date w) (Yahoo.end_date w)
  /\ 0 < Spec.elapsed_years (Yahoo.start_date w) (Yahoo.end_date w).
Proof.
  intros [fb [lb [c [_ [_ [Hs [He [Hgate [Hpos _]]]]]]]]].
  rewrite Hs, He. apply ltb_false in Hgate. apply gt0_true in Hpos.
  split; [|assumption]. rewrite Qmult_comm. exact Hgate.
Qed.

Lemma mf_emitted_span (df : list MF.Point) (window_years : Z) (c : R)
    (d : MF.Detail) :
  mf_emitted df window_years c d ->
  inject_Z window_years
    <= Spec.elapsed_years (MF.d_start_date d) (MF.d_end_date d)
  /\ 0.9 * inject_Z window_years
    <= Spec.elapsed_years (MF.d_start_date d) (MF.d_end_date d)
  /\ 0 < Spec.elapsed_years (MF.d_start_date d) (MF.d_end_date d).
Proof.
  intros [i [j [fr [lr [_ [_ [_ [Hs [He [Hge [_ [_ [_ [Hpos _]]]]]]]]]]]]]].
  rewrite Hs, He. apply geb_true in Hge. apply gt0_true in Hpos.
  unfold MF.window_days in Hge.
  rewrite elapsed_years_minus in *.
  set (x := inject_Z (MF.date lr)) in *. set (y := inject_Z (MF.date fr)) in *.
  set (wy := inject_Z window_years) in *.
  repeat split; lra.
Qed.

End Span.

(** ** The NSE loop *)

Section NSELoop.
Import Py Frame NSE Props.

Lemma iloc_In {A : Type} (l : list A) (i : Z) (x : A) :
  iloc l i = Ok x -> In x l.
Proof.
  unfold iloc. destruct (_ <? 0)%Z; [discriminate|].
  destruct (nth_error l _) eqn:E; [|discriminate].
  intros H; inversion H; subst. eapply nth_error_In; eassumption.
Qed.

Variable df : list Row.
Variable window_days stride_days : Z.

Lemma nse_step_windows (st : Loop) (c : control) :
  step df window_days stride_days st = Ok c ->
  windows (nse_state c) = windows st
  \/ exists w, windows (nse_state c) = windows st ++ [w]
               /\ nse_emitted df window_days w.
Proof.
  unfold NSE.step. cbv zeta.
  destruct (iloc df (start_idx st)) as [first_row|e] eqn:Ei; cbn [bind];
    [|discriminate].
  destruct (filter _ df) as [|candidate rest] eqn:Ef;
    [intros H; inversion H; now left|].
  destruct (iloc df (label candidate)) as [last_row|e] eqn:Ej; cbn [bind];
    [|discriminate].
  destruct (round_cagr _) as [rc|e] eqn:Er; cbn [bind]; [|discriminate].
  intros H; inversion H; subst c. right. eexists. split; [reflexivity|].
  exists first_row, candidate, rest, last_row. cbn.
  apply iloc_In in Ei. repeat split; try reflexivity; assumption.
Qed.

Lemma nse_loop_emitted (fuel : nat) :
  forall (st : Loop) (ws : list Window),
    loop df window_days stride_days fuel st = Some (Ok ws) ->
    Forall (nse_emitted df window_days) (windows st) ->
    Forall (nse_emitted df window_days) ws.
Proof.
  induction fuel as [|fuel IH]; intros st ws; simpl; [discriminate|].
  destruct (start_idx st <? _)%Z;
    [|intros H; inversion H; subst; trivial].
  destruct (step df window_days stride_days st) as [c|e] eqn:Estep;
    [|discriminate].
  pose proof Estep as Hw. apply nse_step_windows in Hw.
  intros H Hinv.
  assert (Hinv' : Forall (nse_emitted df window_days) (windows (nse_state c))).
  { destruct Hw as [-> | [w [-> Hem]]]; [assumption|].
    apply Forall_app. split; [assumption|].
    constructor; [assumption|constructor]. }
  destruct c as [st'|st']; simpl in Hinv'.
  - inversion H; subst. assumption.
  - apply (IH st' ws H Hinv').
Qed.

End NSELoop.

Section NSEReport.
Import Py Frame NSE Props.

Lemma nse_summarise_done (window_years : Z) (start_date : option Py.date_text)
    (ws : list Window) (r : Report) :
  summarise window_years start_date ws = Done r ->
  rep_windows r = ws
  /\ total_windows r = length ws
  /\ avg_cagr r = round2 (Stats.mean (Stats.present (map cagr ws)))
  /\ std_cagr r = round2 (Spec.population_std (Stats.present (map cagr ws)))
  /\ (exists c cs, Stats.present (map cagr ws) = c :: cs
                   /\ min_cagr r = round2 (Stats.min_list c cs)
                   /\ max_cagr r = round2 (Stats.max_list c cs)).
Proof.
  unfold summarise. destruct ws as [|w ws]; [discriminate|].
  destruct (Stats.present (map cagr (w :: ws))) as [|c cs] eqn:E;
    [discriminate|].
  intros H. injection H as Hr. subst r.
  repeat split; try reflexivity.
  - rewrite <- np_std_population. reflexivity.
  - exists c, cs. repeat split; reflexivity.
Qed.

Lemma nse_rolling_done (fuel : nat) (df : list Row) (window_years : Z)
    (start_date : option Py.date_text) (stride_days : Z) (r : Report) :
  calculate_nse_rolling_cagr fuel (Fetched df) window_years start_date
                             stride_days = Some (Done r) ->
  exists df',
    from_start df start_date = inr df'
    /\ Forall (nse_emitted df' (int_of (inject_Z window_years * 365.25)))
              (rep_windows r)
    /\ summarise window_years start_date (rep_windows r) = Done r.
Proof.
  unfold calculate_nse_rolling_cagr.
  destruct df as [|row0 df0]; [discriminate|].
  destruct (from_start (row0 :: df0) start_date) as [f|df'] eqn:Ef;
    [discriminate|].
  destruct (_ <? _)%Z; [discriminate|].
  destruct (loop _ _ _ _ _) as [[ws|e]|] eqn:El; try discriminate.
  intros H. injection H as Hs.
  pose proof (nse_summarise_done _ _ _ Hs) as [Hw _].
  exists df'. split; [reflexivity|]. rewrite Hw. split; [|assumption].
  eapply nse_loop_emitted; [exact El|]. constructor.
Qed.

Lemma reset_index_positional (df : list Row) : positional (reset_index df).
Proof.
  unfold positional, reset_index. intros k r H.
  rewrite nth_error_map in H.
  destruct (nth_error (combine _ _) k) as [[n row]|] eqn:E; [|discriminate].
  inversion H; subst r. cbn.
  assert (Hk : (k < length (combine (seq 0 (length df)) df))%nat)
    by (apply nth_error_Some; congruence).
  rewrite (nth_error_nth' _ (0%nat, row) Hk) in E.
  rewrite combine_nth in E by (apply length_seq).
  rewrite length_combine, length_seq, Nat.min_id in Hk.
  rewrite seq_nth in E by exact Hk.
  inversion E; subst. reflexivity.
Qed.

Lemma positional_iloc (df : list Row) (r : Row) :
  positional df -> In r df -> iloc df (label r) = Ok r.
Proof.
  intros Hp Hin. apply In_nth_error in Hin. destruct Hin as [k Hk].
  rewrite (Hp k r Hk). apply iloc_nat. exact Hk.
Qed.

End NSEReport.

Section EmittedSpan.
Import Py.

(** C3.  Every window the Yahoo analysis reports, and every window the
    mutual-fund analysis reports, spans at least 90% of the requested years
    and more than zero years, the span being counted from the dates the
    window carries: no candidate below 90% reaches the list of windows. *)
Theorem emitted_windows_span :
  (forall (fuel : nat) (hist_data : list Yahoo.Bar) (window_years : Z)
          (start_date : option Py.date_text)
          (stride_days : Z) (r : Yahoo.Report),
      Yahoo.calculate_rolling_cagr fuel hist_data window_years start_date
                                   stride_days = Some (Yahoo.Done r) ->
      Forall (fun w =>
                0.9 * inject_Z window_years
                  <= Spec.elapsed_years (Yahoo.start_date w) (Yahoo.end_date w)
                /\ 0 < Spec.elapsed_years (Yahoo.start_date w)
                                          (Yahoo.end_date w))
             (Yahoo.rep_windows r))
  /\ (forall (data : list MF.Point) (window_years : Z),
         Forall (fun d =>
                   0.9 * inject_Z window_years
                     <= Spec.elapsed_years (MF.d_start_date d) (MF.d_end_date d)
                   /\ 0 < Spec.elapsed_years (MF.d_start_date d)
                                             (MF.d_end_date d))
                (MF.report_details
                   (MF.calculate_rolling_cagr data window_years))).
Proof.
  split.
  - intros fuel hist_data window_years start_date stride_days r H.
    apply rolling_done in H. destruct H as [H _].
    eapply Forall_impl; [|exact H].
    intros w Hw. eapply yahoo_emitted_span; eassumption.
  - intros data window_years.
    destruct (rolling_details data window_years) as [values [H _]].
    induction H as [|c d cs ds Hcd _ IH]; constructor; [|exact IH].
    apply mf_emitted_span in Hcd. tauto.
Qed.

Lemma emitted_windows_span_witness :
  exists r,
    Yahoo.calculate_rolling_cagr 5 Examples.short_history 1 None 30
    = Some (Yahoo.Done r)
    /\ Forall (fun w =>
                 0.9 * inject_Z 1
                   <= Spec.elapsed_years (Yahoo.start_date w) (Yahoo.end_date w)
                 /\ 0 < Spec.elapsed_years (Yahoo.start_date w)
                                           (Yahoo.end_date w))
              (Yahoo.rep_windows r).
Proof.
  eexists. split.
  - py_run. reflexivity.
  - apply (proj1 emitted_windows_span 5%nat Examples.short_history 1%Z None
                 30%Z).
    py_run. reflexivity.
Defined.

End EmittedSpan.

(** ** The stride *)

Section Stride.
Import Py Frame.

Lemma yahoo_step_next (hist_data : list Yahoo.Bar)
    (window_years stride_days end_dt : Z) (st st' : Yahoo.Loop) :
  Yahoo.step hist_data window_years stride_days end_dt st = Ok (Yahoo.Next st') ->
  Yahoo.current_start st' = (Yahoo.current_start st + stride_days)%Z.
Proof.
  unfold Yahoo.step. cbv zeta.
  destruct (ltb _ _); [discriminate|].
  destruct (ltb _ _); [discriminate|].
  destruct (last_row (Yahoo.start_prices _ _));
    [|intros H; inversion H; reflexivity].
  destruct (last_row (Yahoo.end_prices _ _));
    [|intros H; inversion H; reflexivity].
  destruct (ltb _ _); [discriminate|].
  destruct (gt0 _ && gt0 _).
  - destruct (Yahoo.calculate_cagr _ _ _ _) as [c0|e]; cbn [bind];
      [|discriminate].
    destruct (Yahoo.round_cagr c0) as [rc|e]; cbn [bind]; [|discriminate].
    cbn [Yahoo.current_start Yahoo.windows Yahoo.window_num].
    destruct (geb _ _); [discriminate|].
    intros H; inversion H; reflexivity.
  - cbn [bind]. destruct (geb _ _); [discriminate|].
    intros H; inversion H; reflexivity.
Qed.

Lemma nse_step_next (df : list NSE.Row) (window_days stride_days : Z)
    (st st' : NSE.Loop) :
  NSE.step df window_days stride_days st = Ok (NSE.Next st') ->
  NSE.start_idx st' = (NSE.start_idx st + stride_days)%Z
  /\ exists w, NSE.windows st' = NSE.windows st ++ [w].
Proof.
  unfold NSE.step. cbv zeta.
  destruct (iloc df (NSE.start_idx st)) as [first_row|e]; cbn [bind];
    [|discriminate].
  destruct (filter _ df) as [|candidate rest]; [discriminate|].
  destruct (iloc df (NSE.label candidate)) as [last_row|e]; cbn [bind];
    [|discriminate].
  destruct (NSE.round_cagr _) as [rc|e]; cbn [bind]; [|discriminate].
  intros H; inversion H; cbn. split; [reflexivity|eexists; reflexivity].
Qed.

Lemma range_step_nth (n stride k i : nat) :
  nth_error (MF.range_step n stride) k = Some i -> i = (k * stride)%nat.
Proof.
  unfold MF.range_step. intros H.
  rewrite nth_error_map in H.
  destruct (nth_error (seq 0 _) k) as [m|] eqn:E; [|discriminate].
  apply nth_error_In in E as Hin. apply in_seq in Hin.
  pose proof (nth_error_Some (seq 0 ((n + stride - 1) / stride)) k) as Hlen.
  assert (Hk : (k < length (seq 0 ((n + stride - 1) / stride)))%nat)
    by (apply Hlen; congruence).
  rewrite (nth_error_nth' _ 0%nat Hk) in E. rewrite seq_nth in E.
  - simpl in E. inversion E; subst m. inversion H; reflexivity.
  - rewrite length_seq in Hk. exact Hk.
Qed.

(** C4 fails as stated: in the mutual-fund routine, on rows two days apart,
    the second window starts 42 days after the first, while the stride is
    21. *)
Lemma anchor_advance_counterexample :
  map MF.d_start_date
      (MF.report_details (MF.calculate_rolling_cagr Examples.alternate_days 1))
  = [0%Z; 42%Z]
  /\ MF.stride_days = 21%nat.
Proof. split; [py_run; reflexivity | reflexivity]. Qed.

(** C4, amended.  In the Yahoo routine every iteration that goes on to a
    next one has moved the anchor date forward by exactly [stride_days]
    calendar days, with or without a window.  In the mutual-fund and NSE
    routines the anchor is a position in the frame: the mutual-fund loop
    visits the positions [0, 21, 42, ...], and an NSE iteration that goes on
    has appended a window and moved the position forward by
    [stride_days] rows. *)
Theorem anchor_advance :
  (forall (hist_data : list Yahoo.Bar) (window_years stride_days end_dt : Z)
          (st st' : Yahoo.Loop),
      Yahoo.step hist_data window_years stride_days end_dt st
        = Ok (Yahoo.Next st') ->
      Yahoo.current_start st' = (Yahoo.current_start st + stride_days)%Z)
  /\ (forall (n k i : nat),
         nth_error (MF.range_step n MF.stride_days) k = Some i ->
         i = (k * 21)%nat)
  /\ (forall (df : list NSE.Row) (window_days stride_days : Z)
             (st st' : NSE.Loop),
         NSE.step df window_days stride_days st = Ok (NSE.Next st') ->
         NSE.start_idx st' = (NSE.start_idx st + stride_days)%Z
         /\ exists w, NSE.windows st' = NSE.windows st ++ [w]).
Proof.
  split; [|split].
  - intros. eapply yahoo_step_next; eassumption.
  - intros n k i H. apply range_step_nth in H. exact H.
  - intros. eapply nse_step_next; eassumption.
Qed.

Lemma anchor_advance_witness :
  (exists st',
      Yahoo.step Examples.short_history 1 30 360
        {| Yahoo.current_start := 0; Yahoo.windows := [];
           Yahoo.window_num := 1 |}
      = Ok (Yahoo.Next st')
      /\ Yahoo.current_start st' = (0 + 30)%Z)
  /\ (nth_error (MF.range_step 24 MF.stride_days) 1 = Some 21%nat
      /\ 21%nat = (1 * 21)%nat)
  /\ (exists st',
         NSE.step Examples.year_apart 365 21
           {| NSE.start_idx := 0; NSE.windows := [] |}
         = Ok (NSE.Next st')
         /\ NSE.start_idx st' = (0 + 21)%Z
         /\ exists w, NSE.windows st' = [] ++ [w]).
Proof.
  destruct anchor_advance as [Hyahoo [Hmf Hnse]].
  split; [|split].
  - eexists. split; [py_run; reflexivity|].
    apply (Hyahoo Examples.short_history 1%Z 30%Z 360%Z
             {| Yahoo.current_start := 0; Yahoo.windows := [];
                Yahoo.window_num := 1 |}).
    py_run. reflexivity.
  - split; [reflexivity|].
    apply (Hmf 24%nat 1%nat 21%nat). reflexivity.
  - eexists. split; [py_run; reflexivity|].
    apply (Hnse Examples.year_apart 365%Z 21%Z
             {| NSE.start_idx := 0; NSE.windows := [] |}).
    py_run. reflexivity.
Defined.

End Stride.

(** ** The standard deviation *)

Section Deviation.
Import Py.
Open Scope R_scope.

Lemma Rpower_one (y : R) : Rpower 1 y = 1.
Proof. unfold Rpower. rewrite ln_1, Rmult_0_r. apply exp_0. Qed.

Lemma fourth_root_16 : Rpower 16 (/ 4) = 2.
Proof.
  replace 16 with (Rpower 2 (INR 4)).
  - rewrite Rpower_mult. replace (INR 4 * / 4) with 1 by (simpl; lra).
    apply Rpower_1; lra.
  - rewrite Rpower_pow by lra. simpl; lra.
Qed.

Lemma quadrupled_first :
  (Rpower (Q2R 16) (Q2R (36525 # 146100)) - 1) * 100 = 100.
Proof.
  replace (Q2R 16) with 16 by (unfold Q2R; simpl; lra).
  replace (Q2R (36525 # 146100)) with (/ 4) by (unfold Q2R; simpl; lra).
  rewrite fourth_root_16. lra.
Qed.

Lemma quadrupled_second :
  (Rpower (Q2R 1) (Q2R (36525 # 146100)) - 1) * 100 = 0.
Proof.
  replace (Q2R 1) with 1 by (unfold Q2R; simpl; lra).
  rewrite Rpower_one. lra.
Qed.

Lemma mf_report_values (data : list MF.Point) (window_years : Z)
    (values : list R) :
  MF.report_values (MF.calculate_rolling_cagr data window_years) = Some values ->
  values <> []
  /\ MF.std_dev (MF.calculate_rolling_cagr data window_years)
     = option_map round2 (Stats.pd_std values)
  /\ MF.average_cagr (MF.calculate_rolling_cagr data window_years)
     = round2 (Stats.mean values)
  /\ MF.num_windows (MF.calculate_rolling_cagr data window_years)
     = length values.
Proof.
  destruct (rolling_details data window_years) as [vs [_ [Hnil Hcons]]].
  destruct vs as [|v vs].
  - rewrite (Hnil eq_refl). discriminate.
  - assert (Hne : v :: vs <> []) by discriminate.
    rewrite (Hcons Hne). cbn [MF.report_values MF.std_dev MF.average_cagr
                              MF.num_windows].
    intros H. injection H as <-. repeat split. exact Hne.
Qed.

(** C5 fails as stated: on two windows with rates 100 and 0 the mutual-fund
    routine reports the rounding of [sqrt 5000], above 70, where the
    population deviation is 50. *)
Lemma std_dev_counterexample :
  MF.report_values (MF.calculate_rolling_cagr Examples.quadrupled 4)
    = Some [100; 0]
  /\ MF.std_dev (MF.calculate_rolling_cagr Examples.quadrupled 4)
     = Some (round2 (sqrt 5000))
  /\ Spec.population_std [100; 0] = 50
  /\ 70 < round2 (sqrt 5000).
Proof.
  assert (Hv : MF.report_values (MF.calculate_rolling_cagr Examples.quadrupled 4)
               = Some [100; 0]).
  { transitivity
      (Some [(Rpower (Q2R 16) (Q2R (36525 # 146100)) - 1) * 100;
             (Rpower (Q2R 1) (Q2R (36525 # 146100)) - 1) * 100]).
    - py_run. reflexivity.
    - rewrite quadrupled_first, quadrupled_second. reflexivity. }
  split; [exact Hv|].
  split.
  - destruct (mf_report_values _ _ Hv) as [_ [Hs _]]. rewrite Hs.
    rewrite pd_std_sample. cbn [option_map]. do 2 f_equal.
    unfold Spec.sample_std. cbv zeta. f_equal.
    unfold Stats.sum. simpl. lra.
  - split.
    + unfold Spec.population_std. cbv zeta.
      replace (Stats.sum _ / INR _) with (50 * 50)
        by (unfold Stats.sum; simpl; lra).
      apply sqrt_square. lra.
    + assert (H70 : 70 + 1 / 200 < sqrt 5000).
      { rewrite <- (sqrt_square (70 + 1 / 200)) by lra.
        apply sqrt_lt_1; lra. }
      pose proof (round2_near (sqrt 5000)). lra.
Qed.

(** C5, amended.  The Yahoo and the NSE reports carry, rounded to two
    decimals, the population standard deviation (division by [N]) of the
    rates their windows carry; the mutual-fund report carries, rounded to
    two decimals, the sample standard deviation (division by [N - 1]) of
    its rates, and no number when there is a single rate. *)
Theorem std_dev_by_routine :
  (forall (fuel : nat) (hist_data : list Yahoo.Bar) (window_years : Z)
          (start_date : option Py.date_text)
          (stride_days : Z) (r : Yahoo.Report),
      Yahoo.calculate_rolling_cagr fuel hist_data window_years start_date
                                   stride_days = Some (Yahoo.Done r) ->
      Yahoo.std_cagr r
      = round2 (Spec.population_std
                  (Stats.present (map Yahoo.cagr (Yahoo.rep_windows r)))))
  /\ (forall (fuel : nat) (historical_result : NSE.fetched) (window_years : Z)
             (start_date : option Py.date_text)
             (stride_days : Z) (r : NSE.Report),
         NSE.calculate_nse_rolling_cagr fuel historical_result window_years
                                        start_date stride_days
           = Some (NSE.Done r) ->
         NSE.std_cagr r
         = round2 (Spec.population_std
                     (Stats.present (map NSE.cagr (NSE.rep_windows r)))))
  /\ (forall (data : list MF.Point) (window_years : Z) (values : list R),
         MF.report_values (MF.calculate_rolling_cagr data window_years)
           = Some values ->
         match values with
         | [] => False
         | [_] => MF.std_dev (MF.calculate_rolling_cagr data window_years) = None
         | _ => MF.std_dev (MF.calculate_rolling_cagr data window_years)
                = Some (round2 (Spec.sample_std values))
         end).
Proof.
  split; [|split].
  - intros fuel hist_data window_years start_date stride_days r H.
    apply rolling_done in H. destruct H as [_ H].
    apply summarise_done in H. tauto.
  - intros fuel [|df] window_years start_date stride_days r H;
      [discriminate|].
    apply nse_rolling_done in H. destruct H as [df' [_ [_ H]]].
    apply nse_summarise_done in H. tauto.
  - intros data window_years values H.
    apply mf_report_values in H. destruct H as [Hne [Hs _]].
    destruct values as [|x [|y l]]; [congruence|exact Hs|].
    rewrite Hs, pd_std_sample. reflexivity.
Qed.

Lemma std_dev_by_routine_witness :
  (exists r,
      Yahoo.calculate_rolling_cagr 5 Examples.short_history 1 None 30
      = Some (Yahoo.Done r)
      /\ Yahoo.std_cagr r
         = round2 (Spec.population_std
                     (Stats.present (map Yahoo.cagr (Yahoo.rep_windows r)))))
  /\ (exists r,
         NSE.calculate_nse_rolling_cagr 5 (NSE.Fetched Examples.year_apart)
                                        1 None 21 = Some (NSE.Done r)
         /\ NSE.std_cagr r
            = round2 (Spec.population_std
                        (Stats.present (map NSE.cagr (NSE.rep_windows r)))))
  /\ (exists x y,
         MF.report_values (MF.calculate_rolling_cagr Examples.quadrupled 4)
         = Some [x; y]
         /\ MF.std_dev (MF.calculate_rolling_cagr Examples.quadrupled 4)
            = Some (round2 (Spec.sample_std [x; y]))).
Proof.
  destruct std_dev_by_routine as [Hyahoo [Hnse Hmf]].
  split; [|split].
  - eexists. split; [py_run; reflexivity|].
    apply (Hyahoo 5%nat Examples.short_history 1%Z None 30%Z).
    py_run. reflexivity.
  - eexists. split; [py_run; reflexivity|].
    apply (Hnse 5%nat (NSE.Fetched Examples.year_apart) 1%Z None 21%Z).
    py_run. reflexivity.
  - eexists. eexists. split; [py_run; reflexivity|].
    apply (Hmf Examples.quadrupled 4%Z [_; _]). py_run. reflexivity.
Defined.

End Deviation.

(** ** Windows without a rate *)

Section AbsentRates.
Import Py Props.

Lemma yahoo_cagr_guarded (s e : Q) (d1 d2 : Z) (c : option num) :
  gt0 (Spec.elapsed_years d1 d2) = true -> gt0 s = true ->
  Yahoo.calculate_cagr s e d1 d2 = Ok c -> exists z, c = Some z.
Proof.
  unfold Yahoo.calculate_cagr, gt0, Spec.elapsed_years. cbv zeta.
  intros Hy Hs. apply negb_true_iff in Hy, Hs.
  unfold le0. rewrite Hy, Hs. cbn [orb].
  destruct (div e s) as [ratio|x]; cbn [bind]; [|discriminate].
  destruct (div 1 _) as [expo|x]; cbn [bind]; [|discriminate].
  destruct (pow ratio expo) as [p|x]; cbn [bind]; [|discriminate].
  intros H; inversion H. eexists; reflexivity.
Qed.

Lemma yahoo_emitted_cagr (hist_data : list Yahoo.Bar) (window_years : Z)
    (w : Yahoo.Window) :
  yahoo_emitted hist_data window_years w ->
  Yahoo.cagr w <> None
  /\ exists first_bar,
       In first_bar hist_data /\ Yahoo.start_date w = Yahoo.date first_bar
       /\ 0 < Yahoo.Close first_bar.
Proof.
  intros [fb [lb [c [Hin [_ [Hs [_ [_ [Hy [Hp [Hc Hr]]]]]]]]]]].
  split.
  - apply yahoo_cagr_guarded in Hc; [|assumption..].
    destruct Hc as [z ->]. cbn in Hr. destruct (round2_num z) as [x|x]; cbn in Hr; [|discriminate].
    inversion Hr. discriminate.
  - exists fb. repeat split; try assumption. apply gt0_true. exact Hp.
Qed.

(** The rate of an NSE window: absent on an argument that is not positive
    and on a power beyond the floats, and otherwise the rounded rate. *)
Lemma nse_round_cagr_guarded (s e y : Q) :
  s <= 0 \/ e <= 0 \/ y <= 0 ->
  NSE.round_cagr (NSE.calculate_nse_cagr s e y) = Ok None.
Proof.
  intros Hbad. unfold NSE.calculate_nse_cagr.
  rewrite (guard_fires Hbad). reflexivity.
Qed.

Lemma nse_round_cagr_positive (s e y : Q) :
  0 < s -> 0 < e -> 0 < y -> (Spec.growth s e y <= max_float)%R ->
  NSE.round_cagr (NSE.calculate_nse_cagr s e y)
  = Ok (Some (round2 (Spec.cagr s e y))).
Proof.
  intros Hs He Hy Hfit. rewrite (nse_cagr_positive Hs He Hy Hfit).
  reflexivity.
Qed.

Lemma nse_round_cagr_overflow (s e y : Q) :
  0 < s -> 0 < e -> 0 < y -> (max_float < Spec.growth s e y)%R ->
  NSE.round_cagr (NSE.calculate_nse_cagr s e y) = Ok None.
Proof.
  intros Hs He Hy Hover. rewrite (nse_cagr_overflow Hs He Hy Hover).
  reflexivity.
Qed.

Lemma positive_or_not (s e y : Q) :
  (0 < s /\ 0 < e /\ 0 < y) \/ (s <= 0 \/ e <= 0 \/ y <= 0).
Proof.
  destruct (Qlt_le_dec 0 s) as [Hs|Hs]; [|tauto].
  destruct (Qlt_le_dec 0 e) as [He|He]; [|tauto].
  destruct (Qlt_le_dec 0 y) as [Hy|Hy]; tauto.
Qed.

(** The rounding of the rate of an NSE window never raises. *)
Lemma nse_round_cagr_total (s e y : Q) :
  exists rc, NSE.round_cagr (NSE.calculate_nse_cagr s e y) = Ok rc.
Proof.
  destruct (positive_or_not s e y) as [[Hs [He Hy]] | Hbad].
  - destruct (Rlt_dec max_float (Spec.growth s e y)) as [Hover | Hfit].
    + eexists. apply nse_round_cagr_overflow; assumption.
    + eexists. apply nse_round_cagr_positive; try assumption. lra.
  - eexists. apply nse_round_cagr_guarded. exact Hbad.
Qed.

Lemma nse_round_cagr_known (s e y : Q) (rc : option R) :
  NSE.round_cagr (NSE.calculate_nse_cagr s e y) = Ok rc ->
  (s <= 0 \/ e <= 0 \/ y <= 0 -> rc = None)
  /\ (0 < s -> 0 < e -> 0 < y -> Spec.in_range s e y ->
      rc = Some (round2 (Spec.cagr s e y)))
  /\ (rc = None ->
      s <= 0 \/ e <= 0 \/ y <= 0 \/ (max_float < Spec.growth s e y)%R).
Proof.
  intros H. split; [|split].
  - intros Hbad. rewrite (nse_round_cagr_guarded Hbad) in H. congruence.
  - intros Hs He Hy Hfit. apply in_range_growth in Hfit.
    rewrite (nse_round_cagr_positive Hs He Hy Hfit) in H. congruence.
  - intros ->.
    destruct (positive_or_not s e y) as [[Hs [He Hy]] | Hbad]; [|tauto].
    destruct (Rlt_dec max_float (Spec.growth s e y)) as [Hover | Hfit];
      [tauto|].
    apply Rnot_lt_le in Hfit.
    rewrite (nse_round_cagr_positive Hs He Hy Hfit) in H. discriminate.
Qed.

Lemma nse_emitted_rate (df : list NSE.Row) (window_days : Z) (w : NSE.Window) :
  nse_emitted df window_days w -> nse_rate_known w.
Proof.
  intros [fr [cand [rest [lr [_ [_ [_ [Hsd [Hed [Hsn [Hen Hr]]]]]]]]]]].
  unfold nse_rate_known. cbv zeta. rewrite Hsd, Hed, Hsn, Hen.
  apply nse_round_cagr_known. exact Hr.
Qed.

(** An iteration whose anchor row, end candidate and end row exist appends
    the window of the two rows and goes on. *)
Lemma nse_step_appends (df : list NSE.Row) (window_days stride_days : Z)
    (st : NSE.Loop) (first_row candidate last_row : NSE.Row)
    (rest : list NSE.Row) :
  Frame.iloc df (NSE.start_idx st) = Ok first_row ->
  filter (fun r => (NSE.Date first_row + window_days <=? NSE.Date r)%Z) df
    = candidate :: rest ->
  Frame.iloc df (NSE.label candidate) = Ok last_row ->
  exists w,
    NSE.step df window_days stride_days st
    = Ok (NSE.Next {| NSE.start_idx := (NSE.start_idx st + stride_days)%Z;
                      NSE.windows := NSE.windows st ++ [w] |})
    /\ NSE.start_date w = NSE.Date first_row
    /\ NSE.end_date w = NSE.Date last_row
    /\ NSE.start_nav w = NSE.Close first_row
    /\ NSE.end_nav w = NSE.Close last_row.
Proof.
  intros Hi Hf Hj. unfold NSE.step. cbv zeta.
  rewrite Hi. cbn [bind]. rewrite Hf, Hj. cbn [bind].
  destruct (nse_round_cagr_total (NSE.Close first_row) (NSE.Close last_row)
              (inject_Z (NSE.Date last_row - NSE.Date first_row) / 365.25))
    as [rc Hrc].
  rewrite Hrc. cbn [bind].
  eexists. split; [reflexivity|]. cbn. repeat split.
Qed.

(** The loop keeps what has been appended. *)
Lemma nse_loop_keeps (df : list NSE.Row) (window_days stride_days : Z)
    (fuel : nat) :
  forall (st : NSE.Loop) (ws : list NSE.Window),
    NSE.loop df window_days stride_days fuel st = Some (Ok ws) ->
    exists later, ws = NSE.windows st ++ later.
Proof.
  induction fuel as [|fuel IH]; intros st ws; simpl; [discriminate|].
  destruct (NSE.start_idx st <? _)%Z.
  2:{ intros H; inversion H; subst. exists []. symmetry. apply app_nil_r. }
  destruct (NSE.step df window_days stride_days st) as [c|e] eqn:Estep;
    [|discriminate].
  pose proof (nse_step_windows _ _ _ _ Estep) as Hw.
  assert (Hpre : exists one, NSE.windows (nse_state c) = NSE.windows st ++ one).
  { destruct Hw as [-> | [w [-> _]]].
    - exists []. symmetry. apply app_nil_r.
    - eexists. reflexivity. }
  destruct Hpre as [one Hone].
  destruct c as [st'|st']; simpl in Hone; intros H.
  - inversion H; subst. exists one. exact Hone.
  - apply IH in H. destruct H as [later ->]. rewrite Hone.
    exists (one ++ later). symmetry. apply app_assoc.
Qed.

(** The windows of a report are the windows the loop has collected. *)
Lemma nse_rolling_loop (fuel : nat) (df : list NSE.Row) (window_years : Z)
    (start_date : option Py.date_text) (stride_days : Z) (r : NSE.Report) :
  NSE.calculate_nse_rolling_cagr fuel (NSE.Fetched df) window_years start_date
                                 stride_days = Some (NSE.Done r) ->
  exists df',
    NSE.from_start df start_date = inr df'
    /\ NSE.loop df' (int_of (inject_Z window_years * 365.25)) stride_days fuel
                {| NSE.start_idx := 0; NSE.windows := [] |}
       = Some (Ok (NSE.rep_windows r)).
Proof.
  unfold NSE.calculate_nse_rolling_cagr.
  destruct df as [|row0 df0]; [discriminate|].
  destruct (NSE.from_start (row0 :: df0) start_date) as [f|df'] eqn:Ef;
    [discriminate|].
  destruct (_ <? _)%Z; [discriminate|].
  destruct (NSE.loop _ _ _ _ _) as [[ws|e]|] eqn:El; try discriminate.
  intros H. injection H as Hs.
  pose proof (nse_summarise_done _ _ _ Hs) as [Hw _].
  exists df'. split; [reflexivity|]. rewrite Hw. exact El.
Qed.

(** C6 fails as stated: a Yahoo history whose first close is 0 yields a
    candidate that goes through the 98% and the 90% checks and is not
    reported; the analysis ends with no window at all. *)
Lemma emitted_without_cagr_counterexample :
  Spec.pre_check 365 0 1 = true
  /\ Frame.last_row (Yahoo.start_prices Examples.zero_start 0)
     = Some {| Yahoo.date := 0; Yahoo.Close := 0 |}
  /\ Frame.last_row (Yahoo.end_prices Examples.zero_start 365)
     = Some {| Yahoo.date := 365; Yahoo.Close := 10 |}
  /\ Spec.post_check 0 365 1 = true
  /\ Yahoo.calculate_rolling_cagr 5 Examples.zero_start 1 None 30
     = Some (Yahoo.Failed Yahoo.NoRollingWindows).
Proof. repeat split; vm_compute; reflexivity. Qed.

(** C6, amended.  In the NSE routine every iteration whose anchor row has
    an end candidate with an end row appends a window to the list, the loop
    keeps what it has appended, and the windows of the report are what the
    loop has collected: every such candidate is reported.  The rate of a
    reported window is absent when a price or the elapsed time is not
    positive, and is the rounded formula when they are positive and the
    quotient, the exponent and the rate are within the floats; it is absent
    for no other reason than these or a power beyond the floats.  The
    Yahoo routine reports a candidate that went through the checks only
    when its start price and its elapsed time are positive, and then its
    rate is present.  In both, [total_windows] is the number of reported
    windows and the mean and the deviation are taken over the rates that
    are present. *)
Theorem emitted_and_counted :
  (forall (df : list NSE.Row) (window_days stride_days : Z) (st : NSE.Loop)
          (first_row candidate last_row : NSE.Row) (rest : list NSE.Row),
      Frame.iloc df (NSE.start_idx st) = Ok first_row ->
      filter (fun r => (NSE.Date first_row + window_days <=? NSE.Date r)%Z) df
        = candidate :: rest ->
      Frame.iloc df (NSE.label candidate) = Ok last_row ->
      exists w,
        NSE.step df window_days stride_days st
        = Ok (NSE.Next {| NSE.start_idx := (NSE.start_idx st + stride_days)%Z;
                          NSE.windows := NSE.windows st ++ [w] |})
        /\ NSE.start_date w = NSE.Date first_row
        /\ NSE.end_date w = NSE.Date last_row
        /\ NSE.start_nav w = NSE.Close first_row
        /\ NSE.end_nav w = NSE.Close last_row)
  /\ (forall (df : list NSE.Row) (window_days stride_days : Z) (fuel : nat)
             (st : NSE.Loop) (ws : list NSE.Window),
         NSE.loop df window_days stride_days fuel st = Some (Ok ws) ->
         exists later, ws = NSE.windows st ++ later)
  /\ (forall (fuel : nat) (df : list NSE.Row) (window_years : Z)
             (start_date : option Py.date_text) (stride_days : Z)
             (r : NSE.Report),
         NSE.calculate_nse_rolling_cagr fuel (NSE.Fetched df) window_years
                                        start_date stride_days
           = Some (NSE.Done r) ->
         (exists df',
             NSE.from_start df start_date = inr df'
             /\ NSE.loop df' (int_of (inject_Z window_years * 365.25))
                         stride_days fuel
                         {| NSE.start_idx := 0; NSE.windows := [] |}
                = Some (Ok (NSE.rep_windows r)))
         /\ NSE.total_windows r = length (NSE.rep_windows r)
         /\ NSE.avg_cagr r
            = round2 (Stats.mean
                        (Stats.present (map NSE.cagr (NSE.rep_windows r))))
         /\ NSE.std_cagr r
            = round2 (Spec.population_std
                        (Stats.present (map NSE.cagr (NSE.rep_windows r))))
         /\ Forall nse_rate_known (NSE.rep_windows r))
  /\ (forall (fuel : nat) (hist_data : list Yahoo.Bar) (window_years : Z)
             (start_date : option Py.date_text)
             (stride_days : Z) (r : Yahoo.Report),
         Yahoo.calculate_rolling_cagr fuel hist_data window_years start_date
                                      stride_days = Some (Yahoo.Done r) ->
         Yahoo.total_windows r = length (Yahoo.rep_windows r)
         /\ Yahoo.avg_cagr r
            = round2 (Stats.mean
                        (Stats.present (map Yahoo.cagr (Yahoo.rep_windows r))))
         /\ Yahoo.std_cagr r
            = round2 (Spec.population_std
                        (Stats.present (map Yahoo.cagr (Yahoo.rep_windows r))))
         /\ Forall (fun w =>
                      Yahoo.cagr w <> None
                      /\ 0 < Spec.elapsed_years (Yahoo.start_date w)
                                                (Yahoo.end_date w)
                      /\ exists first_bar,
                           In first_bar hist_data
                           /\ Yahoo.start_date w = Yahoo.date first_bar
                           /\ 0 < Yahoo.Close first_bar)
                   (Yahoo.rep_windows r)).
Proof.
  split; [|split; [|split]].
  - intros. eapply nse_step_appends; eassumption.
  - intros. eapply nse_loop_keeps; eassumption.
  - intros fuel df window_years start_date stride_days r H.
    split; [exact (nse_rolling_loop _ _ _ _ _ H)|].
    apply nse_rolling_done in H. destruct H as [df' [_ [Hem H]]].
    apply nse_summarise_done in H.
    destruct H as [_ [Ht [Ha [Hs _]]]].
    repeat split; try assumption.
    eapply Forall_impl; [|exact Hem].
    intros w Hw. eapply nse_emitted_rate. exact Hw.
  - intros fuel hist_data window_years start_date stride_days r H.
    apply rolling_done in H. destruct H as [Hem H].
    apply summarise_done in H. destruct H as [_ [Ht [Ha [Hs _]]]].
    repeat split; try assumption.
    eapply Forall_impl; [|exact Hem].
    intros w Hw. split; [|split].
    + eapply yahoo_emitted_cagr; eassumption.
    + eapply yahoo_emitted_span; eassumption.
    + eapply yahoo_emitted_cagr; eassumption.
Qed.

Lemma emitted_and_counted_witness :
  (exists w,
      NSE.step Examples.zero_first_close 365 21
               {| NSE.start_idx := 0; NSE.windows := [] |}
      = Ok (NSE.Next {| NSE.start_idx := 21; NSE.windows := [w] |})
      /\ NSE.start_nav w = 0 /\ NSE.end_date w = 365%Z)
  /\ (exists r,
         NSE.calculate_nse_rolling_cagr 5
           (NSE.Fetched Examples.zero_first_close) 1 None 21
         = Some (NSE.Done r)
         /\ map (fun w =>
                   match NSE.cagr w with Some _ => true | None => false end)
                (NSE.rep_windows r)
            = [false; true]
         /\ NSE.total_windows r = length (NSE.rep_windows r)
         /\ NSE.total_windows r = 2%nat
         /\ Forall nse_rate_known (NSE.rep_windows r))
  /\ (exists r,
         Yahoo.calculate_rolling_cagr 5 Examples.short_history 1 None 30
         = Some (Yahoo.Done r)
         /\ Yahoo.total_windows r = length (Yahoo.rep_windows r)
         /\ Forall (fun w => Yahoo.cagr w <> None) (Yahoo.rep_windows r)).
Proof.
  destruct emitted_and_counted as [Hstep [_ [Hnse Hyahoo]]].
  split; [|split].
  - destruct (Hstep Examples.zero_first_close 365%Z 21%Z
                {| NSE.start_idx := 0; NSE.windows := [] |}
                {| NSE.label := 0; NSE.Date := 0; NSE.Close := 0 |}
                {| NSE.label := 22; NSE.Date := 365; NSE.Close := 100 |}
                {| NSE.label := 22; NSE.Date := 365; NSE.Close := 100 |}
                [{| NSE.label := 23; NSE.Date := 386; NSE.Close := 100 |}]
                eq_refl eq_refl eq_refl)
      as [w [Hw [_ [Hed [Hsn _]]]]].
    exists w. split; [exact Hw|]. split; assumption.
  - eexists. split; [py_run; reflexivity|].
    split; [reflexivity|].
    destruct (Hnse 5%nat Examples.zero_first_close 1%Z None 21%Z _
                ltac:(py_run; reflexivity)) as [_ [Ht [_ [_ Hall]]]].
    split; [exact Ht|]. split; [reflexivity|]. exact Hall.
  - eexists. split; [py_run; reflexivity|].
    destruct (Hyahoo 5%nat Examples.short_history 1%Z None 30%Z _
                ltac:(py_run; reflexivity))
      as [Ht [_ [_ Hall]]].
    split; [exact Ht|].
    eapply Forall_impl; [|exact Hall]. intros w Hw. apply Hw.
Defined.

End AbsentRates.

(** ** Failures and termination *)

Section Failures.
Import Py Frame Props.

Lemma index_max_In (l : list Yahoo.Bar) :
  forall d, In (Yahoo.index_max d l) (d :: map Yahoo.date l).
Proof.
  unfold Yahoo.index_max.
  induction l as [|b l IH]; intros d; simpl; [now left|].
  destruct (IH (Z.max d (Yahoo.date b))) as [H|H].
  - rewrite <- H. destruct (Z.max_spec d (Yahoo.date b)) as [[_ ->]|[_ ->]];
      [right; now left | now left].
  - right; right; exact H.
Qed.

Lemma index_min_In (l : list Yahoo.Bar) :
  forall d, In (Yahoo.index_min d l) (d :: map Yahoo.date l).
Proof.
  unfold Yahoo.index_min.
  induction l as [|b l IH]; intros d; simpl; [now left|].
  destruct (IH (Z.min d (Yahoo.date b))) as [H|H].
  - rewrite <- H. destruct (Z.min_spec d (Yahoo.date b)) as [[_ ->]|[_ ->]];
      [now left | right; now left].
  - right; right; exact H.
Qed.

Lemma argmin_first_In (key : Z -> Z) (l : list Z) :
  forall best, In (argmin_first key best l) (best :: l).
Proof.
  induction l as [|x l IH]; intros best; simpl; [now left|].
  destruct (IH (if (key x <? key best)%Z then x else best)) as [H|H].
  - rewrite <- H. destruct (key x <? key best)%Z;
      [right; now left | now left].
  - right; right; exact H.
Qed.

Lemma dates_of_history (first_bar : Yahoo.Bar) (rest : list Yahoo.Bar) (d : Z) :
  In d (Yahoo.date first_bar :: map Yahoo.date rest) ->
  date_of (first_bar :: rest) d.
Proof.
  intros [H|H].
  - exists first_bar. split; [now left|exact H].
  - apply in_map_iff in H. destruct H as [b [Hb Hin]].
    exists b. split; [now right|exact Hb].
Qed.

Section Terminates.

Variable hist_data : list Yahoo.Bar.
Variable window_years stride_days end_dt : Z.
Hypothesis stride_positive : (0 < stride_days)%Z.

Local Abbreviation step :=
  (Yahoo.step hist_data window_years stride_days end_dt).
Local Abbreviation loop :=
  (Yahoo.loop hist_data window_years stride_days end_dt).

Local Abbreviation bound := (break_bound window_years).

Lemma step_breaks_beyond (st : Yahoo.Loop) :
  (end_dt - Yahoo.current_start st < bound)%Z ->
  step st = Ok (Yahoo.Break st).
Proof.
  intros H. unfold Yahoo.step. cbv zeta.
  assert (E : ltb (inject_Z (end_dt - Yahoo.current_start st))
                  (Yahoo.window_days window_years * 0.98) = true).
  { apply ltb_true.
    apply Qlt_le_trans with (inject_Z bound); unfold break_bound.
    - rewrite <- Zlt_Qlt. exact H.
    - apply Qfloor_le. }
  rewrite E. reflexivity.
Qed.

Lemma loop_terminates (n : nat) :
  forall st,
    (end_dt - Yahoo.current_start st < bound + Z.of_nat n * stride_days)%Z ->
    exists res, loop (S n) st = Some res.
Proof.
  induction n as [|n IH]; intros st H.
  - simpl. rewrite step_breaks_beyond by lia. eexists; reflexivity.
  - cbn [Yahoo.loop].
    destruct (step st) as [[st'|st']|e] eqn:E;
      [eexists; reflexivity| |eexists; reflexivity].
    apply yahoo_step_next in E. apply IH. lia.
Qed.

Lemma loop_returns (st : Yahoo.Loop) : exists fuel res, loop fuel st = Some res.
Proof.
  exists (S (Z.to_nat (end_dt - Yahoo.current_start st - bound + 1))).
  apply loop_terminates.
  set (gap := (end_dt - Yahoo.current_start st - bound + 1)%Z).
  assert (Hgap : (gap <= Z.of_nat (Z.to_nat gap))%Z) by lia.
  assert (Hnat : (0 <= Z.of_nat (Z.to_nat gap))%Z) by lia.
  nia.
Qed.

End Terminates.

Lemma find_end_idx_all_before (t : Q) (rows : list MF.Point) :
  forall j,
    Forall (fun r => geb (inject_Z (MF.date r)) t = false) rows ->
    MF.find_end_idx t j rows = None.
Proof.
  induction rows as [|r rows IH]; intros j H; simpl; [reflexivity|].
  inversion H; subst. rewrite H2. apply IH. assumption.
Qed.

Lemma insert_by_In {A : Type} (key : A -> Z) (x y : A) (l : list A) :
  In y (insert_by key x l) -> y = x \/ In y l.
Proof.
  induction l as [|a l IH]; simpl.
  - intros [H|[]]; left; congruence.
  - destruct (key x <=? key a)%Z; simpl.
    + intros [H|[H|H]]; [left; congruence | right; now left | right; now right].
    + intros [H|H]; [right; now left|].
      destruct (IH H) as [H'|H']; [now left | right; now right].
Qed.

Lemma sort_values_In {A : Type} (key : A -> Z) (y : A) (l : list A) :
  In y (sort_values key l) -> In y l.
Proof.
  induction l as [|a l IH]; simpl; [tauto|].
  intros H. apply insert_by_In in H. destruct H as [H|H];
    [left; congruence | right; apply IH; exact H].
Qed.

Lemma geb_false (x y : Q) : x < y -> geb x y = false.
Proof.
  intros H. unfold geb. destruct (Qle_bool y x) eqn:E; [|reflexivity].
  apply Qle_bool_iff in E. exfalso. exact (Qlt_not_le _ _ H E).
Qed.

(** On a frame whose rows all lie within less than a window of each other,
    the body of the mutual-fund loop stops the loop or raises. *)
Lemma mf_body_short (df : list MF.Point) (window_years : Z) (i : nat)
    (acc : MF.Acc) :
  (forall a b, In a df -> In b df ->
       inject_Z (MF.date b - MF.date a) < inject_Z window_years * 365.25) ->
  MF.body df window_years i acc = Ok (MF.Break acc)
  \/ exists e, MF.body df window_years i acc = Raise e.
Proof.
  intros Hspan. unfold MF.body. cbv zeta.
  destruct (iloc df (Z.of_nat i)) as [first_row|e] eqn:Ei; cbn [bind];
    [|right; eexists; reflexivity].
  rewrite find_end_idx_all_before; [now left|].
  apply Forall_forall. intros r Hr.
  apply geb_false. unfold MF.window_days.
  assert (Hin : In r df).
  { clear - Hr. revert Hr. generalize (S i). intros n.
    revert df. induction n as [|n IH]; intros df; simpl; [tauto|].
    destruct df as [|a df]; simpl; [tauto|]. intros H. right. apply IH, H. }
  apply iloc_In in Ei.
  pose proof (Hspan first_row r Ei Hin) as Hlt.
  unfold Zminus in Hlt. rewrite inject_Z_plus, inject_Z_opp in Hlt. lra.
Qed.

Lemma mf_run_short (df : list MF.Point) (window_years : Z)
    (starts : list nat) (acc : MF.Acc) :
  (forall a b, In a df -> In b df ->
       inject_Z (MF.date b - MF.date a) < inject_Z window_years * 365.25) ->
  MF.run df window_years starts acc = Ok acc
  \/ exists e, MF.run df window_years starts acc = Raise e.
Proof.
  intros Hspan. destruct starts as [|i starts]; simpl; [now left|].
  destruct (@mf_body_short df window_years i acc Hspan) as [-> | [e ->]]; cbn [bind].
  - now left.
  - right; eexists; reflexivity.
Qed.

(** A start date that is absent or that [strptime] reads gives a date of
    the history to start from. *)
Lemma starting_date_read (first_bar : Yahoo.Bar) (rest : list Yahoo.Bar)
    (start_date : option Py.date_text) :
  start_date <> Some Rejected ->
  exists start_dt,
    Yahoo.starting_date first_bar rest start_date = Ok start_dt
    /\ date_of (first_bar :: rest) start_dt.
Proof.
  intros Hread. unfold Yahoo.starting_date.
  destruct start_date as [[|day padded]|]; [congruence| |]; cbn.
  - eexists. split; [reflexivity|].
    apply dates_of_history. apply argmin_first_In.
  - eexists. split; [reflexivity|].
    apply dates_of_history. apply index_min_In.
Qed.

Lemma yahoo_short_span (fuel : nat) (first_bar : Yahoo.Bar)
    (rest : list Yahoo.Bar) (window_years : Z)
    (start_date : option Py.date_text)
    (stride_days : Z) :
  start_date <> Some Rejected ->
  (forall a b, In a (first_bar :: rest) -> In b (first_bar :: rest) ->
       inject_Z (Yahoo.date b - Yahoo.date a)
       < 0.98 * (inject_Z window_years * 365.25)) ->
  Yahoo.calculate_rolling_cagr (S fuel) (first_bar :: rest) window_years
                               start_date stride_days
  = Some (Yahoo.Failed Yahoo.NoRollingWindows).
Proof.
  intros Hread Hspan. unfold Yahoo.calculate_rolling_cagr. cbv zeta.
  destruct (starting_date_read first_bar rest Hread) as [start_dt [-> Hs]].
  set (end_dt := Yahoo.index_max _ _).
  assert (He : date_of (first_bar :: rest) end_dt).
  { apply dates_of_history. apply index_max_In. }
  destruct Hs as [a [Ha Hda]]. destruct He as [b [Hb Hdb]].
  pose proof (Hspan a b Ha Hb) as Hlt. rewrite Hda, Hdb in Hlt.
  cbn [Yahoo.loop]. unfold Yahoo.step. cbv zeta.
  cbn [Yahoo.current_start].
  assert (E : ltb (inject_Z (end_dt - start_dt))
                  (Yahoo.window_days window_years * 0.98) = true).
  { apply ltb_true. unfold Yahoo.window_days.
    rewrite (Qmult_comm _ 0.98). exact Hlt. }
  rewrite E. reflexivity.
Qed.

Lemma mf_short_span (data : list MF.Point) (window_years : Z) :
  (forall a b, In a data -> In b data ->
       inject_Z (MF.date b - MF.date a) < inject_Z window_years * 365.25) ->
  MF.calculate_rolling_cagr data window_years = MF.empty_report.
Proof.
  intros Hspan. unfold MF.calculate_rolling_cagr. cbv zeta.
  match goal with
  | |- context [MF.run ?df ?wy ?starts ?acc] =>
      destruct (@mf_run_short df wy starts acc) as [-> | [e ->]]
  end; try reflexivity.
  intros a b Ha Hb. apply Hspan; eapply sort_values_In; eassumption.
Qed.




End Failures.

(** ** Date resolution *)

Section Resolution.
Import Py Frame Props.

Lemma last_row_some {A : Type} (l : list A) :
  l <> [] -> exists r, last_row l = Some r.
Proof.
  induction l as [|a l IH]; [congruence|]. intros _.
  destruct l as [|b l]; [exists a; reflexivity|].
  destruct IH as [r Hr]; [discriminate|]. exists r. exact Hr.
Qed.

(** In an ordered list, the last row that passes a test comes after every
    other row that passes it. *)
Lemma last_row_filter_latest {A : Type} (lt : A -> A -> Prop)
    (p : A -> bool) (l : list A) (r : A) :
  StronglySorted lt l ->
  last_row (filter p l) = Some r ->
  In r l /\ p r = true /\ forall b, In b l -> p b = true -> b = r \/ lt b r.
Proof.
  intros Hsorted. induction Hsorted as [|a l Hs IH Hall]; simpl;
    [discriminate|].
  destruct (p a) eqn:Ea.
  - destruct (filter p l) as [|c rest] eqn:Ef.
    + simpl. intros H; inversion H; subst r.
      split; [now left|]. split; [exact Ea|].
      intros b [Hb|Hb] Hpb; [left; congruence|].
      assert (Hin : In b (filter p l)) by (apply filter_In; tauto).
      rewrite Ef in Hin. destruct Hin.
    + intros H. change (last_row (c :: rest) = Some r) in H.
      destruct (IH H) as [Hin [Hp Hlatest]].
      split; [now right|]. split; [exact Hp|].
      intros b [Hb|Hb] Hpb.
      * right. subst b. rewrite Forall_forall in Hall. apply Hall, Hin.
      * apply Hlatest; assumption.
  - intros H. destruct (IH H) as [Hin [Hp Hlatest]].
    split; [now right|]. split; [exact Hp|].
    intros b [Hb|Hb] Hpb; [congruence|]. apply Hlatest; assumption.
Qed.

Lemma sorted_nth {A : Type} (lt : A -> A -> Prop) (l : list A) :
  StronglySorted lt l ->
  forall i j a b, (i < j)%nat -> nth_error l i = Some a ->
                  nth_error l j = Some b -> lt a b.
Proof.
  intros Hsorted. induction Hsorted as [|x l Hs IH Hall];
    intros i j a b Hij Hi Hj.
  - destruct i; discriminate.
  - destruct j as [|j]; [lia|]. simpl in Hj.
    destruct i as [|i]; simpl in Hi.
    + inversion Hi; subst x. rewrite Forall_forall in Hall.
      apply Hall. eapply nth_error_In; eassumption.
    + apply (IH i j); [lia|assumption..].
Qed.

Lemma start_prices_end_prices (hist_data : list Yahoo.Bar) (t : Z) :
  Yahoo.start_prices hist_data t = Yahoo.end_prices hist_data (inject_Z t).
Proof.
  unfold Yahoo.start_prices, Yahoo.end_prices. apply filter_ext.
  intros b. destruct (Yahoo.date b <=? t)%Z eqn:E.
  - symmetry. apply Qle_bool_iff. rewrite <- Zle_Qle. apply Z.leb_le, E.
  - destruct (Qle_bool _ _) eqn:E'; [|reflexivity].
    apply Qle_bool_iff in E'. rewrite <- Zle_Qle in E'.
    apply Z.leb_le in E'. congruence.
Qed.

Lemma yahoo_floor (hist_data : list Yahoo.Bar) (target_date : Q) :
  yahoo_ordered hist_data ->
  (exists b, In b hist_data /\ inject_Z (Yahoo.date b) <= target_date) ->
  exists r,
    last_row (Yahoo.end_prices hist_data target_date) = Some r
    /\ In r hist_data
    /\ inject_Z (Yahoo.date r) <= target_date
    /\ forall b, In b hist_data -> inject_Z (Yahoo.date b) <= target_date ->
                 (Yahoo.date b <= Yahoo.date r)%Z.
Proof.
  intros Hsorted [b0 [Hin0 Hle0]].
  destruct (@last_row_some _ (Yahoo.end_prices hist_data target_date))
    as [r Hr].
  { intros Hnil.
    assert (Hin : In b0 (Yahoo.end_prices hist_data target_date)).
    { apply filter_In. split; [exact Hin0|]. apply Qle_bool_iff, Hle0. }
    rewrite Hnil in Hin. destruct Hin. }
  exists r. split; [exact Hr|].
  destruct (last_row_filter_latest _ Hsorted Hr) as [Hin [Hp Hlatest]].
  split; [exact Hin|]. split; [apply Qle_bool_iff, Hp|].
  intros b Hb Hle.
  destruct (Hlatest b Hb) as [-> | Hlt]; [apply Qle_bool_iff, Hle| |]; lia.
Qed.

Lemma mf_ceiling (df : list MF.Point) (i : nat) (first_row : MF.Point)
    (target_end_date : Q) :
  mf_ordered df ->
  nth_error df i = Some first_row ->
  inject_Z (MF.date first_row) < target_end_date ->
  (exists b, In b df /\ target_end_date <= inject_Z (MF.date b)) ->
  exists j r,
    MF.find_end_idx target_end_date (S i) (skipn (S i) df) = Some j
    /\ nth_error df j = Some r
    /\ target_end_date <= inject_Z (MF.date r)
    /\ forall b, In b df -> target_end_date <= inject_Z (MF.date b) ->
                 (MF.date r <= MF.date b)%Z.
Proof.
  intros Hsorted Hi Hafter [b0 [Hin0 Hge0]].
  assert (Hlate : forall k b, nth_error df k = Some b ->
                              target_end_date <= inject_Z (MF.date b) ->
                              (i < k)%nat).
  { intros k b Hk Hge.
    destruct (Nat.lt_ge_cases i k) as [Hlt|Hle]; [exact Hlt|exfalso].
    assert (Hd : (MF.date b <= MF.date first_row)%Z).
    { destruct (Nat.eq_dec k i) as [->|Hne].
      - assert (b = first_row) by congruence. subst b. lia.
      - assert (Hki : (k < i)%nat) by lia.
        pose proof (sorted_nth Hsorted Hki Hk Hi). simpl in H. lia. }
    rewrite Zle_Qle in Hd.
    apply (Qlt_irrefl target_end_date).
    eapply Qle_lt_trans; [exact Hge|].
    eapply Qle_lt_trans; [exact Hd|exact Hafter]. }
  destruct (MF.find_end_idx target_end_date (S i) (skipn (S i) df))
    as [j|] eqn:Ef.
  - apply find_end_idx_some in Ef.
    destruct Ef as [Hle [[r [Hn Hg]] Hbefore]].
    rewrite nth_error_skipn in Hn.
    replace (S i + (j - S i))%nat with j in Hn by lia.
    exists j, r. split; [reflexivity|]. split; [exact Hn|].
    apply geb_true in Hg. split; [exact Hg|].
    intros b Hb Hge. apply In_nth_error in Hb. destruct Hb as [k Hk].
    pose proof (Hlate k b Hk Hge) as Hik.
    destruct (Nat.lt_trichotomy k j) as [Hkj|[->|Hjk]].
    + exfalso.
      assert (Hf : geb (inject_Z (MF.date b)) target_end_date = false).
      { apply (Hbefore (k - S i)%nat b); [lia|].
        rewrite nth_error_skipn.
        replace (S i + (k - S i))%nat with k by lia. exact Hk. }
      apply geb_true in Hge. congruence.
    + assert (b = r) by congruence. subst b. lia.
    + pose proof (sorted_nth Hsorted Hjk Hn Hk) as Hlt. simpl in Hlt. lia.
  - exfalso. apply find_end_idx_none in Ef. rewrite Forall_forall in Ef.
    apply In_nth_error in Hin0. destruct Hin0 as [k Hk].
    pose proof (Hlate k b0 Hk Hge0) as Hik.
    assert (Hin : In b0 (skipn (S i) df)).
    { apply (nth_error_In _ (k - S i)). rewrite nth_error_skipn.
      replace (S i + (k - S i))%nat with k by lia. exact Hk. }
    apply Ef in Hin. apply geb_true in Hge0. congruence.
Qed.

(** C8.  On a price series in date order, the floor lookup of the Yahoo
    routine (the last row of the rows dated at or before the target) is the
    latest observation dated at or before the target, and the ceiling
    lookup of the mutual-fund routine (the first row after the anchor whose
    date has reached the target, the target lying after the anchor) is the
    earliest observation dated at or after the target, whenever such an
    observation exists. *)
Theorem date_resolution :
  (forall (hist_data : list Yahoo.Bar) (target_date : Q),
      yahoo_ordered hist_data ->
      (exists b, In b hist_data /\ inject_Z (Yahoo.date b) <= target_date) ->
      exists r,
        last_row (Yahoo.end_prices hist_data target_date) = Some r
        /\ In r hist_data
        /\ inject_Z (Yahoo.date r) <= target_date
        /\ forall b, In b hist_data ->
                     inject_Z (Yahoo.date b) <= target_date ->
                     (Yahoo.date b <= Yahoo.date r)%Z)
  /\ (forall (hist_data : list Yahoo.Bar) (current_start : Z),
         yahoo_ordered hist_data ->
         (exists b, In b hist_data /\ (Yahoo.date b <= current_start)%Z) ->
         exists r,
           last_row (Yahoo.start_prices hist_data current_start) = Some r
           /\ In r hist_data
           /\ (Yahoo.date r <= current_start)%Z
           /\ forall b, In b hist_data ->
                        (Yahoo.date b <= current_start)%Z ->
                        (Yahoo.date b <= Yahoo.date r)%Z)
  /\ (forall (df : list MF.Point) (i : nat) (first_row : MF.Point)
             (target_end_date : Q),
         mf_ordered df ->
         nth_error df i = Some first_row ->
         inject_Z (MF.date first_row) < target_end_date ->
         (exists b, In b df /\ target_end_date <= inject_Z (MF.date b)) ->
         exists j r,
           MF.find_end_idx target_end_date (S i) (skipn (S i) df) = Some j
           /\ nth_error df j = Some r
           /\ target_end_date <= inject_Z (MF.date r)
           /\ forall b, In b df ->
                        target_end_date <= inject_Z (MF.date b) ->
                        (MF.date r <= MF.date b)%Z).
Proof.
  split; [|split].
  - intros. apply yahoo_floor; assumption.
  - intros hist_data current_start Hsorted [b0 [Hin0 Hle0]].
    rewrite start_prices_end_prices.
    destruct (@yahoo_floor hist_data (inject_Z current_start) Hsorted)
      as [r [Hr [Hin [Hle Hlatest]]]].
    { exists b0. split; [exact Hin0|]. rewrite <- Zle_Qle. exact Hle0. }
    exists r. split; [exact Hr|]. split; [exact Hin|].
    split; [rewrite Zle_Qle; exact Hle|].
    intros b Hb Hbl. apply Hlatest; [exact Hb|].
    rewrite <- Zle_Qle. exact Hbl.
  - intros. eapply mf_ceiling; eassumption.
Qed.

Lemma date_resolution_witness :
  (exists r,
      last_row (Yahoo.end_prices Examples.short_history 100.5) = Some r
      /\ In r Examples.short_history
      /\ inject_Z (Yahoo.date r) <= 100.5
      /\ forall b, In b Examples.short_history ->
                   inject_Z (Yahoo.date b) <= 100.5 ->
                   (Yahoo.date b <= Yahoo.date r)%Z)
  /\ (exists r,
         last_row (Yahoo.start_prices Examples.short_history 400) = Some r
         /\ In r Examples.short_history
         /\ (Yahoo.date r <= 400)%Z
         /\ forall b, In b Examples.short_history ->
                      (Yahoo.date b <= 400)%Z ->
                      (Yahoo.date b <= Yahoo.date r)%Z)
  /\ (exists j r,
         MF.find_end_idx 365.25 1 (skipn 1 Examples.two_navs) = Some j
         /\ nth_error Examples.two_navs j = Some r
         /\ 365.25 <= inject_Z (MF.date r)
         /\ forall b, In b Examples.two_navs ->
                      365.25 <= inject_Z (MF.date b) ->
                      (MF.date r <= MF.date b)%Z).
Proof.
  destruct date_resolution as [Hfloor [Hstart Hceiling]].
  split; [|split].
  - apply Hfloor.
    + repeat constructor.
    + exists {| Yahoo.date := 0; Yahoo.Close := 100 |}.
      split; [now left|]. apply Qle_bool_iff. reflexivity.
  - apply Hstart.
    + repeat constructor.
    + exists {| Yahoo.date := 360; Yahoo.Close := 110 |}.
      split; [right; now left|]. apply Z.leb_le. reflexivity.
  - apply (Hceiling Examples.two_navs 0%nat {| MF.date := 0; MF.nav := 100 |}).
    + repeat constructor.
    + reflexivity.
    + reflexivity.
    + exists {| MF.date := 366; MF.nav := 110 |}.
      split; [right; now left|]. apply Qle_bool_iff. reflexivity.
Defined.

End Resolution.

(** ** The sign of the rate *)

Section Sign.
Import Py Props.

Lemma Q2R_pos (x : Q) : 0 < x -> (0 < Q2R x)%R.
Proof.
  intros H. apply Qlt_Rlt in H. replace (Q2R 0) with 0%R in H; [exact H|].
  unfold Q2R; simpl; lra.
Qed.

Lemma Rpower_gt_1 (x p : R) : (1 < x -> 0 < p -> 1 < Rpower x p)%R.
Proof.
  intros Hx Hp. rewrite <- (Rpower_O x) by lra.
  apply Rpower_lt; assumption.
Qed.

Lemma Rpower_lt_1 (x p : R) : (0 < x < 1 -> 0 < p -> Rpower x p < 1)%R.
Proof.
  intros [Hx0 Hx1] Hp. unfold Rpower. rewrite <- exp_0.
  apply exp_increasing.
  assert (Hln : (ln x < 0)%R).
  { rewrite <- ln_1. apply ln_increasing; assumption. }
  nra.
Qed.

(** The sign of the specification's rate follows the order of the prices. *)
Lemma spec_cagr_sign (s e y : Q) :
  0 < s -> 0 < e -> 0 < y ->
  (s < e -> (0 < Spec.cagr s e y)%R)
  /\ (e < s -> (Spec.cagr s e y < 0)%R)
  /\ (e == s -> Spec.cagr s e y = 0%R).
Proof.
  intros Hs He Hy.
  pose proof (Q2R_pos Hs) as Rs. pose proof (Q2R_pos He) as Re.
  pose proof (Q2R_pos Hy) as Ry.
  assert (Hp : (0 < 1 / Q2R y)%R).
  { unfold Rdiv. rewrite Rmult_1_l. apply Rinv_0_lt_compat. exact Ry. }
  unfold Spec.cagr. split; [|split].
  - intros Hlt. apply Qlt_Rlt in Hlt.
    assert (Hr : (1 < Q2R e / Q2R s)%R).
    { apply (Rmult_lt_reg_r (Q2R s)); [exact Rs|].
      unfold Rdiv. rewrite Rmult_assoc, Rinv_l by lra. lra. }
    pose proof (Rpower_gt_1 Hr Hp). lra.
  - intros Hlt. apply Qlt_Rlt in Hlt.
    assert (Hr : (0 < Q2R e / Q2R s < 1)%R).
    { split.
      - apply Rdiv_lt_0_compat; assumption.
      - apply (Rmult_lt_reg_r (Q2R s)); [exact Rs|].
        unfold Rdiv. rewrite Rmult_assoc, Rinv_l by lra. lra. }
    pose proof (Rpower_lt_1 Hr Hp). lra.
  - intros Heq. apply Qeq_eqR in Heq. rewrite Heq.
    replace (Q2R s / Q2R s)%R with 1%R by (field; lra).
    rewrite Rpower_one. lra.
Qed.

Lemma yahoo_cagr_positive (s e : Q) (d1 d2 : Z) :
  0 < s -> 0 < e -> 0 < Spec.elapsed_years d1 d2 ->
  (Spec.growth s e (Spec.elapsed_years d1 d2) <= max_float)%R ->
  Yahoo.calculate_cagr s e d1 d2
  = Ok (Some (Float (Spec.cagr s e (Spec.elapsed_years d1 d2)))).
Proof.
  intros Hs He Hy Hfit. unfold Yahoo.calculate_cagr. cbv zeta.
  fold (Spec.elapsed_years d1 d2).
  rewrite (proj2 (le0_false _) Hy), (proj2 (le0_false _) Hs). cbn [orb].
  rewrite (cagr_chain _ Hs He Hy Hfit). reflexivity.
Qed.

Lemma yahoo_cagr_overflow (s e : Q) (d1 d2 : Z) :
  0 < s -> 0 < e -> 0 < Spec.elapsed_years d1 d2 ->
  (max_float < Spec.growth s e (Spec.elapsed_years d1 d2))%R ->
  Yahoo.calculate_cagr s e d1 d2 = Raise OverflowError.
Proof.
  intros Hs He Hy Hover. unfold Yahoo.calculate_cagr. cbv zeta.
  fold (Spec.elapsed_years d1 d2).
  rewrite (proj2 (le0_false _) Hy), (proj2 (le0_false _) Hs). cbn [orb].
  rewrite (cagr_chain_overflow _ Hs He Hy Hover). reflexivity.
Qed.

(** What the Yahoo calculator returns on positive arguments, when it
    returns. *)
Lemma yahoo_cagr_returned (s e : Q) (d1 d2 : Z) (c : option num) :
  0 < s -> 0 < e -> 0 < Spec.elapsed_years d1 d2 ->
  Yahoo.calculate_cagr s e d1 d2 = Ok c ->
  c = Some (Float (Spec.cagr s e (Spec.elapsed_years d1 d2)))
  /\ (Spec.growth s e (Spec.elapsed_years d1 d2) <= max_float)%R.
Proof.
  intros Hs He Hy H.
  destruct (Rlt_dec max_float (Spec.growth s e (Spec.elapsed_years d1 d2)))
    as [Hover | Hfit].
  - rewrite (yahoo_cagr_overflow Hs He Hy Hover) in H. discriminate.
  - apply Rnot_lt_le in Hfit.
    rewrite (yahoo_cagr_positive Hs He Hy Hfit) in H.
    split; [congruence | exact Hfit].
Qed.

(** What the calculator of the table returns on positive arguments, when
    it returns a number. *)
Lemma excel_cagr_returned (s e y : Q) (c : R) :
  0 < s -> 0 < e -> 0 < y ->
  Excel.calculate_cagr s e y = Some (Float c) -> c = Spec.cagr s e y.
Proof.
  intros Hs He Hy H.
  destruct (Rlt_dec max_float (Spec.growth s e y)) as [Hover | Hfit].
  - rewrite (excel_cagr_overflow Hs He Hy Hover) in H. discriminate.
  - apply Rnot_lt_le in Hfit.
    rewrite (excel_cagr_positive Hs He Hy Hfit) in H. congruence.
Qed.

(** The rate a reported Yahoo window carries, prices being positive. *)
Lemma yahoo_emitted_rate (hist_data : list Yahoo.Bar) (window_years : Z)
    (w : Yahoo.Window) :
  (forall b, In b hist_data -> 0 < Yahoo.Close b) ->
  yahoo_emitted hist_data window_years w ->
  exists first_bar last_bar,
    In first_bar hist_data /\ In last_bar hist_data
    /\ (Yahoo.date first_bar < Yahoo.date last_bar)%Z
    /\ 0 < Spec.elapsed_years (Yahoo.date first_bar) (Yahoo.date last_bar)
    /\ Yahoo.cagr w
       = Some (round2 (Spec.cagr (Yahoo.Close first_bar) (Yahoo.Close last_bar)
                         (Spec.elapsed_years (Yahoo.date first_bar)
                                             (Yahoo.date last_bar)))).
Proof.
  intros Hpos [fb [lb [c [Hf [Hl [_ [_ [_ [Hy [_ [Hc Hr]]]]]]]]]]].
  apply gt0_true in Hy.
  exists fb, lb. split; [exact Hf|]. split; [exact Hl|].
  split.
  - rewrite elapsed_years_minus in Hy.
    assert (Hd : inject_Z (Yahoo.date fb) < inject_Z (Yahoo.date lb)) by lra.
    rewrite <- Zlt_Qlt in Hd. exact Hd.
  - split; [exact Hy|].
    destruct (yahoo_cagr_returned (Hpos fb Hf) (Hpos lb Hl) Hy Hc)
      as [-> _].
    cbn in Hr. injection Hr as <-. reflexivity.
Qed.

Lemma slow_growth_rate :
  round2 ((Rpower (Q2R (1000001 # 1000000)) (Q2R (36525 # 36500)) - 1) * 100)
  = 0%R.
Proof.
  apply round2_small.
  replace (Q2R (1000001 # 1000000)) with (1000001 / 1000000)%R
    by (unfold Q2R; simpl; lra).
  replace (Q2R (36525 # 36500)) with (36525 / 36500)%R
    by (unfold Q2R; simpl; lra).
  set (x := (1000001 / 1000000)%R).
  assert (Hlo : (1 <= Rpower x (36525 / 36500))%R).
  { rewrite <- (Rpower_O x) by (unfold x; lra).
    apply Rle_Rpower; unfold x; lra. }
  assert (Hhi : (Rpower x (36525 / 36500) <= x * x)%R).
  { replace (x * x)%R with (Rpower x (INR 2)).
    - apply Rle_Rpower; [unfold x; lra | simpl; lra].
    - rewrite Rpower_pow by (unfold x; lra). simpl. ring. }
  assert (Hxx : (x * x < 100001 / 100000)%R) by (unfold x; lra).
  lra.
Qed.




End Sign.

(** ** The end of a window in the mutual-fund and NSE routines *)

Section WindowEnd.
Import Py Frame Props.

Lemma reset_index_dates (df : list NSE.Row) (r' : NSE.Row) :
  In r' (NSE.reset_index df) ->
  exists r, In r df /\ NSE.Date r = NSE.Date r'.
Proof.
  unfold NSE.reset_index. intros H. apply in_map_iff in H.
  destruct H as [[n row] [Hr Hin]]. apply in_combine_r in Hin.
  exists row. split; [exact Hin|]. subst r'. reflexivity.
Qed.

Lemma from_start_frame (df df' : list NSE.Row)
    (start_date : option Py.date_text) :
  NSE.from_start df start_date = inr df' ->
  (start_date = None -> positional df) ->
  positional df'
  /\ forall r', In r' df' -> exists r, In r df /\ NSE.Date r = NSE.Date r'.
Proof.
  unfold NSE.from_start. destruct start_date as [[|day padded]|];
    [discriminate| |].
  - cbn [strptime].
    destruct (filter _ df) as [|k kept] eqn:Ef; [discriminate|].
    intros H _. injection H as <-. split; [apply reset_index_positional|].
    intros r' Hr'. apply reset_index_dates in Hr'.
    destruct Hr' as [r [Hin Hd]]. exists r. split; [|exact Hd].
    rewrite <- Ef in Hin. apply filter_In in Hin. tauto.
  - intros H Hp. injection H as <-. split; [apply Hp; reflexivity|].
    intros r' Hr'. exists r'. split; [exact Hr'|reflexivity].
Qed.

Lemma nse_emitted_end (df : list NSE.Row) (window_days : Z) (w : NSE.Window) :
  positional df ->
  nse_emitted df window_days w ->
  (NSE.start_date w + window_days <= NSE.end_date w)%Z
  /\ exists r, In r df /\ NSE.Date r = NSE.end_date w.
Proof.
  intros Hp [fr [cand [rest [lr [_ [Hf [Hi [Hs [He _]]]]]]]]].
  assert (Hin : In cand (filter (fun r =>
                  (NSE.Date fr + window_days <=? NSE.Date r)%Z) df))
    by (rewrite Hf; now left).
  apply filter_In in Hin. destruct Hin as [Hin Hge].
  rewrite (@positional_iloc _ _ Hp Hin) in Hi. injection Hi as <-.
  rewrite Hs, He. split; [apply Z.leb_le, Hge|].
  exists cand. split; [exact Hin|reflexivity].
Qed.

Lemma mf_emitted_end (df : list MF.Point) (window_years : Z) (c : R)
    (d : MF.Detail) :
  mf_emitted df window_years c d ->
  exists first_row last_row,
    In first_row df /\ In last_row df
    /\ MF.d_start_date d = MF.date first_row
    /\ MF.d_end_date d = MF.date last_row
    /\ inject_Z (MF.date first_row) + inject_Z window_years * 365.25
       <= inject_Z (MF.date last_row).
Proof.
  intros [i [j [fr [lr [Hi [Hj [_ [Hs [He [Hge _]]]]]]]]]].
  exists fr, lr. apply nth_error_In in Hi, Hj. apply geb_true in Hge.
  repeat split; assumption.
Qed.

(** C10 fails as stated: with [window_years = 1] the NSE routine reports
    the window from day 0 to day 365 although no row is dated 365.25 days
    or more after day 0; the window spans less than one year. *)
Lemma window_end_reached_counterexample :
  Forall (fun row => inject_Z (NSE.Date row) < inject_Z 0 + inject_Z 1 * 365.25)
         Examples.year_apart
  /\ Spec.elapsed_years 0 365 < inject_Z 1
  /\ exists r,
       NSE.calculate_nse_rolling_cagr 5 (NSE.Fetched Examples.year_apart)
                                      1 None 21 = Some (NSE.Done r)
       /\ map (fun w => (NSE.start_date w, NSE.end_date w)) (NSE.rep_windows r)
          = [(0%Z, 365%Z)].
Proof.
  split; [|split].
  - repeat constructor.
  - reflexivity.
  - eexists. split; [py_run; reflexivity | reflexivity].
Qed.

(** C10, amended.  The mutual-fund routine reports a window only when a row
    dated at least [window_years * 365.25] days after the anchor row
    exists, and the window ends on such a row: it spans at least
    [window_years] years.  The NSE routine, on a frame labelled by position,
    reports a window only when a row dated at least
    [int(window_years * 365.25)] days after the anchor exists, and the
    window ends on such a row: it spans at least that whole number of
    days. *)
Theorem window_end_reached :
  (forall (data : list MF.Point) (window_years : Z),
      Forall (fun d =>
                (exists first_row last_row,
                    In first_row data /\ In last_row data
                    /\ MF.d_start_date d = MF.date first_row
                    /\ MF.d_end_date d = MF.date last_row
                    /\ inject_Z (MF.date first_row)
                       + inject_Z window_years * 365.25
                       <= inject_Z (MF.date last_row))
                /\ inject_Z window_years
                   <= Spec.elapsed_years (MF.d_start_date d) (MF.d_end_date d))
             (MF.report_details (MF.calculate_rolling_cagr data window_years)))
  /\ (forall (fuel : nat) (df : list NSE.Row) (window_years : Z)
             (start_date : option Py.date_text)
             (stride_days : Z) (r : NSE.Report),
         (start_date = None -> positional df) ->
         NSE.calculate_nse_rolling_cagr fuel (NSE.Fetched df) window_years
                                        start_date stride_days
           = Some (NSE.Done r) ->
         Forall (fun w =>
                   (NSE.start_date w + int_of (inject_Z window_years * 365.25)
                    <= NSE.end_date w)%Z
                   /\ exists row, In row df /\ NSE.Date row = NSE.end_date w)
                (NSE.rep_windows r)).
Proof.
  split.
  - intros data window_years.
    destruct (rolling_details data window_years) as [values [H _]].
    induction H as [|c d cs ds Hcd _ IH]; constructor; [|exact IH].
    split.
    + destruct (mf_emitted_end Hcd) as [fr [lr [Hf [Hl H]]]].
      exists fr, lr.
      split; [eapply sort_values_In; exact Hf|].
      split; [eapply sort_values_In; exact Hl|exact H].
    + apply (mf_emitted_span Hcd).
  - intros fuel df window_years start_date stride_days r Hp H.
    apply nse_rolling_done in H. destruct H as [df' [Hf [Hem _]]].
    destruct (@from_start_frame _ _ _ Hf Hp) as [Hp' Hrows].
    eapply Forall_impl; [|exact Hem].
    intros w Hw. destruct (@nse_emitted_end _ _ _ Hp' Hw) as [Hge [row [Hin Hd]]].
    split; [exact Hge|].
    destruct (Hrows row Hin) as [row0 [Hin0 Hd0]].
    exists row0. split; [exact Hin0|congruence].
Qed.

Lemma window_end_reached_witness :
  exists r,
    NSE.calculate_nse_rolling_cagr 5 (NSE.Fetched Examples.year_apart)
                                   1 None 21 = Some (NSE.Done r)
    /\ Forall (fun w =>
                 (NSE.start_date w + int_of (inject_Z 1 * 365.25)
                  <= NSE.end_date w)%Z
                 /\ exists row, In row Examples.year_apart
                                /\ NSE.Date row = NSE.end_date w)
              (NSE.rep_windows r).
Proof.
  eexists. split; [py_run; reflexivity|].
  apply (proj2 window_end_reached 5%nat Examples.year_apart 1%Z None 21%Z).
  - intros _ k row H.
    do 13 (destruct k as [|k]; [injection H as <-; reflexivity|]).
    destruct k; discriminate.
  - py_run. reflexivity.
Defined.

End WindowEnd.

(** * Further properties *)

(** ** The calculators side by side *)

Section Agreement.
Import Py.

Lemma elapsed_years_pos (d1 d2 : Z) :
  (d1 < d2)%Z -> 0 < Spec.elapsed_years d1 d2.
Proof.
  intros H. rewrite elapsed_years_minus.
  rewrite Zlt_Qlt in H. lra.
Qed.

(** X1.  On positive prices and an end date after the start date, the
    quotient of the prices, the exponent and the rate being within the
    floats, the four calculators return one and the same rate, the rate of
    the formula.  When instead the quotient and the exponent are floats and
    the power is beyond the largest float, the calculators of
    [fetch_nifty_data.py] and [mf_st.py] raise [OverflowError] and the two
    others return [None]. *)
Theorem calculators_agree (start_value end_value : Q) (start_date end_date : Z)
    (Hstart : 0 < start_value) (Hend : 0 < end_value)
    (Hdates : (start_date < end_date)%Z) :
  let years := Spec.elapsed_years start_date end_date in
  (Spec.in_range start_value end_value years ->
   let rate := Spec.cagr start_value end_value years in
   Yahoo.calculate_cagr start_value end_value start_date end_date
     = Ok (Some (Float rate))
   /\ Excel.calculate_cagr start_value end_value years = Some (Float rate)
   /\ NSE.calculate_nse_cagr start_value end_value years = Some (Float rate)
   /\ MF.calculate_cagr start_value end_value years = Ok (Float rate))
  /\ (Spec.overflows start_value end_value years ->
      Yahoo.calculate_cagr start_value end_value start_date end_date
        = Raise OverflowError
      /\ Excel.calculate_cagr start_value end_value years = None
      /\ NSE.calculate_nse_cagr start_value end_value years = None
      /\ MF.calculate_cagr start_value end_value years = Raise OverflowError).
Proof.
  intros years. subst years. pose proof (elapsed_years_pos Hdates) as Hy.
  split.
  - intros Hfit rate. subst rate. apply in_range_growth in Hfit.
    split; [apply yahoo_cagr_positive; assumption|].
    split; [apply excel_cagr_positive; assumption|].
    split; [apply nse_cagr_positive; assumption|].
    apply mf_cagr_positive; assumption.
  - intros [_ [_ Hover]].
    split; [apply yahoo_cagr_overflow; assumption|].
    split; [apply excel_cagr_overflow; assumption|].
    split; [apply nse_cagr_overflow; assumption|].
    unfold MF.calculate_cagr. rewrite (guards_pass Hstart Hend Hy).
    apply (cagr_chain_overflow _ Hstart Hend Hy Hover).
Qed.

Lemma calculators_agree_witness :
  let rate := Spec.cagr 100 200 (Spec.elapsed_years 0 1461) in
  Yahoo.calculate_cagr 100 200 0 1461 = Ok (Some (Float rate))
  /\ Excel.calculate_cagr 100 200 (Spec.elapsed_years 0 1461)
     = Some (Float rate)
  /\ NSE.calculate_nse_cagr 100 200 (Spec.elapsed_years 0 1461)
     = Some (Float rate)
  /\ MF.calculate_cagr 100 200 (Spec.elapsed_years 0 1461) = Ok (Float rate).
Proof.
  assert (H1 : 0 < 100) by reflexivity.
  assert (H2 : 0 < 200) by reflexivity.
  assert (H3 : (0 < 1461)%Z) by reflexivity.
  apply (proj1 (@calculators_agree 100 200 0 1461 H1 H2 H3)).
  apply in_range_moderate. reflexivity.
Defined.

(** The exponent [1 / years] of the Yahoo calculator is never a whole
    number: a year of 365.25 days is no whole multiple of a day count. *)
Lemma yahoo_exponent_fractional (n : positive) :
  is_integer (1 / (inject_Z (Zpos n) / 365.25)) = false.
Proof.
  unfold is_integer.
  destruct (Pos.eqb _ 1) eqn:E; [|reflexivity]. exfalso.
  apply Pos.eqb_eq in E.
  set (q := 1 / (inject_Z (Zpos n) / 365.25)) in *.
  pose proof (Qred_correct q) as Hq.
  destruct (Qred q) as [z d] eqn:Er. simpl in E. subst d.
  unfold q, Qeq, Qdiv, Qmult, Qinv, inject_Z in Hq. simpl in Hq.
  lia.
Qed.

(** A negative base to a fractional power: a complex number, unless its
    size is beyond the floats. *)
Lemma pow_negative_fractional (a b : Q) :
  a < 0 -> is_integer b = false ->
  ((Rpower (Q2R (- a)) (Q2R b) <= max_float)%R -> pow a b = Ok Complex)
  /\ ((max_float < Rpower (Q2R (- a)) (Q2R b))%R ->
      pow a b = Raise OverflowError).
Proof.
  intros Ha Hb. unfold pow. rewrite (proj1 (Qlt_alt _ _) Ha), Hb.
  destruct (Rlt_dec max_float (Rpower (Q2R (- a)) (Q2R b))) as [Hover | Hfit];
    split; intros H; try reflexivity; lra.
Qed.

(** The size of the power the Yahoo calculator takes of a negative
    quotient. *)
Lemma negative_quotient_size (s e y : Q) :
  0 < s -> 0 < y ->
  Rpower (Q2R (- (e / s))) (Q2R (1 / y)) = Spec.growth s (- e) y.
Proof.
  intros Hs Hy. rewrite <- (growth_quotient (- e) Hs Hy).
  f_equal. apply Qeq_eqR. unfold Qdiv. ring.
Qed.

(** A negative end value makes the power a complex number, or one too
    large for that. *)
Lemma yahoo_cagr_negative_end (start_value end_value : Q)
    (start_date end_date : Z) :
  0 < start_value -> (start_date < end_date)%Z -> end_value < 0 ->
  let size :=
    Spec.growth start_value (- end_value)
                (Spec.elapsed_years start_date end_date) in
  ((size <= max_float)%R ->
   Yahoo.calculate_cagr start_value end_value start_date end_date
   = Ok (Some Complex))
  /\ ((max_float < size)%R ->
      Yahoo.calculate_cagr start_value end_value start_date end_date
      = Raise OverflowError).
Proof.
  intros Hstart Hdates Hneg size.
  pose proof (elapsed_years_pos Hdates) as Hy.
  assert (Hn : exists n, (end_date - start_date)%Z = Zpos n).
  { destruct (end_date - start_date)%Z eqn:E; try lia. eexists; reflexivity. }
  destruct Hn as [n Hn].
  unfold Yahoo.calculate_cagr. cbv zeta.
  fold (Spec.elapsed_years start_date end_date).
  rewrite (proj2 (le0_false _) Hy), (proj2 (le0_false _) Hstart). cbn [orb].
  rewrite (div_ok end_value (Q2R_pos_neq Hstart)). cbn [bind].
  rewrite (div_ok 1 (Q2R_pos_neq Hy)). cbn [bind].
  assert (Hr : end_value / start_value < 0).
  { apply Qlt_shift_div_r; [exact Hstart|]. rewrite Qmult_0_l. exact Hneg. }
  assert (Hfrac : is_integer (1 / Spec.elapsed_years start_date end_date)
                  = false).
  { unfold Spec.elapsed_years. rewrite Hn. apply yahoo_exponent_fractional. }
  destruct (@pow_negative_fractional _ _ Hr Hfrac) as [Hin Hout].
  rewrite (negative_quotient_size end_value Hstart Hy) in Hin, Hout.
  fold size in Hin, Hout.
  split; intros H.
  - rewrite (Hin H). reflexivity.
  - rewrite (Hout H). reflexivity.
Qed.

(** X2.  The Yahoo calculator has no guard on the end value: with a
    positive start value and an end date after the start date it returns
    -100 for an end value of zero.  For a negative end value whose quotient
    by the start value is in size neither below the least float of full
    precision nor beyond the largest float, it returns a complex number
    when the size of the power is within the floats, and raises
    [OverflowError] when it is beyond them. *)
Theorem yahoo_cagr_unguarded_end (start_value end_value : Q)
    (start_date end_date : Z)
    (Hstart : 0 < start_value) (Hdates : (start_date < end_date)%Z) :
  (end_value == 0 ->
   exists rate,
     Yahoo.calculate_cagr start_value end_value start_date end_date
       = Ok (Some (Float rate))
     /\ rate = (-100)%R)
  /\ (end_value < 0 ->
      (min_float <= Q2R (- end_value) / Q2R start_value <= max_float)%R ->
      let size :=
        Spec.growth start_value (- end_value)
                    (Spec.elapsed_years start_date end_date) in
      ((size <= max_float)%R ->
       Yahoo.calculate_cagr start_value end_value start_date end_date
         = Ok (Some Complex))
      /\ ((max_float < size)%R ->
          Yahoo.calculate_cagr start_value end_value start_date end_date
            = Raise OverflowError)).
Proof.
  pose proof (elapsed_years_pos Hdates) as Hy.
  assert (Hexpo : 0 < 1 / Spec.elapsed_years start_date end_date).
  { apply Qlt_shift_div_l; [exact Hy|]. rewrite Qmult_0_l. reflexivity. }
  assert (Hguard : le0 (Spec.elapsed_years start_date end_date)
                    || le0 start_value = false).
  { rewrite (proj2 (le0_false _) Hy), (proj2 (le0_false _) Hstart).
    reflexivity. }
  split.
  - intros Hzero. eexists. split; [|reflexivity].
    unfold Yahoo.calculate_cagr. cbv zeta.
    fold (Spec.elapsed_years start_date end_date). rewrite Hguard.
    rewrite (div_ok end_value (Q2R_pos_neq Hstart)). cbn [bind].
    rewrite (div_ok 1 (Q2R_pos_neq Hy)). cbn [bind].
    unfold pow.
    assert (Hr : end_value / start_value == 0).
    { rewrite Hzero. unfold Qdiv. apply Qmult_0_l. }
    rewrite (proj1 (Qeq_alt _ _) Hr).
    rewrite (proj1 (Qgt_alt _ _) Hexpo). cbn [bind sub1 times100].
    do 3 f_equal. lra.
  - intros Hneg _. apply yahoo_cagr_negative_end; assumption.
Qed.

(** The size of the power of [-50 / 100] over four years is within the
    floats, and that of [-10 / 1] over one day is beyond them. *)
Lemma half_size_fits :
  (Spec.growth 100 (- -50) (Spec.elapsed_years 0 1461) <= max_float)%R.
Proof.
  apply in_range_growth. apply in_range_moderate. reflexivity.
Qed.

Lemma ten_in_a_day : (max_float < Spec.growth 1 10 (Spec.elapsed_years 0 1))%R.
Proof.
  unfold Spec.growth.
  replace (Q2R 10 / Q2R 1)%R with 10%R by (unfold Q2R; simpl; lra).
  replace (1 / Q2R (Spec.elapsed_years 0 1))%R with (36525 / 100)%R
    by (unfold Q2R; simpl; lra).
  apply Rlt_le_trans with (Rpower 10 (INR 365)).
  - rewrite Rpower_pow by lra. rewrite pow_IZR. unfold max_float.
    apply IZR_lt. apply Z.ltb_lt. vm_compute. reflexivity.
  - apply Rle_Rpower; [lra|]. rewrite INR_IZR_INZ. simpl. lra.
Qed.

Lemma yahoo_cagr_unguarded_end_witness :
  (exists rate,
      Yahoo.calculate_cagr 100 0 0 1461 = Ok (Some (Float rate))
      /\ rate = (-100)%R)
  /\ Yahoo.calculate_cagr 100 (-50) 0 1461 = Ok (Some Complex)
  /\ Yahoo.calculate_cagr 1 (-10) 0 1 = Raise OverflowError.
Proof.
  assert (H1 : 0 < 100) by reflexivity.
  assert (H2 : (0 < 1461)%Z) by reflexivity.
  assert (H3 : 0 < 1) by reflexivity.
  assert (H4 : (0 < 1)%Z) by reflexivity.
  pose proof max_float_large as L. pose proof min_float_small as M.
  assert (H100 : (10 <= IZR (2 ^ 100))%R) by (apply IZR_le; discriminate).
  destruct (@yahoo_cagr_unguarded_end 100 0 0 1461 H1 H2) as [Hzero _].
  destruct (@yahoo_cagr_unguarded_end 100 (-50) 0 1461 H1 H2) as [_ Hneg].
  destruct (@yahoo_cagr_unguarded_end 1 (-10) 0 1 H3 H4) as [_ Hbig].
  split; [apply Hzero; reflexivity|].
  split.
  - apply Hneg; [reflexivity| |exact half_size_fits].
    replace (Q2R (- -50) / Q2R 100)%R with (/ 2)%R
      by (unfold Q2R; simpl; lra).
    lra.
  - apply Hbig; [reflexivity| |exact ten_in_a_day].
    replace (Q2R (- -10) / Q2R 1)%R with 10%R by (unfold Q2R; simpl; lra).
    lra.
Defined.

End Agreement.

(** ** The figures of the NSE report *)

Section ReportFigures.
Import Py Props.
Open Scope R_scope.

Lemma round_half_even_le (x y : R) :
  x <= y -> (round_half_even x <= round_half_even y)%Z.
Proof.
  intros [Hlt | ->]; [|lia].
  destruct (round_half_even_near x) as [Hx _].
  destruct (round_half_even_near y) as [_ Hy].
  apply Z.lt_succ_r. apply lt_IZR. rewrite succ_IZR. lra.
Qed.

Lemma round2_le (x y : R) : x <= y -> round2 x <= round2 y.
Proof.
  intros H. unfold round2.
  assert (Hz : (round_half_even (x * 100) <= round_half_even (y * 100))%Z)
    by (apply round_half_even_le; lra).
  apply IZR_le in Hz. lra.
Qed.

(** Rounding a rounded number changes nothing. *)
Lemma round2_idempotent (x : R) : round2 (round2 x) = round2 x.
Proof.
  unfold round2 at 1 3.
  rewrite (@round_half_even_unique (round2 x * 100) (round_half_even (x * 100)));
    [reflexivity|].
  unfold round2. lra.
Qed.

Lemma min_list_le (l : list R) :
  forall a, Stats.min_list a l <= a
            /\ forall x, In x l -> Stats.min_list a l <= x.
Proof.
  unfold Stats.min_list.
  induction l as [|b l IH]; intros a; simpl; [split; [lra|tauto]|].
  destruct (IH (Rmin a b)) as [H1 H2].
  pose proof (Rmin_l a b). pose proof (Rmin_r a b).
  split; [lra|]. intros x [<-|Hx]; [lra|apply H2, Hx].
Qed.

Lemma max_list_ge (l : list R) :
  forall a, a <= Stats.max_list a l
            /\ forall x, In x l -> x <= Stats.max_list a l.
Proof.
  unfold Stats.max_list.
  induction l as [|b l IH]; intros a; simpl; [split; [lra|tauto]|].
  destruct (IH (Rmax a b)) as [H1 H2].
  pose proof (Rmax_l a b). pose proof (Rmax_r a b).
  split; [lra|]. intros x [<-|Hx]; [lra|apply H2, Hx].
Qed.

Lemma sum_between (lo hi : R) (l : list R) :
  (forall x, In x l -> lo <= x <= hi) ->
  INR (length l) * lo <= Stats.sum l <= INR (length l) * hi.
Proof.
  induction l as [|a l IH]; intros H.
  - simpl. lra.
  - change (length (a :: l)) with (S (length l)). rewrite S_INR.
    change (Stats.sum (a :: l)) with (a + Stats.sum l).
    assert (Ha : lo <= a <= hi) by (apply H; now left).
    assert (Hl : forall x, In x l -> lo <= x <= hi)
      by (intros x Hx; apply H; now right).
    specialize (IH Hl). lra.
Qed.

Lemma mean_between (lo hi c : R) (cs : list R) :
  (forall x, In x (c :: cs) -> lo <= x <= hi) ->
  lo <= Stats.mean (c :: cs) <= hi.
Proof.
  intros H. pose proof (@sum_between lo hi (c :: cs) H) as [Hlo Hhi].
  unfold Stats.mean.
  assert (Hn : 0 < INR (length (c :: cs))) by (apply lt_0_INR; simpl; lia).
  split.
  - apply (Rmult_le_reg_l (INR (length (c :: cs)))); [exact Hn|].
    replace (INR (length (c :: cs)) * (Stats.sum (c :: cs) / INR (length (c :: cs))))
      with (Stats.sum (c :: cs)) by (field; lra).
    exact Hlo.
  - apply (Rmult_le_reg_l (INR (length (c :: cs)))); [exact Hn|].
    replace (INR (length (c :: cs)) * (Stats.sum (c :: cs) / INR (length (c :: cs))))
      with (Stats.sum (c :: cs)) by (field; lra).
    exact Hhi.
Qed.

Lemma present_In (l : list (option R)) (x : R) :
  In (Some x) l -> In x (Stats.present l).
Proof.
  induction l as [|[a|] l IH]; simpl; [tauto| |].
  - intros [H|H]; [left; congruence | right; apply IH, H].
  - intros [H|H]; [discriminate | apply IH, H].
Qed.

Lemma nse_emitted_rounded (df : list NSE.Row) (window_days : Z)
    (w : NSE.Window) (x : R) :
  nse_emitted df window_days w -> NSE.cagr w = Some x -> round2 x = x.
Proof.
  intros [fr [cand [rest [lr [_ [_ [_ [_ [_ [_ [_ Hr]]]]]]]]]]] Hx.
  rewrite Hx in Hr. unfold NSE.round_cagr in Hr.
  destruct (NSE.calculate_nse_cagr _ _ _) as [z|]; [|discriminate].
  destruct z as [y|]; cbn in Hr; [|discriminate].
  injection Hr as <-. apply round2_idempotent.
Qed.



End ReportFigures.

(** ** The numbers of the windows *)

Section Numbering.
Import Py Frame.

Lemma numbered_snoc {A : Type} (number : A -> nat) (l : list A) (x : A) :
  map number l = seq 1 (length l) ->
  number x = S (length l) ->
  map number (l ++ [x]) = seq 1 (length (l ++ [x])).
Proof.
  intros Hl Hx. rewrite map_app, length_app, Nat.add_1_r, seq_S, Hl.
  simpl. rewrite Hx. reflexivity.
Qed.

Lemma yahoo_step_numbered (hist_data : list Yahoo.Bar)
    (window_years stride_days end_dt : Z) (st : Yahoo.Loop)
    (c : Yahoo.control) :
  Yahoo.step hist_data window_years stride_days end_dt st = Ok c ->
  Yahoo.window_num st = S (length (Yahoo.windows st))
  /\ map Yahoo.window (Yahoo.windows st)
     = seq 1 (length (Yahoo.windows st)) ->
  Yahoo.window_num (Props.yahoo_state c)
    = S (length (Yahoo.windows (Props.yahoo_state c)))
  /\ map Yahoo.window (Yahoo.windows (Props.yahoo_state c))
     = seq 1 (length (Yahoo.windows (Props.yahoo_state c))).
Proof.
  intros Hstep [Hnum Hmap]. revert Hstep.
  unfold Yahoo.step. cbv zeta.
  destruct (ltb _ _); [intros H; inversion H; split; assumption|].
  destruct (ltb _ _); [intros H; inversion H; split; assumption|].
  destruct (last_row (Yahoo.start_prices _ _)) as [first_bar|];
    [|intros H; inversion H; split; assumption].
  destruct (last_row (Yahoo.end_prices _ _)) as [last_bar|];
    [|intros H; inversion H; split; assumption].
  destruct (ltb _ _); [intros H; inversion H; split; assumption|].
  destruct (gt0 _ && gt0 _).
  - destruct (Yahoo.calculate_cagr _ _ _ _) as [c0|e]; cbn [bind];
      [|discriminate].
    destruct (Yahoo.round_cagr c0) as [rc|e]; cbn [bind]; [|discriminate].
    cbn [Yahoo.current_start Yahoo.windows Yahoo.window_num].
    intros H.
    assert (Hgoal : forall st',
               Yahoo.windows st' = Yahoo.windows st ++
                 [{| Yahoo.window := Yahoo.window_num st;
                     Yahoo.start_date := Yahoo.date first_bar;
                     Yahoo.end_date := Yahoo.date last_bar;
                     Yahoo.start_nav := round2 (Q2R (Yahoo.Close first_bar));
                     Yahoo.end_nav := round2 (Q2R (Yahoo.Close last_bar));
                     Yahoo.actual_years :=
                       round2 (Q2R (inject_Z (Yahoo.date last_bar
                                               - Yahoo.date first_bar)
                                    / 365.25));
                     Yahoo.cagr := rc |}] ->
               Yahoo.window_num st' = S (Yahoo.window_num st) ->
               Yahoo.window_num st' = S (length (Yahoo.windows st'))
               /\ map Yahoo.window (Yahoo.windows st')
                  = seq 1 (length (Yahoo.windows st'))).
    { intros st' Hw Hn. rewrite Hw. split.
      - rewrite Hn, Hnum, length_app, Nat.add_1_r. reflexivity.
      - apply numbered_snoc; [exact Hmap | exact Hnum]. }
    destruct (geb _ _); inversion H; apply Hgoal; reflexivity.
  - cbn [bind]. intros H.
    destruct (geb _ _); inversion H; split; assumption.
Qed.

Lemma yahoo_loop_numbered (hist_data : list Yahoo.Bar)
    (window_years stride_days end_dt : Z) (fuel : nat) :
  forall st ws,
    Yahoo.loop hist_data window_years stride_days end_dt fuel st
      = Some (Ok ws) ->
    Yahoo.window_num st = S (length (Yahoo.windows st))
    /\ map Yahoo.window (Yahoo.windows st)
       = seq 1 (length (Yahoo.windows st)) ->
    map Yahoo.window ws = seq 1 (length ws).
Proof.
  induction fuel as [|fuel IH]; intros st ws; simpl; [discriminate|].
  destruct (Yahoo.step _ _ _ _ st) as [c|e] eqn:Estep; [|discriminate].
  intros H Hinv.
  pose proof (yahoo_step_numbered _ _ _ _ _ Estep Hinv) as Hinv'.
  destruct c as [st'|st']; simpl in Hinv'.
  - inversion H; subst. apply Hinv'.
  - apply (IH st' ws H Hinv').
Qed.

Lemma nse_loop_numbered (df : list NSE.Row) (window_days stride_days : Z)
    (fuel : nat) :
  forall st ws,
    NSE.loop df window_days stride_days fuel st = Some (Ok ws) ->
    map NSE.window (NSE.windows st) = seq 1 (length (NSE.windows st)) ->
    map NSE.window ws = seq 1 (length ws).
Proof.
  induction fuel as [|fuel IH]; intros st ws; simpl; [discriminate|].
  destruct (NSE.start_idx st <? _)%Z;
    [|intros H; inversion H; subst; trivial].
  unfold NSE.step. cbv zeta.
  destruct (iloc df (NSE.start_idx st)) as [first_row|e]; cbn [bind];
    [|discriminate].
  destruct (filter _ df) as [|candidate rest];
    [intros H; inversion H; subst; trivial|].
  destruct (iloc df (NSE.label candidate)) as [last_row|e]; cbn [bind];
    [|discriminate].
  destruct (NSE.round_cagr _) as [rc|e]; cbn [bind]; [|discriminate].
  intros H Hinv. apply (IH _ _ H). cbn [NSE.windows].
  apply numbered_snoc; [exact Hinv|]. cbn. lia.
Qed.

Lemma mf_run_numbered (df : list MF.Point) (window_years : Z)
    (starts : list nat) :
  forall acc acc',
    MF.run df window_years starts acc = Ok acc' ->
    map MF.d_window (MF.window_details acc)
      = seq 1 (length (MF.window_details acc)) ->
    map MF.d_window (MF.window_details acc')
      = seq 1 (length (MF.window_details acc')).
Proof.
  induction starts as [|i starts IH]; intros acc acc'; simpl.
  - intros H; inversion H; trivial.
  - unfold MF.body. cbv zeta.
    destruct (iloc df (Z.of_nat i)) as [first_row|e]; cbn [bind];
      [|discriminate].
    destruct (MF.find_end_idx _ _ _) as [end_idx|];
      [|cbn [bind]; intros H; inversion H; trivial].
    destruct (iloc df (Z.of_nat end_idx)) as [last_row|e]; cbn [bind];
      [|discriminate].
    destruct (gt0 _ && gt0 _ && gt0 _);
      [|cbn [bind]; intros H Hinv; apply (IH _ _ H Hinv)].
    destruct (div _ _) as [ratio|e]; cbn [bind]; [|discriminate].
    destruct (div 1 _) as [expo|e]; cbn [bind]; [|discriminate].
    destruct (pow ratio expo) as [p|e]; cbn [bind]; [|discriminate].
    destruct (times100 (sub1 p)) as [cagr|]; cbn [bind]; [|discriminate].
    intros H Hinv. apply (IH _ _ H). cbn [MF.window_details].
    apply numbered_snoc; [exact Hinv|]. cbn. lia.
Qed.

(** X4.  The windows of every report are numbered 1, 2, 3, ... in the
    order in which they are listed: in the Yahoo report, in the NSE report
    and in the details of the mutual-fund report. *)
Theorem windows_numbered :
  (forall (fuel : nat) (hist_data : list Yahoo.Bar) (window_years : Z)
          (start_date : option Py.date_text)
          (stride_days : Z) (r : Yahoo.Report),
      Yahoo.calculate_rolling_cagr fuel hist_data window_years start_date
                                   stride_days = Some (Yahoo.Done r) ->
      map Yahoo.window (Yahoo.rep_windows r)
      = seq 1 (Yahoo.total_windows r))
  /\ (forall (fuel : nat) (historical_result : NSE.fetched) (window_years : Z)
             (start_date : option Py.date_text)
             (stride_days : Z) (r : NSE.Report),
         NSE.calculate_nse_rolling_cagr fuel historical_result window_years
                                        start_date stride_days
           = Some (NSE.Done r) ->
         map NSE.window (NSE.rep_windows r) = seq 1 (NSE.total_windows r))
  /\ (forall (data : list MF.Point) (window_years : Z),
         map MF.d_window
             (MF.report_details (MF.calculate_rolling_cagr data window_years))
         = seq 1 (MF.num_windows (MF.calculate_rolling_cagr data window_years))).
Proof.
  split; [|split].
  - intros fuel hist_data window_years start_date stride_days r H.
    pose proof H as Hd. apply rolling_done in Hd. destruct Hd as [_ Hs].
    apply summarise_done in Hs. destruct Hs as [_ [-> _]].
    revert H. unfold Yahoo.calculate_rolling_cagr.
    destruct hist_data as [|first_bar rest]; [discriminate|].
    destruct (Yahoo.starting_date _ _ _) as [start_dt|e0]; [|discriminate].
    destruct (Yahoo.loop _ _ _ _ _ _) as [[ws|e]|] eqn:El; try discriminate.
    intros H. injection H as Hs.
    apply summarise_done in Hs. destruct Hs as [-> _].
    eapply yahoo_loop_numbered; [exact El|]. split; reflexivity.
  - intros fuel [|df] window_years start_date stride_days r H;
      [discriminate|].
    pose proof H as Hd. apply nse_rolling_done in Hd.
    destruct Hd as [df' [_ [_ Hs]]].
    apply nse_summarise_done in Hs. destruct Hs as [_ [-> _]].
    revert H. unfold NSE.calculate_nse_rolling_cagr.
    destruct df as [|row0 df0]; [discriminate|].
    destruct (NSE.from_start _ _) as [f|df1]; [discriminate|].
    destruct (_ <? _)%Z; [discriminate|].
    destruct (NSE.loop _ _ _ _ _) as [[ws|e]|] eqn:El; try discriminate.
    intros H. injection H as Hs.
    apply nse_summarise_done in Hs. destruct Hs as [-> _].
    eapply nse_loop_numbered; [exact El|]. reflexivity.
  - intros data window_years. unfold MF.calculate_rolling_cagr. cbv zeta.
    destruct (MF.run _ _ _ _) as [acc|e] eqn:Er; [|reflexivity].
    pose proof Er as Hinv. apply run_invariant in Hinv; [|constructor].
    apply Forall2_length in Hinv.
    apply mf_run_numbered in Er; [|reflexivity].
    destruct (MF.cagr_values acc) as [|c cs] eqn:Ev; [reflexivity|].
    cbn [MF.report_details MF.num_windows]. rewrite Hinv. exact Er.
Qed.

Lemma windows_numbered_witness :
  (exists r,
      Yahoo.calculate_rolling_cagr 5 Examples.short_history 1 None 30
      = Some (Yahoo.Done r)
      /\ map Yahoo.window (Yahoo.rep_windows r)
         = seq 1 (Yahoo.total_windows r))
  /\ (exists r,
         NSE.calculate_nse_rolling_cagr 5
           (NSE.Fetched Examples.zero_first_close) 1 None 21
         = Some (NSE.Done r)
         /\ map NSE.window (NSE.rep_windows r) = seq 1 (NSE.total_windows r)).
Proof.
  destruct windows_numbered as [Hyahoo [Hnse _]].
  split.
  - eexists. split; [py_run; reflexivity|].
    apply (Hyahoo 5%nat Examples.short_history 1%Z None 30%Z).
    py_run. reflexivity.
  - eexists. split; [py_run; reflexivity|].
    apply (Hnse 5%nat (NSE.Fetched Examples.zero_first_close) 1%Z None 21%Z).
    py_run. reflexivity.
Defined.

End Numbering.

(** ** Whether the loops end *)

Section LoopsEnd.
Import Py Frame.

Lemma nse_loop_terminates (df : list NSE.Row) (window_days stride_days : Z)
    (n : nat) :
  (0 < stride_days)%Z ->
  forall st,
    (Z.of_nat (length df) - NSE.start_idx st <= Z.of_nat n * stride_days)%Z ->
    exists res, NSE.loop df window_days stride_days (S n) st = Some res.
Proof.
  intros Hstride. induction n as [|n IH]; intros st H.
  - cbn [NSE.loop].
    destruct (NSE.start_idx st <? Z.of_nat (length df))%Z eqn:E;
      [apply Z.ltb_lt in E; lia|]. eexists; reflexivity.
  - cbn [NSE.loop].
    destruct (NSE.start_idx st <? Z.of_nat (length df))%Z;
      [|eexists; reflexivity].
    destruct (NSE.step df window_days stride_days st) as [[st'|st']|e] eqn:E;
      [eexists; reflexivity| |eexists; reflexivity].
    apply nse_step_next in E. destruct E as [E _]. apply IH. lia.
Qed.

(** X5.  With a positive stride the NSE analysis returns: some number of
    iterations gives an answer, a failure or a report. *)
Theorem nse_rolling_returns (historical_result : NSE.fetched)
    (window_years : Z) (start_date : option Py.date_text) (stride_days : Z)
    (Hstride : (0 < stride_days)%Z) :
  exists fuel o,
    NSE.calculate_nse_rolling_cagr fuel historical_result window_years
                                   start_date stride_days = Some o.
Proof.
  unfold NSE.calculate_nse_rolling_cagr.
  destruct historical_result as [|[|row0 df0]];
    [exists 0%nat; eexists; reflexivity..|].
  destruct (NSE.from_start _ _) as [f|df];
    [exists 0%nat; eexists; reflexivity|].
  destruct (_ <? _)%Z; [exists 0%nat; eexists; reflexivity|].
  set (st := {| NSE.start_idx := 0; NSE.windows := [] |}).
  destruct (@nse_loop_terminates df
              (int_of (inject_Z window_years * 365.25)) stride_days
              (Z.to_nat (Z.of_nat (length df))) Hstride st) as [res Hres].
  { cbn [NSE.start_idx st]. rewrite Nat2Z.id. nia. }
  eexists. rewrite Hres. destruct res; eexists; reflexivity.
Qed.

Lemma nse_rolling_returns_witness :
  exists fuel o,
    NSE.calculate_nse_rolling_cagr fuel (NSE.Fetched Examples.year_apart)
                                   1 None 21 = Some o.
Proof.
  apply nse_rolling_returns. reflexivity.
Defined.

(** Whether an NSE iteration goes on depends on the position only. *)
Lemma nse_step_again (df : list NSE.Row) (window_days stride_days : Z)
    (st st' st2 : NSE.Loop) :
  NSE.step df window_days stride_days st = Ok (NSE.Next st') ->
  NSE.start_idx st2 = NSE.start_idx st ->
  exists st3, NSE.step df window_days stride_days st2 = Ok (NSE.Next st3).
Proof.
  unfold NSE.step. cbv zeta. intros H E. rewrite E.
  destruct (iloc df (NSE.start_idx st)) as [first_row|e]; cbn [bind] in *;
    [|discriminate].
  destruct (filter _ df) as [|candidate rest]; [discriminate|].
  destruct (iloc df (NSE.label candidate)) as [last_row|e]; cbn [bind] in *;
    [|discriminate].
  destruct (NSE.round_cagr _) as [rc|e]; cbn [bind] in *; [|discriminate].
  eexists; reflexivity.
Qed.

Lemma nse_loop_forever (df : list NSE.Row) (window_days : Z) (fuel : nat) :
  forall st st',
    (NSE.start_idx st <? Z.of_nat (length df))%Z = true ->
    NSE.step df window_days 0 st = Ok (NSE.Next st') ->
    NSE.loop df window_days 0 fuel st = None.
Proof.
  induction fuel as [|fuel IH]; intros st st' Hlt Hstep; [reflexivity|].
  cbn [NSE.loop]. rewrite Hlt, Hstep.
  pose proof Hstep as Hidx. apply nse_step_next in Hidx.
  destruct Hidx as [Hidx _]. rewrite Z.add_0_r in Hidx.
  destruct (@nse_step_again df window_days 0 st st' st' Hstep Hidx)
    as [st3 Hst3].
  apply (IH st' st3); [rewrite Hidx; exact Hlt | exact Hst3].
Qed.

(** Whether a Yahoo iteration goes on depends on the anchor only. *)
Lemma yahoo_step_again (hist_data : list Yahoo.Bar)
    (window_years stride_days end_dt : Z) (st st' st2 : Yahoo.Loop) :
  Yahoo.step hist_data window_years stride_days end_dt st
    = Ok (Yahoo.Next st') ->
  Yahoo.current_start st2 = Yahoo.current_start st ->
  exists st3,
    Yahoo.step hist_data window_years stride_days end_dt st2
      = Ok (Yahoo.Next st3).
Proof.
  unfold Yahoo.step. cbv zeta. intros H E. rewrite E.
  destruct (ltb _ _); [discriminate|].
  destruct (ltb _ _); [discriminate|].
  destruct (last_row (Yahoo.start_prices _ _)) as [first_bar|];
    [|eexists; reflexivity].
  destruct (last_row (Yahoo.end_prices _ _)) as [last_bar|];
    [|eexists; reflexivity].
  destruct (ltb _ _); [discriminate|].
  destruct (gt0 _ && gt0 _).
  - destruct (Yahoo.calculate_cagr _ _ _ _) as [c0|e]; cbn [bind] in *;
      [|discriminate].
    destruct (Yahoo.round_cagr c0) as [rc|e]; cbn [bind] in *;
      [|discriminate].
    cbn [Yahoo.current_start Yahoo.windows Yahoo.window_num] in *.
    destruct (geb _ _); [discriminate|]. eexists; reflexivity.
  - cbn [bind] in *. rewrite E.
    destruct (geb _ _); [discriminate|]. eexists; reflexivity.
Qed.

Lemma yahoo_loop_forever (hist_data : list Yahoo.Bar)
    (window_years end_dt : Z) (fuel : nat) :
  forall st st',
    Yahoo.step hist_data window_years 0 end_dt st = Ok (Yahoo.Next st') ->
    Yahoo.loop hist_data window_years 0 end_dt fuel st = None.
Proof.
  induction fuel as [|fuel IH]; intros st st' Hstep; [reflexivity|].
  cbn [Yahoo.loop]. rewrite Hstep.
  pose proof Hstep as Hidx. apply yahoo_step_next in Hidx.
  rewrite Z.add_0_r in Hidx.
  destruct (@yahoo_step_again hist_data window_years 0 end_dt st st' st'
              Hstep Hidx) as [st3 Hst3].
  apply (IH st' st3 Hst3).
Qed.

(** X6.  With a stride of zero an analysis that has not returned after its
    first iteration never returns: this holds for the Yahoo and for the NSE
    routine. *)
Theorem zero_stride_never_returns :
  (forall (hist_data : list Yahoo.Bar) (window_years : Z)
          (start_date : option Py.date_text),
      Yahoo.calculate_rolling_cagr 1 hist_data window_years start_date 0
        = None ->
      forall fuel,
        Yahoo.calculate_rolling_cagr fuel hist_data window_years start_date 0
        = None)
  /\ (forall (historical_result : NSE.fetched) (window_years : Z)
             (start_date : option Py.date_text),
         NSE.calculate_nse_rolling_cagr 1 historical_result window_years
                                        start_date 0 = None ->
         forall fuel,
           NSE.calculate_nse_rolling_cagr fuel historical_result window_years
                                          start_date 0 = None).
Proof.
  split.
  - intros hist_data window_years start_date.
    unfold Yahoo.calculate_rolling_cagr.
    destruct hist_data as [|first_bar rest]; [discriminate|]. cbv zeta.
    destruct (Yahoo.starting_date _ _ _) as [start_dt|e0]; [|discriminate].
    set (st := {| Yahoo.current_start := _ |}).
    set (end_dt := Yahoo.index_max _ _).
    cbn [Yahoo.loop].
    destruct (Yahoo.step _ _ _ _ st) as [[st'|st']|e] eqn:E;
      try discriminate.
    intros _ fuel.
    rewrite (@yahoo_loop_forever _ _ _ fuel _ _ E). reflexivity.
  - intros historical_result window_years start_date.
    unfold NSE.calculate_nse_rolling_cagr.
    destruct historical_result as [|[|row0 df0]]; try discriminate.
    destruct (NSE.from_start _ _) as [f|df]; [discriminate|].
    destruct (_ <? _)%Z; [discriminate|].
    set (st := {| NSE.start_idx := 0 |}).
    cbn [NSE.loop].
    destruct (NSE.start_idx st <? _)%Z eqn:Hlt; [|discriminate].
    destruct (NSE.step _ _ _ st) as [[st'|st']|e] eqn:E; try discriminate.
    intros _ fuel.
    rewrite (@nse_loop_forever _ _ fuel _ _ Hlt E). reflexivity.
Qed.

Lemma zero_stride_never_returns_witness :
  (forall fuel,
      Yahoo.calculate_rolling_cagr fuel Examples.short_history 1 None 0 = None)
  /\ (forall fuel,
         NSE.calculate_nse_rolling_cagr fuel (NSE.Fetched Examples.year_apart)
                                        1 None 0 = None).
Proof.
  destruct zero_stride_never_returns as [Hyahoo Hnse].
  split.
  - apply Hyahoo. py_run. reflexivity.
  - apply Hnse. py_run. reflexivity.
Defined.

End LoopsEnd.

(** ** The order of the input of the mutual-fund routine *)

Section InputOrder.
Import Py Frame.

Variable A : Type.
Variable key : A -> Z.

Lemma insert_by_perm (x : A) (l : list A) :
  Permutation (insert_by key x l) (x :: l).
Proof.
  induction l as [|y l IH]; simpl; [reflexivity|].
  destruct (key x <=? key y)%Z; [reflexivity|].
  eapply Permutation_trans; [apply perm_skip, IH|]. apply perm_swap.
Qed.

Lemma sort_values_perm (l : list A) : Permutation (sort_values key l) l.
Proof.
  induction l as [|x l IH]; simpl; [reflexivity|].
  eapply Permutation_trans; [apply insert_by_perm|]. constructor. exact IH.
Qed.

Lemma insert_by_sorted (x : A) (l : list A) :
  StronglySorted (fun a b => (key a <= key b)%Z) l ->
  StronglySorted (fun a b => (key a <= key b)%Z) (insert_by key x l).
Proof.
  intros H. induction H as [|y l Hs IH Hall]; simpl.
  - constructor; constructor.
  - destruct (key x <=? key y)%Z eqn:E.
    + apply Z.leb_le in E. constructor; [constructor; assumption|].
      constructor; [lia|]. eapply Forall_impl; [|exact Hall].
      intros b Hb. simpl in Hb. lia.
    + apply Z.leb_gt in E. constructor; [exact IH|].
      rewrite Forall_forall in *. intros b Hb.
      apply (Permutation_in _ (insert_by_perm x l)) in Hb.
      destruct Hb as [<-|Hb]; [lia | apply Hall, Hb].
Qed.

Lemma sort_values_sorted (l : list A) :
  StronglySorted (fun a b => (key a <= key b)%Z) (sort_values key l).
Proof.
  induction l as [|x l IH]; simpl; [constructor|].
  apply insert_by_sorted, IH.
Qed.

(** Sorted rows with distinct keys are strictly sorted. *)
Lemma sorted_distinct (l : list A) :
  StronglySorted (fun a b => (key a <= key b)%Z) l ->
  NoDup (map key l) ->
  StronglySorted (fun a b => (key a < key b)%Z) l.
Proof.
  intros H. induction H as [|x l Hs IH Hall]; intros Hnd; [constructor|].
  simpl in Hnd. inversion Hnd as [|k ks Hnotin Hnd']; subst.
  constructor; [apply IH, Hnd'|].
  rewrite Forall_forall in *. intros b Hb.
  specialize (Hall b Hb). simpl in Hall.
  assert (key x <> key b).
  { intros E. apply Hnotin. rewrite E. apply in_map, Hb. }
  lia.
Qed.

(** Two strictly sorted lists with the same rows are the same list. *)
Lemma strictly_sorted_unique (l1 : list A) :
  forall l2,
    StronglySorted (fun a b => (key a < key b)%Z) l1 ->
    StronglySorted (fun a b => (key a < key b)%Z) l2 ->
    Permutation l1 l2 -> l1 = l2.
Proof.
  induction l1 as [|a l1 IH]; intros l2 H1 H2 Hp.
  - apply Permutation_nil in Hp. congruence.
  - destruct l2 as [|b l2];
      [apply Permutation_sym, Permutation_nil in Hp; discriminate|].
    inversion H1 as [|? ? Hs1 Hall1]; subst.
    inversion H2 as [|? ? Hs2 Hall2]; subst.
    rewrite Forall_forall in Hall1, Hall2.
    assert (Hab : a = b).
    { assert (Ha : In a (b :: l2)) by (apply (Permutation_in _ Hp); now left).
      assert (Hb : In b (a :: l1))
        by (apply (Permutation_in _ (Permutation_sym Hp)); now left).
      destruct Ha as [Ha|Ha]; [congruence|].
      destruct Hb as [Hb|Hb]; [congruence|].
      specialize (Hall1 b Hb). specialize (Hall2 a Ha). simpl in *. lia. }
    subst b. f_equal. apply IH; try assumption.
    eapply Permutation_cons_inv; exact Hp.
Qed.

Lemma sort_values_order_free (l l' : list A) :
  Permutation l l' -> NoDup (map key l) ->
  sort_values key l = sort_values key l'.
Proof.
  intros Hp Hnd.
  assert (Hp' : Permutation (sort_values key l) (sort_values key l')).
  { eapply Permutation_trans; [apply sort_values_perm|].
    eapply Permutation_trans; [exact Hp|].
    apply Permutation_sym, sort_values_perm. }
  apply strictly_sorted_unique; [| |exact Hp'].
  - apply sorted_distinct; [apply sort_values_sorted|].
    eapply Permutation_NoDup; [|exact Hnd].
    apply Permutation_map, Permutation_sym, sort_values_perm.
  - apply sorted_distinct; [apply sort_values_sorted|].
    eapply Permutation_NoDup; [|exact Hnd].
    apply Permutation_map.
    eapply Permutation_trans; [exact Hp|].
    apply Permutation_sym, sort_values_perm.
Qed.

End InputOrder.

Section InputOrderMF.

(** X7.  The mutual-fund analysis does not depend on the order in which
    the observations arrive, their dates being distinct: any rearrangement
    of the input, such as the newest-first order of the service, gives the
    same report. *)
Theorem mf_rolling_order_free (data data' : list MF.Point)
    (window_years : Z)
    (Hperm : Permutation data data')
    (Hdistinct : NoDup (map MF.date data)) :
  MF.calculate_rolling_cagr data window_years
  = MF.calculate_rolling_cagr data' window_years.
Proof.
  unfold MF.calculate_rolling_cagr. cbv zeta.
  rewrite (sort_values_order_free MF.date Hperm Hdistinct). reflexivity.
Qed.

Lemma mf_rolling_order_free_witness :
  MF.calculate_rolling_cagr Examples.two_navs 1
  = MF.calculate_rolling_cagr (rev Examples.two_navs) 1.
Proof.
  apply mf_rolling_order_free.
  - apply Permutation_rev.
  - repeat constructor; simpl; intuition discriminate.
Defined.

End InputOrderMF.

(** ** One date of the Yahoo history *)

Section NearestDate.
Import Py Frame.

Local Abbreviation dist target q := (Z.abs (YahooFetch.date q - target)).

(** [idxmin] answers the date of [best] when no later row is closer, and
    otherwise that of the first row that is closer than all before it and
    no farther than all after it. *)
Lemma idxmin_first (target : Z) (rest : list YahooFetch.Quote) :
  forall best,
    (YahooFetch.idxmin target best rest = YahooFetch.date best
     /\ Forall (fun q => (dist target best <= dist target q)%Z) rest)
    \/ (exists l1 r l2,
           rest = l1 ++ r :: l2
           /\ YahooFetch.idxmin target best rest = YahooFetch.date r
           /\ (dist target r < dist target best)%Z
           /\ Forall (fun q => (dist target r < dist target q)%Z) l1
           /\ Forall (fun q => (dist target r <= dist target q)%Z) l2).
Proof.
  induction rest as [|q rest IH]; intros best; simpl.
  - left. split; [reflexivity | constructor].
  - destruct (Z.abs (YahooFetch.date q - target)
              <? Z.abs (YahooFetch.date best - target))%Z eqn:E.
    + apply Z.ltb_lt in E.
      destruct (IH q) as [[Hd Hall] | (l1 & r & l2 & Hs & Hd & Hlt & H1 & H2)].
      * right. exists [], q, rest. repeat split; try assumption.
        constructor.
      * right. exists (q :: l1), r, l2. subst rest.
        repeat split; try assumption; [lia|].
        constructor; assumption.
    + apply Z.ltb_ge in E.
      destruct (IH best) as [[Hd Hall] | (l1 & r & l2 & Hs & Hd & Hlt & H1 & H2)].
      * left. split; [exact Hd|]. constructor; assumption.
      * right. exists (q :: l1), r, l2. subst rest.
        repeat split; try assumption.
        constructor; [lia | assumption].
Qed.

(** The first row a filter keeps, and the rows before it. *)
Lemma filter_first (A : Type) (p : A -> bool) (l : list A) :
  forall row others,
    filter p l = row :: others ->
    exists l1 l2,
      l = l1 ++ row :: l2 /\ p row = true
      /\ Forall (fun q => p q = false) l1.
Proof.
  induction l as [|x l IH]; intros row others H; simpl in H; [discriminate|].
  destruct (p x) eqn:E.
  - injection H as -> _. exists [], l. repeat split; [exact E | constructor].
  - destruct (IH _ _ H) as (l1 & l2 & -> & Hp & Hall).
    exists (x :: l1), l2. repeat split; [exact Hp|].
    constructor; assumption.
Qed.

(** A row is the only one of its date when the dates are distinct. *)
Lemma filter_date_unique (l1 l2 : list YahooFetch.Quote) (r : YahooFetch.Quote) :
  NoDup (map YahooFetch.date (l1 ++ r :: l2)) ->
  filter (fun q => (YahooFetch.date q =? YahooFetch.date r)%Z) (l1 ++ r :: l2)
  = [r].
Proof.
  intros Hnd. rewrite filter_app. simpl. rewrite Z.eqb_refl.
  rewrite map_app in Hnd. simpl in Hnd.
  assert (Hout : forall l,
             ~ In (YahooFetch.date r) (map YahooFetch.date l) ->
             filter (fun q => (YahooFetch.date q =? YahooFetch.date r)%Z) l
             = []).
  { induction l as [|x l IH]; intros Hn; simpl; [reflexivity|].
    simpl in Hn. destruct (Z.eqb_spec (YahooFetch.date x) (YahooFetch.date r)).
    - exfalso. apply Hn. now left.
    - apply IH. intros Hin. apply Hn. now right. }
  pose proof (NoDup_remove_2 _ _ _ Hnd) as Hnot.
  rewrite (Hout l1), (Hout l2); [reflexivity| |];
    intros Hin; apply Hnot, in_or_app; [right | left]; exact Hin.
Qed.

(** The row [idxmin] points to: the nearest to the target, the earliest
    among equally near ones, and the only row of its date. *)
Lemma closest_row (first_row : YahooFetch.Quote) (rest : list YahooFetch.Quote)
    (target : Z) :
  NoDup (map YahooFetch.date (first_row :: rest)) ->
  exists l1 row l2,
    first_row :: rest = l1 ++ row :: l2
    /\ filter (fun q => (YahooFetch.date q
                         =? YahooFetch.idxmin target first_row rest)%Z)
              (first_row :: rest) = [row]
    /\ Forall (fun q => (dist target row < dist target q)%Z) l1
    /\ Forall (fun q => (dist target row <= dist target q)%Z) l2.
Proof.
  intros Hdistinct.
  destruct (idxmin_first target rest first_row)
    as [[Hd Hall] | (l1 & r & l2 & Hs & Hd & Hlt & H1 & H2)].
  - exists [], first_row, rest. rewrite Hd.
    pose proof (@filter_date_unique [] rest first_row Hdistinct) as Hu.
    simpl app in Hu. rewrite Hu.
    repeat split; [constructor | exact Hall].
  - exists (first_row :: l1), r, l2. rewrite Hd. subst rest.
    pose proof (@filter_date_unique (first_row :: l1) l2 r Hdistinct) as Hu.
    rewrite <- app_comm_cons in Hu. rewrite Hu.
    repeat split; [|exact H2]. constructor; assumption.
Qed.

(** X8.  A history that is not empty and has distinct dates gives a row
    for every date text [strptime] reads: the one of the target date when
    there is one, and otherwise the row nearest to it, the earliest in the
    history among equally near ones.  The answer is marked as an exact
    match exactly when the row has the target date and the text asked for
    is the one [strftime('%d-%m-%Y')] writes for it.  A text [strptime]
    rejects gives the error dictionary of the [except] branch. *)
Theorem fetch_index_data_nearest (hist_data : list YahooFetch.Quote)
    (target_dt : Z) (padded : bool)
    (Hrows : hist_data <> [])
    (Hdistinct : NoDup (map YahooFetch.date hist_data)) :
  let target_date := Denotes target_dt padded in
  (exists l1 row l2,
      hist_data = l1 ++ row :: l2
      /\ YahooFetch.fetch_index_data hist_data target_date
         = YahooFetch.Found
             (YahooFetch.describe target_date
                (padded && (YahooFetch.date row =? target_dt)%Z) row)
      /\ Forall (fun q => (dist target_dt row < dist target_dt q)%Z) l1
      /\ Forall (fun q => (dist target_dt row <= dist target_dt q)%Z) l2)
  /\ YahooFetch.fetch_index_data hist_data Rejected
     = YahooFetch.NotFound YahooFetch.Crashed.
Proof.
  intros target_date. split; [|reflexivity].
  destruct hist_data as [|first_row rest]; [congruence|].
  unfold YahooFetch.fetch_index_data, target_date.
  destruct (YahooFetch.rows_written_as (first_row :: rest) target_dt padded)
    as [|row others] eqn:Ef.
  - (* no row is written as the text *)
    cbv zeta.
    destruct (closest_row target_dt Hdistinct)
      as (l1 & row & l2 & Hs & Hu & H1 & H2).
    exists l1, row, l2. rewrite Hu.
    assert (Hexact : padded && (YahooFetch.date row =? target_dt)%Z = false).
    { destruct padded; [|reflexivity]. cbn [andb].
      apply Z.eqb_neq. intros Heq.
      assert (Hq : In row (YahooFetch.rows_written_as (first_row :: rest)
                             target_dt true)).
      { unfold YahooFetch.rows_written_as. apply filter_In. split.
        - rewrite Hs. apply in_or_app. right. now left.
        - apply Z.eqb_eq. exact Heq. }
      rewrite Ef in Hq. exact Hq. }
    rewrite Hexact. repeat split; assumption.
  - unfold YahooFetch.rows_written_as in Ef.
    destruct padded; [|discriminate].
    destruct (filter_first _ _ Ef) as (l1 & l2 & Hs & Hp & Hall).
    apply Z.eqb_eq in Hp.
    exists l1, row, l2. rewrite (proj2 (Z.eqb_eq _ _) Hp). cbn [andb].
    repeat split; [exact Hs | |].
    + eapply Forall_impl; [|exact Hall]. intros q Hq. simpl in Hq.
      apply Z.eqb_neq in Hq. lia.
    + rewrite Forall_forall. intros q _. lia.
Qed.

End NearestDate.

Section NearestDateWitness.
Import Py.

Lemma fetch_index_data_nearest_witness :
  (exists l1 row l2,
      MoreExamples.week_quotes = l1 ++ row :: l2
      /\ YahooFetch.fetch_index_data MoreExamples.week_quotes
                                     (Denotes 13 false)
         = YahooFetch.Found
             (YahooFetch.describe (Denotes 13 false)
                (false && (YahooFetch.date row =? 13)%Z) row)
      /\ Forall (fun q => (Z.abs (YahooFetch.date row - 13)
                           < Z.abs (YahooFetch.date q - 13))%Z) l1
      /\ Forall (fun q => (Z.abs (YahooFetch.date row - 13)
                           <= Z.abs (YahooFetch.date q - 13))%Z) l2)
  /\ YahooFetch.fetch_index_data MoreExamples.week_quotes Rejected
     = YahooFetch.NotFound YahooFetch.Crashed.
Proof.
  apply (@fetch_index_data_nearest MoreExamples.week_quotes 13 false).
  - discriminate.
  - repeat constructor; simpl; intuition discriminate.
Defined.

End NearestDateWitness.

(** ** The whole Yahoo history *)

Section WholeHistory.
Import Py Frame.

Lemma index_min_le (l : list Yahoo.Bar) :
  forall d, (Yahoo.index_min d l <= d)%Z
            /\ forall b, In b l -> (Yahoo.index_min d l <= Yahoo.date b)%Z.
Proof.
  unfold Yahoo.index_min.
  induction l as [|x l IH]; intros d; simpl; [split; [lia | tauto]|].
  destruct (IH (Z.min d (Yahoo.date x))) as [H1 H2].
  split; [lia|]. intros b [<-|Hb]; [lia | apply H2, Hb].
Qed.

Lemma index_max_ge (l : list Yahoo.Bar) :
  forall d, (d <= Yahoo.index_max d l)%Z
            /\ forall b, In b l -> (Yahoo.date b <= Yahoo.index_max d l)%Z.
Proof.
  unfold Yahoo.index_max.
  induction l as [|x l IH]; intros d; simpl; [split; [lia | tauto]|].
  destruct (IH (Z.max d (Yahoo.date x))) as [H1 H2].
  split; [lia|]. intros b [<-|Hb]; [lia | apply H2, Hb].
Qed.

(** The overall change in percent has the sign of the difference of the
    closes. *)
Lemma percentage_sign (s e : Q) :
  0 < s ->
  (s <= e -> (0 <= Q2R ((e - s) / s * 100))%R)
  /\ (e <= s -> (Q2R ((e - s) / s * 100) <= 0)%R).
Proof.
  intros Hs. pose proof (Q2R_pos Hs) as Rs.
  assert (Hne : ~ s == 0) by (apply Q2R_pos_neq, Hs).
  assert (E : Q2R ((e - s) / s * 100) = ((Q2R e - Q2R s) / Q2R s * 100)%R).
  { rewrite Q2R_mult, Q2R_div, Q2R_minus by exact Hne.
    f_equal. unfold Q2R; simpl; lra. }
  rewrite E. split; intros H; apply Qle_Rle in H.
  - apply Rmult_le_pos; [|lra].
    apply Rmult_le_pos; [lra|]. left. apply Rinv_0_lt_compat, Rs.
  - assert (0 <= (Q2R s - Q2R e) / Q2R s * 100)%R; [|lra].
    apply Rmult_le_pos; [|lra].
    apply Rmult_le_pos; [lra|]. left. apply Rinv_0_lt_compat, Rs.
Qed.

(** X9.  For a history whose first and last closes are positive and which
    spans more than one date, the quotient of the two closes, the exponent
    and the rate being within the floats, the summary carries the rate of
    the first and last closes over the span between the earliest and the
    latest date, rounded to two decimals; no date of the history lies
    outside that span, and the rate and the overall change in percent never
    have opposite signs. *)
Theorem history_rate_and_change (first_bar : Yahoo.Bar) (rest : list Yahoo.Bar)
    (Hfirst : 0 < Yahoo.Close first_bar)
    (Hlast : 0 < Yahoo.Close (last (first_bar :: rest) first_bar))
    (Hspan : exists b, In b rest /\ Yahoo.date b <> Yahoo.date first_bar)
    (Hfit : Spec.in_range
              (Yahoo.Close first_bar)
              (Yahoo.Close (last (first_bar :: rest) first_bar))
              (Spec.elapsed_years
                 (Yahoo.index_min (Yahoo.date first_bar) rest)
                 (Yahoo.index_max (Yahoo.date first_bar) rest))) :
  let hist_data := first_bar :: rest in
  let first_close := Yahoo.Close first_bar in
  let last_close := Yahoo.Close (last hist_data first_bar) in
  exists h c,
    YahooFetch.fetch_all_historical_data hist_data = YahooFetch.Done h
    /\ YahooFetch.cagr h = Some c
    /\ c = round2 (Spec.cagr first_close last_close
                     (Spec.elapsed_years (YahooFetch.earliest_date h)
                                         (YahooFetch.latest_date h)))
    /\ (forall b, In b hist_data ->
          (YahooFetch.earliest_date h <= Yahoo.date b
           <= YahooFetch.latest_date h)%Z)
    /\ (first_close <= last_close ->
        (0 <= c)%R /\ (0 <= YahooFetch.percentage_change h)%R)
    /\ (last_close <= first_close ->
        (c <= 0)%R /\ (YahooFetch.percentage_change h <= 0)%R).
Proof.
  intros hist_data first_close last_close.
  set (earliest := Yahoo.index_min (Yahoo.date first_bar) rest).
  set (latest := Yahoo.index_max (Yahoo.date first_bar) rest).
  destruct (index_min_le rest (Yahoo.date first_bar)) as [Hmin0 Hmin].
  destruct (index_max_ge rest (Yahoo.date first_bar)) as [Hmax0 Hmax].
  fold earliest in Hmin0, Hmin. fold latest in Hmax0, Hmax.
  assert (Hdates : (earliest < latest)%Z).
  { destruct Hspan as (b & Hb & Hne).
    specialize (Hmin b Hb). specialize (Hmax b Hb). lia. }
  pose proof (elapsed_years_pos Hdates) as Hy.
  destruct (spec_cagr_sign Hfirst Hlast Hy) as (Hup & Hdown & Hflat).
  destruct (percentage_sign last_close Hfirst) as [Pup Pdown].
  fold first_close in Hup, Hdown, Hflat, Pup, Pdown.
  fold hist_data last_close in Hup, Hdown, Hflat.
  exists {| YahooFetch.earliest_date := earliest;
            YahooFetch.latest_date := latest;
            YahooFetch.first_close := round2 (Q2R first_close);
            YahooFetch.last_close := round2 (Q2R last_close);
            YahooFetch.absolute_change := round2 (Q2R (last_close - first_close));
            YahooFetch.percentage_change :=
              round2 (Q2R ((last_close - first_close) / first_close * 100));
            YahooFetch.cagr :=
              Some (round2 (Spec.cagr first_close last_close
                              (Spec.elapsed_years earliest latest)));
            YahooFetch.days_diff := (latest - earliest)%Z;
            YahooFetch.years_diff :=
              round2 (Q2R (inject_Z (latest - earliest) / 365.25));
            YahooFetch.total_data_points := length hist_data |}.
  eexists. split; [|split; [reflexivity|split; [reflexivity|]]].
  - subst hist_data first_close last_close.
    unfold YahooFetch.fetch_all_historical_data. cbv zeta.
    fold earliest latest.
    rewrite (@yahoo_cagr_positive _ _ earliest latest Hfirst Hlast Hy
               (in_range_growth Hfit)).
    cbn [bind].
    rewrite (div_ok _ (Q2R_pos_neq Hfirst)).
    reflexivity.
  - cbn [YahooFetch.earliest_date YahooFetch.latest_date
         YahooFetch.percentage_change].
    split; [|split].
    + intros b [<-|Hb]; [lia|]. split; [apply Hmin, Hb | apply Hmax, Hb].
    + intros Hle. split; [|apply round2_nonneg, Pup, Hle].
      apply round2_nonneg.
      destruct (Qlt_le_dec first_close last_close) as [Hlt|Hge].
      * left. apply Hup, Hlt.
      * right. symmetry. apply Hflat. apply Qle_antisym; assumption.
    + intros Hle. split; [|apply round2_nonpos, Pdown, Hle].
      apply round2_nonpos.
      destruct (Qlt_le_dec last_close first_close) as [Hlt|Hge].
      * left. apply Hdown, Hlt.
      * right. apply Hflat. apply Qle_antisym; assumption.
Qed.

Lemma history_rate_and_change_witness :
  exists h c,
    YahooFetch.fetch_all_historical_data Examples.short_history
    = YahooFetch.Done h
    /\ YahooFetch.cagr h = Some c
    /\ c = round2 (Spec.cagr 100 110
                     (Spec.elapsed_years (YahooFetch.earliest_date h)
                                         (YahooFetch.latest_date h)))
    /\ (forall b, In b Examples.short_history ->
          (YahooFetch.earliest_date h <= Yahoo.date b
           <= YahooFetch.latest_date h)%Z)
    /\ (100 <= 110 ->
        (0 <= c)%R /\ (0 <= YahooFetch.percentage_change h)%R)
    /\ (110 <= 100 ->
        (c <= 0)%R /\ (YahooFetch.percentage_change h <= 0)%R).
Proof.
  apply (@history_rate_and_change
           {| Yahoo.date := 0; Yahoo.Close := 100 |}
           [{| Yahoo.date := 360; Yahoo.Close := 110 |}]).
  - reflexivity.
  - reflexivity.
  - eexists. split; [left; reflexivity | discriminate].
  - apply in_range_moderate. reflexivity.
Defined.

(** X10.  Where the summary of the whole history fails or has no rate: a
    first close of zero ends in the division by zero of the change in
    percent; a negative last close after a positive first one, the history
    spanning more than one date and the quotient of the closes being in
    size neither below the least float of full precision nor beyond the
    largest float, ends in the rounding of a complex number ([TypeError])
    when the size of the power is within the floats and in
    [OverflowError] when it is beyond them; and a history all of one date
    has no rate. *)
Theorem history_without_rate (first_bar : Yahoo.Bar) (rest : list Yahoo.Bar) :
  let hist_data := first_bar :: rest in
  (Yahoo.Close first_bar == 0 ->
   YahooFetch.fetch_all_historical_data hist_data
   = YahooFetch.Failed (YahooFetch.Exception ZeroDivisionError))
  /\ (0 < Yahoo.Close first_bar ->
      Yahoo.Close (last hist_data first_bar) < 0 ->
      (exists b, In b rest /\ Yahoo.date b <> Yahoo.date first_bar) ->
      (min_float
       <= Q2R (- Yahoo.Close (last hist_data first_bar))
          / Q2R (Yahoo.Close first_bar)
       <= max_float)%R ->
      let size :=
        Spec.growth (Yahoo.Close first_bar)
                    (- Yahoo.Close (last hist_data first_bar))
                    (Spec.elapsed_years
                       (Yahoo.index_min (Yahoo.date first_bar) rest)
                       (Yahoo.index_max (Yahoo.date first_bar) rest)) in
      ((size <= max_float)%R ->
       YahooFetch.fetch_all_historical_data hist_data
       = YahooFetch.Failed (YahooFetch.Exception TypeError))
      /\ ((max_float < size)%R ->
          YahooFetch.fetch_all_historical_data hist_data
          = YahooFetch.Failed (YahooFetch.Exception OverflowError)))
  /\ (~ Yahoo.Close first_bar == 0 ->
      (forall b, In b rest -> Yahoo.date b = Yahoo.date first_bar) ->
      exists h,
        YahooFetch.fetch_all_historical_data hist_data = YahooFetch.Done h
        /\ YahooFetch.cagr h = None
        /\ YahooFetch.days_diff h = 0%Z).
Proof.
  intros hist_data.
  set (earliest := Yahoo.index_min (Yahoo.date first_bar) rest).
  set (latest := Yahoo.index_max (Yahoo.date first_bar) rest).
  destruct (index_min_le rest (Yahoo.date first_bar)) as [Hmin0 Hmin].
  destruct (index_max_ge rest (Yahoo.date first_bar)) as [Hmax0 Hmax].
  fold earliest in Hmin0, Hmin. fold latest in Hmax0, Hmax.
  split; [|split].
  - intros Hzero.
    unfold YahooFetch.fetch_all_historical_data, hist_data. cbv zeta.
    unfold Yahoo.calculate_cagr. cbv zeta.
    assert (Hg : le0 (Yahoo.Close first_bar) = true).
    { apply le0_true. rewrite Hzero. apply Qle_refl. }
    rewrite Hg, orb_true_r. cbn [bind]. unfold div.
    rewrite (proj2 (Qeq_bool_iff _ _) Hzero). reflexivity.
  - intros Hfirst Hlast (b & Hb & Hne) _ size.
    assert (Hdates : (earliest < latest)%Z).
    { specialize (Hmin b Hb). specialize (Hmax b Hb). lia. }
    subst hist_data.
    destruct (yahoo_cagr_negative_end Hfirst Hdates Hlast) as [Hin Hout].
    fold size in Hin, Hout.
    unfold YahooFetch.fetch_all_historical_data. cbv zeta.
    fold earliest latest.
    split; intros H.
    + rewrite (Hin H). cbn [bind].
      rewrite (div_ok _ (Q2R_pos_neq Hfirst)). reflexivity.
    + rewrite (Hout H). reflexivity.
  - intros Hne Hsame.
    assert (He : earliest = Yahoo.date first_bar).
    { pose proof (index_min_In rest (Yahoo.date first_bar)) as [H|H];
        [symmetry; exact H|].
      apply in_map_iff in H. destruct H as (b & Hd & Hb).
      fold earliest in Hd. rewrite <- Hd. apply Hsame, Hb. }
    assert (Hl : latest = Yahoo.date first_bar).
    { pose proof (index_max_In rest (Yahoo.date first_bar)) as [H|H];
        [symmetry; exact H|].
      apply in_map_iff in H. destruct H as (b & Hd & Hb).
      fold latest in Hd. rewrite <- Hd. apply Hsame, Hb. }
    subst hist_data.
    unfold YahooFetch.fetch_all_historical_data. cbv zeta.
    fold earliest latest.
    unfold Yahoo.calculate_cagr. cbv zeta.
    rewrite He, Hl, Z.sub_diag.
    replace (le0 (inject_Z 0 / 365.25)) with true by reflexivity.
    cbn [orb bind]. rewrite (div_ok _ Hne). cbn [bind Yahoo.round_cagr].
    eexists. split; [reflexivity|]. split; reflexivity.
Qed.

Lemma history_without_rate_witness :
  YahooFetch.fetch_all_historical_data Examples.zero_start
  = YahooFetch.Failed (YahooFetch.Exception ZeroDivisionError)
  /\ YahooFetch.fetch_all_historical_data MoreExamples.negative_close
     = YahooFetch.Failed (YahooFetch.Exception TypeError)
  /\ YahooFetch.fetch_all_historical_data MoreExamples.negative_in_a_day
     = YahooFetch.Failed (YahooFetch.Exception OverflowError)
  /\ exists h,
       YahooFetch.fetch_all_historical_data MoreExamples.one_close
       = YahooFetch.Done h
       /\ YahooFetch.cagr h = None
       /\ YahooFetch.days_diff h = 0%Z.
Proof.
  pose proof max_float_large as L. pose proof min_float_small as M.
  assert (H100 : (10 <= IZR (2 ^ 100))%R) by (apply IZR_le; discriminate).
  split; [|split; [|split]].
  - apply (proj1 (history_without_rate
                    {| Yahoo.date := 0; Yahoo.Close := 0 |}
                    [{| Yahoo.date := 365; Yahoo.Close := 10 |}])).
    reflexivity.
  - apply (proj1 (proj2 (history_without_rate
                    {| Yahoo.date := 0; Yahoo.Close := 100 |}
                    [{| Yahoo.date := 1461; Yahoo.Close := -50 |}]))).
    + reflexivity.
    + reflexivity.
    + eexists. split; [left; reflexivity | discriminate].
    + replace (Q2R _ / Q2R _)%R with (/ 2)%R
        by (unfold Q2R; simpl; lra).
      lra.
    + exact half_size_fits.
  - apply (proj1 (proj2 (history_without_rate
                    {| Yahoo.date := 0; Yahoo.Close := 1 |}
                    [{| Yahoo.date := 1; Yahoo.Close := -10 |}]))).
    + reflexivity.
    + reflexivity.
    + eexists. split; [left; reflexivity | discriminate].
    + replace (Q2R _ / Q2R _)%R with 10%R
        by (unfold Q2R; simpl; lra).
      lra.
    + exact ten_in_a_day.
  - apply (proj2 (proj2 (history_without_rate
                    {| Yahoo.date := 7; Yahoo.Close := 100 |} []))).
    + discriminate.
    + intros b [].
Defined.

End WholeHistory.

(** ** The figures of the mutual-fund page *)

Section SinceFirstNav.
Import Py Frame.

Lemma inject_Z_succ (z : Z) : inject_Z (z + 1) == inject_Z z + 1.
Proof. rewrite inject_Z_plus. reflexivity. Qed.

Lemma inject_Z_sub (a b : Z) : inject_Z (a - b) == inject_Z a - inject_Z b.
Proof.
  unfold Z.sub. rewrite inject_Z_plus, inject_Z_opp. reflexivity.
Qed.

(** The rounded integer is within a half of the number. *)
Lemma round_half_even_Q_near (x : Q) :
  inject_Z (MFApp.round_half_even_Q x) - (1 # 2) <= x
  /\ x <= inject_Z (MFApp.round_half_even_Q x) + (1 # 2).
Proof.
  unfold MFApp.round_half_even_Q. cbv zeta.
  pose proof (Qfloor_le x) as Hlo.
  pose proof (Qlt_floor x) as Hhi. rewrite inject_Z_succ in Hhi.
  destruct (Qcompare (x - inject_Z (Qfloor x)) (1 # 2)) eqn:E.
  - apply Qeq_alt in E.
    destruct (Z.even (Qfloor x)); rewrite ?inject_Z_succ; split; lra.
  - apply Qlt_alt in E. split; lra.
  - apply Qgt_alt in E. rewrite inject_Z_succ. split; lra.
Qed.

(** Below a half the rounded integer is not positive. *)
Lemma round_half_even_Q_low (x : Q) :
  x < 1 # 2 -> (MFApp.round_half_even_Q x <= 0)%Z.
Proof.
  intros H. unfold MFApp.round_half_even_Q. cbv zeta.
  pose proof (Qfloor_le x) as Hlo.
  assert (Hf : (Qfloor x <= 0)%Z).
  { assert (Hq : inject_Z (Qfloor x) < inject_Z 1).
    { change (inject_Z 1) with 1. lra. }
    rewrite <- Zlt_Qlt in Hq. lia. }
  destruct (Qcompare (x - inject_Z (Qfloor x)) (1 # 2)) eqn:E.
  - apply Qeq_alt in E.
    assert (Hneg : (Qfloor x < 0)%Z).
    { assert (Hq : inject_Z (Qfloor x) < inject_Z 0).
      { change (inject_Z 0) with 0. lra. }
      rewrite <- Zlt_Qlt in Hq. exact Hq. }
    destruct (Z.even (Qfloor x)); lia.
  - exact Hf.
  - apply Qgt_alt in E.
    assert (Hneg : (Qfloor x < 0)%Z).
    { assert (Hq : inject_Z (Qfloor x) < inject_Z 0).
      { change (inject_Z 0) with 0. lra. }
      rewrite <- Zlt_Qlt in Hq. exact Hq. }
    lia.
Qed.

Lemma round1_tenths (x : Q) :
  MFApp.round1 x == inject_Z (MFApp.round_half_even_Q (x * 10)) * (1 # 10).
Proof. unfold MFApp.round1. reflexivity. Qed.

(** Fewer than nineteen days are no tenth of a year. *)
Lemma years_since_nfo_short (start end_ : Z) :
  (end_ - start <= 18)%Z ->
  MFApp.calculate_years_since_nfo (Some start) (Some end_) <= 0.
Proof.
  intros H. unfold MFApp.calculate_years_since_nfo. cbv zeta.
  rewrite round1_tenths.
  fold (Spec.elapsed_years start end_).
  assert (Hx : Spec.elapsed_years start end_ * 10 < 1 # 2).
  { rewrite elapsed_years_minus.
    assert (Hq : inject_Z (end_ - start) <= inject_Z 18)
      by (rewrite <- Zle_Qle; exact H).
    rewrite inject_Z_sub in Hq.
    change (inject_Z 18) with 18 in Hq. lra. }
  pose proof (round_half_even_Q_low Hx) as Hr.
  assert (Hq : inject_Z (MFApp.round_half_even_Q
                           (Spec.elapsed_years start end_ * 10))
               <= inject_Z 0) by (rewrite <- Zle_Qle; exact Hr).
  change (inject_Z 0) with 0 in Hq. lra.
Qed.

(** From nineteen days on the years are positive and within a twentieth of
    the days over 365.25. *)
Lemma years_since_nfo_long (start end_ : Z) :
  (19 <= end_ - start)%Z ->
  let years := MFApp.calculate_years_since_nfo (Some start) (Some end_) in
  0 < years
  /\ years - (1 # 20) <= Spec.elapsed_years start end_
  /\ Spec.elapsed_years start end_ <= years + (1 # 20).
Proof.
  intros H years. unfold years, MFApp.calculate_years_since_nfo. cbv zeta.
  rewrite round1_tenths.
  fold (Spec.elapsed_years start end_).
  destruct (round_half_even_Q_near (Spec.elapsed_years start end_ * 10))
    as [Hlo Hhi].
  assert (Hx : 1 # 2 < Spec.elapsed_years start end_ * 10).
  { rewrite elapsed_years_minus.
    assert (Hq : inject_Z 19 <= inject_Z (end_ - start))
      by (rewrite <- Zle_Qle; exact H).
    rewrite inject_Z_sub in Hq.
    change (inject_Z 19) with 19 in Hq. lra. }
  assert (Hr : (1 <= MFApp.round_half_even_Q
                       (Spec.elapsed_years start end_ * 10))%Z).
  { assert (Hq : inject_Z 0 < inject_Z (MFApp.round_half_even_Q
                                          (Spec.elapsed_years start end_ * 10))).
    { change (inject_Z 0) with 0. lra. }
    rewrite <- Zlt_Qlt in Hq. lia. }
  assert (Hq : inject_Z 1 <= inject_Z (MFApp.round_half_even_Q
                                          (Spec.elapsed_years start end_ * 10)))
    by (rewrite <- Zle_Qle; exact Hr).
  change (inject_Z 1) with 1 in Hq.
  repeat split; lra.
Qed.

(** Strictly within a half of zero the rounded integer is zero. *)
Lemma round_half_even_Q_zero (x : Q) :
  - (1 # 2) < x -> x < 1 # 2 -> MFApp.round_half_even_Q x = 0%Z.
Proof.
  intros Hlo Hhi.
  destruct (round_half_even_Q_near x) as [Hn1 Hn2].
  assert (H1 : inject_Z (-1) < inject_Z (MFApp.round_half_even_Q x)).
  { change (inject_Z (-1)) with (- (1)). lra. }
  assert (H2 : inject_Z (MFApp.round_half_even_Q x) < inject_Z 1).
  { change (inject_Z 1) with 1. lra. }
  rewrite <- Zlt_Qlt in H1, H2. lia.
Qed.

(** Up to eighteen days either way are no tenth of a year. *)
Lemma years_since_nfo_none (start end_ : Z) :
  (-18 <= end_ - start <= 18)%Z ->
  MFApp.calculate_years_since_nfo (Some start) (Some end_) == 0.
Proof.
  intros [Hlo Hhi]. unfold MFApp.calculate_years_since_nfo. cbv zeta.
  rewrite round1_tenths.
  fold (Spec.elapsed_years start end_).
  assert (Hq1 : inject_Z (-18) <= inject_Z (end_ - start))
    by (rewrite <- Zle_Qle; exact Hlo).
  assert (Hq2 : inject_Z (end_ - start) <= inject_Z 18)
    by (rewrite <- Zle_Qle; exact Hhi).
  rewrite inject_Z_sub in Hq1, Hq2.
  change (inject_Z 18) with 18 in Hq2.
  change (inject_Z (-18)) with (- (18)) in Hq1.
  rewrite round_half_even_Q_zero.
  - change (inject_Z 0) with 0. lra.
  - rewrite elapsed_years_minus. lra.
  - rewrite elapsed_years_minus. lra.
Qed.

(** X11.  A fund whose first and latest NAV are fewer than nineteen days
    apart, or whose dates are reversed or cannot be read, has years since
    its first NAV that are not positive, and is shown a rate of 0.0 since
    its first NAV, whatever the NAVs are.  The years are exactly 0.0 when
    the two dates are at most eighteen days apart either way, and when one
    of them cannot be read. *)
Theorem short_history_rate_zero (latest_data : MFApp.Entry)
    (older : list MFApp.Entry)
    (Hshort : forall nfo_date latest_date,
        MFApp.date (last (latest_data :: older) latest_data) = Some nfo_date ->
        MFApp.date latest_data = Some latest_date ->
        (latest_date - nfo_date <= 18)%Z) :
  let first_data := last (latest_data :: older) latest_data in
  let years_since_nfo :=
    MFApp.calculate_years_since_nfo (MFApp.date first_data)
                                    (MFApp.date latest_data) in
  years_since_nfo <= 0
  /\ MFApp.cagr_since_nfo (latest_data :: older) = Some (Ok (Float 0))
  /\ (forall nfo_date latest_date,
         MFApp.date first_data = Some nfo_date ->
         MFApp.date latest_data = Some latest_date ->
         (-18 <= latest_date - nfo_date)%Z ->
         years_since_nfo == 0)
  /\ (MFApp.date first_data = None \/ MFApp.date latest_data = None ->
      years_since_nfo == 0).
Proof.
  intros first_data years_since_nfo.
  assert (Hy : years_since_nfo <= 0).
  { unfold years_since_nfo.
    destruct (MFApp.date first_data) as [nfo_date|] eqn:E1;
      [|apply Qle_refl].
    destruct (MFApp.date latest_data) as [latest_date|] eqn:E2;
      [|apply Qle_refl].
    apply years_since_nfo_short. apply Hshort; [exact E1 | reflexivity]. }
  split; [exact Hy|]. split; [|split].
  - unfold MFApp.cagr_since_nfo. cbv zeta. f_equal.
    fold first_data. fold years_since_nfo.
    unfold MF.calculate_cagr.
    rewrite (proj2 (le0_true _) Hy), !orb_true_r. reflexivity.
  - intros nfo_date latest_date E1 E2 Hlo. unfold years_since_nfo.
    rewrite E1, E2. apply years_since_nfo_none.
    split; [exact Hlo|]. apply Hshort; [exact E1 | exact E2].
  - intros [E | E]; unfold years_since_nfo; rewrite E.
    + reflexivity.
    + destruct (MFApp.date first_data); reflexivity.
Qed.

Lemma short_history_rate_zero_witness :
  MFApp.calculate_years_since_nfo (Some 0%Z) (Some 18%Z) <= 0
  /\ MFApp.cagr_since_nfo
       [{| MFApp.date := Some 18%Z; MFApp.nav := 200 |};
        {| MFApp.date := Some 0%Z; MFApp.nav := 100 |}]
     = Some (Ok (Float 0)).
Proof.
  destruct (@short_history_rate_zero
              {| MFApp.date := Some 18%Z; MFApp.nav := 200 |}
              [{| MFApp.date := Some 0%Z; MFApp.nav := 100 |}])
    as [Hy [Hc _]].
  - simpl. intros nfo_date latest_date H1 H2.
    injection H1 as <-. injection H2 as <-. lia.
  - split; [exact Hy | exact Hc].
Defined.

(** X12.  From nineteen days on, and on positive NAVs, the years since the
    first NAV are the days over 365.25 rounded to one decimal: a positive
    number that differs from the days over 365.25 by at most 0.05.  When
    the quotient of the NAVs, the exponent and the rate are within the
    floats, the rate since the first NAV is the rate of the first and the
    latest NAV over these years; when the quotient and the exponent are
    floats and the power is beyond the largest float, the calculator
    raises [OverflowError]. *)
Theorem since_nfo_rate (latest_data : MFApp.Entry) (older : list MFApp.Entry)
    (nfo_date latest_date : Z)
    (Hnfo : MFApp.date (last (latest_data :: older) latest_data)
            = Some nfo_date)
    (Hlatest : MFApp.date latest_data = Some latest_date)
    (Hdays : (19 <= latest_date - nfo_date)%Z)
    (Hnfo_nav : 0 < MFApp.nav (last (latest_data :: older) latest_data))
    (Hlatest_nav : 0 < MFApp.nav latest_data) :
  let nfo_nav := MFApp.nav (last (latest_data :: older) latest_data) in
  let latest_nav := MFApp.nav latest_data in
  let years :=
    MFApp.calculate_years_since_nfo (Some nfo_date) (Some latest_date) in
  (Spec.in_range nfo_nav latest_nav years ->
   MFApp.cagr_since_nfo (latest_data :: older)
   = Some (Ok (Float (Spec.cagr nfo_nav latest_nav years))))
  /\ (Spec.overflows nfo_nav latest_nav years ->
      MFApp.cagr_since_nfo (latest_data :: older)
      = Some (Raise OverflowError))
  /\ 0 < years
  /\ years - (1 # 20) <= Spec.elapsed_years nfo_date latest_date
  /\ Spec.elapsed_years nfo_date latest_date <= years + (1 # 20).
Proof.
  intros nfo_nav latest_nav years.
  destruct (@years_since_nfo_long nfo_date latest_date Hdays)
    as (Hpos & Hlo & Hhi).
  fold years in Hpos, Hlo, Hhi.
  split; [|split; [|repeat split; assumption]].
  - intros Hfit. apply in_range_growth in Hfit.
    unfold MFApp.cagr_since_nfo. cbv zeta. f_equal.
    rewrite Hnfo, Hlatest. fold years.
    apply mf_cagr_positive; assumption.
  - intros [_ [_ Hover]].
    unfold MFApp.cagr_since_nfo. cbv zeta. f_equal.
    rewrite Hnfo, Hlatest. fold years.
    unfold MF.calculate_cagr.
    rewrite (guards_pass Hnfo_nav Hlatest_nav Hpos).
    apply (cagr_chain_overflow _ Hnfo_nav Hlatest_nav Hpos Hover).
Qed.

Lemma since_nfo_rate_witness :
  let years := MFApp.calculate_years_since_nfo (Some 0%Z) (Some 1461%Z) in
  MFApp.cagr_since_nfo
    [{| MFApp.date := Some 1461%Z; MFApp.nav := 200 |};
     {| MFApp.date := Some 0%Z; MFApp.nav := 100 |}]
  = Some (Ok (Float (Spec.cagr 100 200 years)))
  /\ 0 < years
  /\ years - (1 # 20) <= Spec.elapsed_years 0 1461
  /\ Spec.elapsed_years 0 1461 <= years + (1 # 20).
Proof.
  intros years.
  destruct (@since_nfo_rate
              {| MFApp.date := Some 1461%Z; MFApp.nav := 200 |}
              [{| MFApp.date := Some 0%Z; MFApp.nav := 100 |}] 0 1461
              eq_refl eq_refl ltac:(lia) eq_refl eq_refl)
    as [Hrate [_ Hyears]].
  split; [|exact Hyears].
  apply Hrate. apply in_range_moderate. reflexivity.
Defined.

End SinceFirstNav.

Section RollingPage.
Import Py Frame.

(** X13.  What the page makes of the report of the rolling analysis: with no
    window it warns that there is not enough data; otherwise the rates it
    looks up are always there, the least is at most the greatest, the
    average shown lies between the two rounded to two decimals, and a
    single window, whose deviation is not a number, is described as highly
    volatile. *)
Theorem rolling_page (data : list MF.Point) (window_years : Z) :
  let rolling_results := MF.calculate_rolling_cagr data window_years in
  (MF.num_windows rolling_results = 0%nat ->
   MFApp.show_rolling rolling_results = Some MFApp.NotEnoughData)
  /\ ((0 < MF.num_windows rolling_results)%nat ->
      exists desc min_cagr max_cagr,
        MFApp.show_rolling rolling_results
        = Some (MFApp.Results desc min_cagr max_cagr)
        /\ (min_cagr <= max_cagr)%R
        /\ (round2 min_cagr <= MF.average_cagr rolling_results
            <= round2 max_cagr)%R
        /\ (MF.num_windows rolling_results = 1%nat ->
            desc = MFApp.HighVolatility /\ min_cagr = max_cagr)).
Proof.
  intros rolling_results. subst rolling_results.
  unfold MF.calculate_rolling_cagr. cbv zeta.
  destruct (MF.run _ _ _ _) as [acc|e].
  2:{ split; [reflexivity | intros H; simpl in H; lia]. }
  destruct (MF.cagr_values acc) as [|c cs] eqn:Ev.
  { split; [reflexivity | intros H; simpl in H; lia]. }
  split; [intros H; simpl in H; discriminate|]. intros _.
  exists (MFApp.volatility_desc
            (option_map round2 (Stats.pd_std (c :: cs)))),
    (Stats.min_list c cs), (Stats.max_list c cs).
  destruct (min_list_le cs c) as [Hmin0 Hmin].
  destruct (max_list_ge cs c) as [Hmax0 Hmax].
  assert (Hall : forall x, In x (c :: cs) ->
                   (Stats.min_list c cs <= x <= Stats.max_list c cs)%R).
  { intros x [<-|Hx]; [split; assumption|].
    split; [apply Hmin, Hx | apply Hmax, Hx]. }
  destruct (mean_between Hall) as [Mlo Mhi].
  split; [reflexivity|]. split; [lra|]. split.
  - cbn [MF.average_cagr]. split; apply round2_le; assumption.
  - cbn [MF.num_windows]. intros Hone.
    destruct cs as [|c' cs']; [|simpl in Hone; lia].
    split; reflexivity.
Qed.

Lemma rolling_page_witness :
  exists min_cagr max_cagr,
    MFApp.show_rolling (MF.calculate_rolling_cagr Examples.two_navs 1)
    = Some (MFApp.Results MFApp.HighVolatility min_cagr max_cagr)
    /\ min_cagr = max_cagr.
Proof.
  assert (Hn : MF.num_windows (MF.calculate_rolling_cagr Examples.two_navs 1)
               = 1%nat) by (py_run; reflexivity).
  destruct (proj2 (rolling_page Examples.two_navs 1))
    as (desc & lo & hi & Hshown & _ & _ & Hone).
  - rewrite Hn. apply Nat.lt_0_1.
  - destruct (Hone Hn) as [Hdesc Heq]. subst desc lo.
    exists hi, hi. split; [exact Hshown | reflexivity].
Defined.

End RollingPage.

(** ** The table of [index_cagr_analysis_excel.py] *)

Section ExcelRows.
Import Py Frame.

Lemma elapsed_years_nonpos (d1 d2 : Z) :
  (d2 <= d1)%Z -> Spec.elapsed_years d1 d2 <= 0.
Proof.
  intros H. rewrite elapsed_years_minus.
  rewrite Zle_Qle in H. lra.
Qed.

Lemma forall2_nth_error (A B : Type) (P : A -> B -> Prop)
    (l1 : list A) (l2 : list B) :
  Forall2 P l1 l2 ->
  forall k a b, nth_error l1 k = Some a -> nth_error l2 k = Some b -> P a b.
Proof.
  induction 1 as [|x y l1 l2 Hxy _ IH]; intros [|k] a b Ha Hb;
    simpl in *; try discriminate.
  - injection Ha as <-. injection Hb as <-. exact Hxy.
  - eapply IH; eassumption.
Qed.

(** The rate of [float64] prices on positive arguments: the rate of the
    formula when that is within the floats, and infinite when it is beyond
    them. *)
Lemma np_rate_fits (s e y : Q) :
  0 < s -> 0 < e -> 0 < y -> (Spec.cagr s e y <= max_float)%R ->
  Np.rate (Np.power (e / s) (1 / y)) = Np.Num (Spec.cagr s e y).
Proof.
  intros Hs He Hy Hfit.
  unfold Np.power. rewrite (proj1 (Qgt_alt _ _) (quotient_pos Hs He)).
  rewrite (growth_quotient e Hs Hy).
  pose proof (growth_pos s e y) as Hg. pose proof max_float_pos as Hm.
  rewrite cagr_growth in Hfit.
  assert (H100 : (100 <= max_float)%R).
  { pose proof max_float_large as L.
    assert (100 <= IZR (2 ^ 100))%R by (apply IZR_le; discriminate). lra. }
  unfold Np.overflowing.
  destruct (Rlt_dec max_float (Spec.growth s e y)) as [Hover|_]; [lra|].
  destruct (Rlt_dec (Spec.growth s e y) (- max_float)) as [Hneg|_]; [lra|].
  cbn [Np.rate]. unfold Np.overflowing.
  destruct (Rlt_dec max_float ((Spec.growth s e y - 1) * 100)) as [Hover|_];
    [lra|].
  destruct (Rlt_dec ((Spec.growth s e y - 1) * 100) (- max_float))
    as [Hneg|_]; [lra|].
  reflexivity.
Qed.

Lemma np_rate_infinite (s e y : Q) :
  0 < s -> 0 < e -> 0 < y -> (max_float < Spec.cagr s e y)%R ->
  Np.rate (Np.power (e / s) (1 / y)) = Np.Inf.
Proof.
  intros Hs He Hy Hover.
  unfold Np.power. rewrite (proj1 (Qgt_alt _ _) (quotient_pos Hs He)).
  rewrite (growth_quotient e Hs Hy).
  rewrite cagr_growth in Hover.
  unfold Np.overflowing.
  destruct (Rlt_dec max_float (Spec.growth s e y)) as [_|Hfit];
    [reflexivity|].
  pose proof (growth_pos s e y) as Hg. pose proof max_float_pos as Hm.
  destruct (Rlt_dec (Spec.growth s e y) (- max_float)) as [Hneg|_]; [lra|].
  cbn [Np.rate]. unfold Np.overflowing.
  destruct (Rlt_dec max_float ((Spec.growth s e y - 1) * 100)) as [_|Hno];
    [reflexivity | contradiction].
Qed.

(** The rate of the table on positive arguments. *)
Lemma table_cagr_fits (s e y : Q) :
  0 < s -> 0 < e -> 0 < y -> (Spec.cagr s e y <= max_float)%R ->
  ExcelTable.calculate_cagr s e y = Some (Np.Num (Spec.cagr s e y)).
Proof.
  intros Hs He Hy Hfit. unfold ExcelTable.calculate_cagr. cbv zeta.
  rewrite (guards_pass Hs He Hy). f_equal.
  apply np_rate_fits; assumption.
Qed.

Lemma table_cagr_infinite (s e y : Q) :
  0 < s -> 0 < e -> 0 < y -> (max_float < Spec.cagr s e y)%R ->
  ExcelTable.calculate_cagr s e y = Some Np.Inf.
Proof.
  intros Hs He Hy Hover. unfold ExcelTable.calculate_cagr. cbv zeta.
  rewrite (guards_pass Hs He Hy). f_equal.
  apply np_rate_infinite; assumption.
Qed.

Lemma in_range_rate (s e y : Q) :
  Spec.in_range s e y -> (Spec.cagr s e y <= max_float)%R.
Proof. intros [_ [_ H]]. exact H. Qed.

(** A power beyond the floats makes the rate one too. *)
Lemma overflows_rate (s e y : Q) :
  Spec.overflows s e y -> (max_float < Spec.cagr s e y)%R.
Proof.
  intros [_ [_ H]]. rewrite cagr_growth.
  pose proof max_float_large as L.
  assert (2 <= IZR (2 ^ 100))%R by (apply IZR_le; discriminate). lra.
Qed.

(** What [get_index_data_for_period] makes of a history. *)
Lemma period_of_history (hist : option (list Yahoo.Bar)) :
  match ExcelTable.get_index_data_for_period hist with
  | Some (s, e, y) =>
      exists first_bar rest,
        hist = Some (first_bar :: rest) /\ rest <> []
        /\ s = Yahoo.Close first_bar
        /\ e = Yahoo.Close (last rest first_bar)
        /\ y = Spec.elapsed_years (Yahoo.date first_bar)
                                  (Yahoo.date (last rest first_bar))
  | None =>
      forall first_bar rest, hist = Some (first_bar :: rest) -> rest = []
  end.
Proof.
  unfold ExcelTable.get_index_data_for_period.
  destruct hist as [[|first_bar [|second rest']]|].
  - intros f r H. discriminate.
  - cbn. intros f r H. injection H as <- <-. reflexivity.
  - change (length (first_bar :: second :: rest') <? 2)%nat with false.
    cbv iota zeta.
    exists first_bar, (second :: rest').
    repeat split; try reflexivity. discriminate.
  - intros f r H. discriminate.
Qed.

(** A cell reads NA exactly for a history without the period of a rate,
    and carries the rate of the period otherwise. *)
Lemma cell_for_period (hist : option (list Yahoo.Bar)) :
  (ExcelTable.cell_for hist = ExcelTable.NA
   <-> forall s e y, ~ MoreProps.excel_period hist s e y)
  /\ (forall s e y,
         MoreProps.excel_period hist s e y ->
         ((Spec.cagr s e y <= max_float)%R ->
          ExcelTable.cell_for hist
          = ExcelTable.Rate (Np.Num (round2 (Spec.cagr s e y))))
         /\ ((max_float < Spec.cagr s e y)%R ->
             ExcelTable.cell_for hist = ExcelTable.Rate Np.Inf)).
Proof.
  assert (Hperiod : forall s e y,
             MoreProps.excel_period hist s e y ->
             ExcelTable.get_index_data_for_period hist = Some (s, e, y)
             /\ 0 < s /\ 0 < e /\ 0 < y).
  { intros s e y (fb & rest & Hh & Hne & Hs & He & Hy & Ps & Pe & Hd).
    pose proof (period_of_history hist) as Hp.
    destruct (ExcelTable.get_index_data_for_period hist)
      as [[[s' e'] y']|].
    - destruct Hp as (fb' & rest' & Hh' & _ & Hs' & He' & Hy').
      rewrite Hh in Hh'. injection Hh' as <- <-.
      split; [congruence|]. split; [exact Ps|]. split; [exact Pe|].
      rewrite Hy. apply elapsed_years_pos, Hd.
    - exfalso. apply Hne. eapply Hp. exact Hh. }
  split.
  - split.
    + intros Hna s e y Hp.
      destruct (Hperiod s e y Hp) as (Hget & Ps & Pe & Py).
      unfold ExcelTable.cell_for in Hna. rewrite Hget in Hna.
      destruct (Rle_lt_dec (Spec.cagr s e y) max_float) as [Hfit|Hover].
      * rewrite (table_cagr_fits Ps Pe Py Hfit) in Hna. discriminate.
      * rewrite (table_cagr_infinite Ps Pe Py Hover) in Hna. discriminate.
    + intros Hnone. unfold ExcelTable.cell_for.
      pose proof (period_of_history hist) as Hp.
      destruct (ExcelTable.get_index_data_for_period hist)
        as [[[s e] y]|]; [|reflexivity].
      destruct Hp as (fb & rest & Hh & Hne & Hs & He & Hy).
      unfold ExcelTable.calculate_cagr.
      destruct (le0 s || le0 e || le0 y) eqn:G; [reflexivity|].
      exfalso. apply orb_false_iff in G. destruct G as [G G3].
      apply orb_false_iff in G. destruct G as [G1 G2].
      apply le0_false in G1, G2, G3.
      apply (Hnone s e y). exists fb, rest.
      repeat split; try assumption.
      destruct (Z_lt_le_dec (Yahoo.date fb) (Yahoo.date (last rest fb)))
        as [Hlt|Hge]; [exact Hlt|].
      apply elapsed_years_nonpos in Hge. rewrite <- Hy in Hge.
      exfalso. exact (Qlt_not_le _ _ G3 Hge).
  - intros s e y Hp.
    destruct (Hperiod s e y Hp) as (Hget & Ps & Pe & Py).
    unfold ExcelTable.cell_for. rewrite Hget.
    split; intros H.
    + rewrite (table_cagr_fits Ps Pe Py H). reflexivity.
    + rewrite (table_cagr_infinite Ps Pe Py H). reflexivity.
Qed.

Lemma years_list_nth (k : nat) :
  (k < 20)%nat ->
  nth_error ExcelTable.years_list k = Some (Z.of_nat (S k)).
Proof.
  intros H. unfold ExcelTable.years_list.
  rewrite nth_error_map.
  replace (nth_error (seq 1 20) k) with (Some (S k)); [reflexivity|].
  do 20 (destruct k as [|k]; [reflexivity|]). lia.
Qed.

(** X14.  The row of an index in the table has twenty cells.  The cell of
    [k] years reads NA exactly when the index is not available or the
    history fetched for [k] years lacks the period of a rate: two rows or
    more, positive first and last closes and a last date after the first.
    Otherwise the cell carries the rate of the two closes over the years
    between the two dates: rounded to two decimals when the quotient of
    the closes, the exponent and the rate are within the floats, and
    infinite when the quotient and the exponent are floats and the power
    is beyond the largest float. *)
Theorem excel_row (recent : option (list Yahoo.Bar))
    (history : Z -> option (list Yahoo.Bar)) :
  let cells := ExcelTable.row_for recent history in
  length cells = 20%nat
  /\ forall k,
       (k < 20)%nat ->
       exists c,
         nth_error cells k = Some c
         /\ (c = ExcelTable.NA
             <-> ExcelTable.test_index_availability recent = false
                 \/ forall s e y,
                      ~ MoreProps.excel_period (history (Z.of_nat (S k)))
                                               s e y)
         /\ (forall s e y,
                ExcelTable.test_index_availability recent = true ->
                MoreProps.excel_period (history (Z.of_nat (S k))) s e y ->
                (Spec.in_range s e y ->
                 c = ExcelTable.Rate (Np.Num (round2 (Spec.cagr s e y))))
                /\ (Spec.overflows s e y -> c = ExcelTable.Rate Np.Inf)).
Proof.
  intros cells. subst cells. unfold ExcelTable.row_for.
  destruct (ExcelTable.test_index_availability recent) eqn:Ea.
  - split; [rewrite !length_map; reflexivity|].
    intros k Hk.
    exists (ExcelTable.cell_for (history (Z.of_nat (S k)))).
    split.
    { rewrite !nth_error_map, (years_list_nth Hk). reflexivity. }
    destruct (cell_for_period (history (Z.of_nat (S k)))) as [Hna Hrate].
    split.
    + split.
      * intros H. right. apply Hna, H.
      * intros [H | H]; [discriminate | apply Hna, H].
    + intros s e y _ Hp. destruct (Hrate s e y Hp) as [Hfit Hover].
      split; intros H.
      * apply Hfit, in_range_rate, H.
      * apply Hover, overflows_rate, H.
  - split; [rewrite length_map; reflexivity|].
    intros k Hk. exists ExcelTable.NA.
    split.
    + rewrite nth_error_map, (years_list_nth Hk). reflexivity.
    + split; [split; [intros _; now left | reflexivity]|].
      intros s e y H. discriminate.
Qed.

Lemma excel_row_witness :
  nth_error (ExcelTable.row_for (Some Examples.two_observations)
                                (fun _ => Some Examples.two_observations)) 0
  = Some (ExcelTable.Rate
            (Np.Num (round2 (Spec.cagr 100 110 (Spec.elapsed_years 0 366))))).
Proof.
  destruct (excel_row (Some Examples.two_observations)
                      (fun _ => Some Examples.two_observations))
    as (_ & Hcells).
  assert (Hk : (0 < 20)%nat) by lia.
  destruct (Hcells 0%nat Hk) as (c & Hnth & _ & Hrate).
  rewrite Hnth. f_equal.
  apply (Hrate 100 110 (Spec.elapsed_years 0 366) eq_refl).
  - exists {| Yahoo.date := 0; Yahoo.Close := 100 |},
           [{| Yahoo.date := 366; Yahoo.Close := 110 |}].
    repeat split; try reflexivity. discriminate.
  - apply in_range_moderate. reflexivity.
Defined.

End ExcelRows.

Section ExcelFills.
Import Py Frame.

(** X24.  The colour of a cell of the table.  A cell has the fill of the
    missing values exactly when it reads NA, that is when its history lacks
    the period of a rate.  A cell with the positive fill takes a last close
    above the first.  With the quotient of the closes, the exponent and
    the rate within the floats, the cell has the positive fill when the
    rate rounded to two decimals is above zero and the negative fill
    otherwise: a rate that rounds to 0.00, and so every rate below 0.005,
    has the negative fill.  An infinite rate, that of a power beyond the
    largest float, is written as text and has none of the three fills. *)
Theorem excel_cell_fill (hist : option (list Yahoo.Bar)) :
  let c := ExcelTable.cell_for hist in
  (ExcelTable.data_fill c = Some ExcelTable.NaFill
   <-> forall s e y, ~ MoreProps.excel_period hist s e y)
  /\ (ExcelTable.data_fill c = Some ExcelTable.PositiveFill ->
      exists s e y, MoreProps.excel_period hist s e y /\ s < e)
  /\ (forall s e y,
         MoreProps.excel_period hist s e y ->
         (Spec.in_range s e y ->
          ((0 < round2 (Spec.cagr s e y))%R ->
           ExcelTable.data_fill c = Some ExcelTable.PositiveFill)
          /\ ((round2 (Spec.cagr s e y) <= 0)%R ->
              ExcelTable.data_fill c = Some ExcelTable.NegativeFill)
          /\ ((Spec.cagr s e y < 1 / 200)%R ->
              ExcelTable.data_fill c = Some ExcelTable.NegativeFill))
         /\ (Spec.overflows s e y -> ExcelTable.data_fill c = None)).
Proof.
  intros c. subst c.
  destruct (cell_for_period hist) as [Hna Hrate].
  split; [|split].
  - rewrite <- Hna.
    destruct (ExcelTable.cell_for hist) as [|[x| | |]]; simpl;
      try (split; [discriminate | discriminate]).
    + tauto.
    + destruct (Rlt_dec 0 x); split; discriminate.
  - intros Hfill.
    destruct (ExcelTable.cell_for hist) as [|[x| | |]] eqn:Ec;
      simpl in Hfill; try discriminate.
    destruct (Rlt_dec 0 x) as [Hx|Hx]; [|discriminate].
    assert (Hsome : ~ forall s e y, ~ MoreProps.excel_period hist s e y).
    { intros Hnone. apply Hna in Hnone. congruence. }
    pose proof (period_of_history hist) as Hp.
    unfold ExcelTable.cell_for in Ec.
    destruct (ExcelTable.get_index_data_for_period hist)
      as [[[s e] y]|]; [|discriminate].
    destruct Hp as (fb & rest & Hh & Hne & Hs & He & Hy).
    unfold ExcelTable.calculate_cagr in Ec.
    destruct (le0 s || le0 e || le0 y) eqn:G; [discriminate|].
    apply orb_false_iff in G. destruct G as [G G3].
    apply orb_false_iff in G. destruct G as [G1 G2].
    apply le0_false in G1, G2, G3.
    assert (Hd : (Yahoo.date fb < Yahoo.date (last rest fb))%Z).
    { destruct (Z_lt_le_dec (Yahoo.date fb) (Yahoo.date (last rest fb)))
        as [Hlt|Hge]; [exact Hlt|].
      apply elapsed_years_nonpos in Hge. rewrite <- Hy in Hge.
      exfalso. exact (Qlt_not_le _ _ G3 Hge). }
    assert (Hper : MoreProps.excel_period hist s e y).
    { exists fb, rest. repeat split; assumption. }
    exists s, e, y. split; [exact Hper|].
    destruct (Hrate s e y Hper) as [Hfit Hover].
    destruct (Rle_lt_dec (Spec.cagr s e y) max_float) as [Hle|Hgt].
    + pose proof (Hfit Hle) as Hcell. injection Hcell as Ex.
      destruct (Qlt_le_dec s e) as [Hlt|Hge]; [exact Hlt|]. exfalso.
      destruct (spec_cagr_sign G1 G2 G3) as (_ & Hdown & Hflat).
      assert (Hc : (Spec.cagr s e y <= 0)%R).
      { destruct (Qlt_le_dec e s) as [Hlt|Hge'].
        - left. apply Hdown, Hlt.
        - right. apply Hflat. apply Qle_antisym; assumption. }
      apply round2_nonpos in Hc. lra.
    + pose proof (Hover Hgt) as Hcell. discriminate.
  - intros s e y Hper. destruct (Hrate s e y Hper) as [Hfit Hover].
    split.
    + intros Hin. rewrite (Hfit (in_range_rate Hin)). simpl.
      split; [|split].
      * intros Hpos. destruct (Rlt_dec 0 _); [reflexivity | contradiction].
      * intros Hneg. destruct (Rlt_dec 0 _); [lra | reflexivity].
      * intros Hsmall.
        destruct (Rlt_dec 0 (round2 (Spec.cagr s e y))) as [Hpos|_];
          [|reflexivity].
        exfalso.
        destruct (Rle_lt_dec (Spec.cagr s e y) 0) as [Hle|Hgt].
        -- apply round2_nonpos in Hle. lra.
        -- assert (Hz : round2 (Spec.cagr s e y) = 0%R)
             by (apply round2_small; lra).
           lra.
    + intros Hout. rewrite (Hover (overflows_rate Hout)). reflexivity.
Qed.

Lemma slow_growth_small :
  (Spec.cagr 1000000 1000001 (Spec.elapsed_years 0 365) < 1 / 200)%R.
Proof.
  unfold Spec.cagr.
  replace (Q2R 1000001 / Q2R 1000000)%R with (1000001 / 1000000)%R
    by (unfold Q2R; simpl; lra).
  replace (1 / Q2R (Spec.elapsed_years 0 365))%R with (36525 / 36500)%R
    by (unfold Spec.elapsed_years, Q2R; simpl; field).
  set (x := (1000001 / 1000000)%R).
  assert (Hhi : (Rpower x (36525 / 36500) <= x * x)%R).
  { replace (x * x)%R with (Rpower x (INR 2)).
    - apply Rle_Rpower; [unfold x; lra | simpl; lra].
    - rewrite Rpower_pow by (unfold x; lra). simpl. ring. }
  assert (Hxx : (x * x < 100001 / 100000)%R) by (unfold x; lra).
  lra.
Qed.

(** Closes of 1 and 10 a day apart: the quotient and the exponent are
    floats, the power is not. *)
Lemma ten_in_a_day_overflows :
  Spec.overflows 1 10 (Spec.elapsed_years 0 1).
Proof.
  pose proof max_float_large as L.
  assert (H100 : (1000 <= IZR (2 ^ 100))%R) by (apply IZR_le; discriminate).
  split; [|split; [|exact ten_in_a_day]].
  - replace (Q2R 10 / Q2R 1)%R with 10%R by (unfold Q2R; simpl; lra). lra.
  - replace (1 / Q2R (Spec.elapsed_years 0 1))%R with (36525 / 100)%R
      by (unfold Q2R; simpl; lra).
    lra.
Qed.

Lemma excel_cell_fill_witness :
  ExcelTable.data_fill (ExcelTable.cell_for (Some Examples.slow_growth))
  = Some ExcelTable.NegativeFill
  /\ ExcelTable.data_fill (ExcelTable.cell_for (Some MoreExamples.ten_a_day))
     = None.
Proof.
  split.
  - destruct (excel_cell_fill (Some Examples.slow_growth))
      as (_ & _ & Hfill).
    destruct (Hfill 1000000 1000001 (Spec.elapsed_years 0 365))
      as [Hin _].
    + exists {| Yahoo.date := 0; Yahoo.Close := 1000000 |},
             [{| Yahoo.date := 365; Yahoo.Close := 1000001 |}].
      repeat split; try reflexivity. discriminate.
    + apply Hin; [apply in_range_moderate; reflexivity|].
      apply slow_growth_small.
  - destruct (excel_cell_fill (Some MoreExamples.ten_a_day))
      as (_ & _ & Hfill).
    destruct (Hfill 1 10 (Spec.elapsed_years 0 1)) as [_ Hout].
    + exists {| Yahoo.date := 0; Yahoo.Close := 1 |},
             [{| Yahoo.date := 1; Yahoo.Close := 10 |}].
      repeat split; try reflexivity. discriminate.
    + apply Hout. exact ten_in_a_day_overflows.
Defined.

End ExcelFills.

(** ** The history of an NSE index *)

Section NSEHistory.
Import Py Frame.

Variable day_of : Q -> Z.
Variable respond : Z -> NSEFetch.response.

(** The loop over the numbers of years, from [n] down: the answer it
    summarises is the first usable one. *)
Lemma try_years_first_usable (n : nat) :
  match NSEFetch.try_years day_of respond n with
  | Some s =>
      exists graph_data first_row others,
        (1 <= NSEFetch.years_fetched s <= Z.of_nat n)%Z
        /\ respond (NSEFetch.years_fetched s) = NSEFetch.Graph graph_data
        /\ NSEFetch.collect day_of 0 graph_data = first_row :: others
        /\ s = NSEFetch.summarise (NSEFetch.years_fetched s) first_row others
        /\ forall years,
             (NSEFetch.years_fetched s < years <= Z.of_nat n)%Z ->
             MoreProps.usable day_of (respond years) = false
  | None =>
      forall years, (1 <= years <= Z.of_nat n)%Z ->
                    MoreProps.usable day_of (respond years) = false
  end.
Proof.
  induction n as [|n IH].
  - simpl. intros years H. lia.
  - cbn [NSEFetch.try_years]. cbv zeta.
    assert (Hnext :
      MoreProps.usable day_of (respond (Z.of_nat (S n))) = false ->
      match NSEFetch.try_years day_of respond n with
      | Some s =>
          exists graph_data first_row others,
            (1 <= NSEFetch.years_fetched s <= Z.of_nat (S n))%Z
            /\ respond (NSEFetch.years_fetched s) = NSEFetch.Graph graph_data
            /\ NSEFetch.collect day_of 0 graph_data = first_row :: others
            /\ s = NSEFetch.summarise (NSEFetch.years_fetched s)
                     first_row others
            /\ forall years,
                 (NSEFetch.years_fetched s < years <= Z.of_nat (S n))%Z ->
                 MoreProps.usable day_of (respond years) = false
      | None =>
          forall years, (1 <= years <= Z.of_nat (S n))%Z ->
                        MoreProps.usable day_of (respond years) = false
      end).
    { intros Hu. destruct (NSEFetch.try_years day_of respond n) as [s|].
      - destruct IH as (g & fr & ot & Hy & Hr & Hc & Hs & Hall).
        exists g, fr, ot. repeat split; try assumption; try lia.
        intros years Hyears.
        destruct (Z.eq_dec years (Z.of_nat (S n))) as [->|Hne];
          [exact Hu | apply Hall; lia].
      - intros years Hyears.
        destruct (Z.eq_dec years (Z.of_nat (S n))) as [->|Hne];
          [exact Hu | apply IH; lia]. }
    destruct (respond (Z.of_nat (S n))) as [|g] eqn:Er.
    + apply Hnext. reflexivity.
    + destruct (NSEFetch.collect day_of 0 g) as [|first_row others] eqn:Ec.
      * apply Hnext. simpl. rewrite Ec. reflexivity.
      * exists g, first_row, others.
        change (NSEFetch.years_fetched
                  (NSEFetch.summarise (Z.of_nat (S n)) first_row others))
          with (Z.of_nat (S n)).
        repeat split; try assumption; try lia.
Qed.

(** X15.  The history of an NSE index is asked for [max_years] years, then
    for one year less, and so on down to one year; the answer summarised is
    that of the greatest number of years with a usable answer, and the
    error is returned exactly when no number of years from 1 to [max_years]
    has one. *)
Theorem nse_fetch_first_usable (max_years : Z) :
  match NSEFetch.fetch_nse_historical_data day_of respond max_years with
  | Some s =>
      exists graph_data first_row others,
        (1 <= NSEFetch.years_fetched s <= max_years)%Z
        /\ respond (NSEFetch.years_fetched s) = NSEFetch.Graph graph_data
        /\ NSEFetch.collect day_of 0 graph_data = first_row :: others
        /\ s = NSEFetch.summarise (NSEFetch.years_fetched s) first_row others
        /\ forall years,
             (NSEFetch.years_fetched s < years <= max_years)%Z ->
             MoreProps.usable day_of (respond years) = false
  | None =>
      forall years, (1 <= years <= max_years)%Z ->
                    MoreProps.usable day_of (respond years) = false
  end.
Proof.
  unfold NSEFetch.fetch_nse_historical_data.
  pose proof (try_years_first_usable (Z.to_nat max_years)) as H.
  destruct (NSEFetch.try_years day_of respond (Z.to_nat max_years)) as [s|].
  - destruct H as (g & fr & ot & Hy & Hr & Hc & Hs & Hall).
    exists g, fr, ot. repeat split; try assumption; try lia.
    intros years Hyears. apply Hall. lia.
  - intros years Hyears. apply H. lia.
Qed.

(** The rows collected carry the positions at which they were appended. *)
Lemma collect_labels (graph_data : list (list Q)) :
  forall label k r,
    nth_error (NSEFetch.collect day_of label graph_data) k = Some r ->
    NSE.label r = Z.of_nat (label + k).
Proof.
  induction graph_data as [|item rest IH]; intros label k r H.
  - destruct k; discriminate.
  - destruct item as [|timestamp [|value more]]; simpl in H.
    + apply IH, H.
    + apply IH, H.
    + destruct k as [|k]; simpl in H.
      * injection H as <-. simpl. f_equal. lia.
      * apply IH in H. rewrite H. f_equal. lia.
Qed.

End NSEHistory.

Section NSEFetchWitness.

Lemma nse_fetch_first_usable_witness :
  exists s,
    NSEFetch.fetch_nse_historical_data MoreExamples.utc_day
      MoreExamples.two_years_only 20 = Some s
    /\ NSEFetch.years_fetched s = 2%Z
    /\ forall years, (2 < years <= 20)%Z ->
          MoreProps.usable MoreExamples.utc_day
            (MoreExamples.two_years_only years) = false.
Proof.
  pose proof (nse_fetch_first_usable MoreExamples.utc_day
                MoreExamples.two_years_only 20) as H.
  destruct (NSEFetch.fetch_nse_historical_data MoreExamples.utc_day
              MoreExamples.two_years_only 20) as [s|] eqn:Es;
    [|discriminate Es].
  destruct H as (g & fr & ot & _ & _ & _ & _ & Hall).
  assert (Hy : NSEFetch.years_fetched s = 2%Z).
  { injection Es as <-. reflexivity. }
  exists s. split; [reflexivity|]. split; [exact Hy|].
  intros years Hyears. apply Hall. rewrite Hy. exact Hyears.
Defined.

End NSEFetchWitness.

Section NSEChronological.
Import Py Frame.

Lemma insert_by_front (A : Type) (key : A -> Z) (x : A) (l : list A) :
  Forall (fun y => (key x < key y)%Z) l -> insert_by key x l = x :: l.
Proof.
  intros H. destruct l as [|y l]; [reflexivity|]. simpl.
  inversion H as [|? ? Hy _]; subst.
  rewrite (proj2 (Z.leb_le _ _) (Z.lt_le_incl _ _ Hy)). reflexivity.
Qed.

(** Sorting rows that are in the order of their dates changes nothing. *)
Lemma sort_values_chronological (A : Type) (key : A -> Z) (l : list A) :
  StronglySorted (fun a b => (key a < key b)%Z) l -> sort_values key l = l.
Proof.
  induction 1 as [|x l Hs IH Hall]; [reflexivity|].
  simpl. rewrite IH. apply insert_by_front, Hall.
Qed.

Lemma fold_min_chronological (first_row : NSE.Row) (others : list NSE.Row) :
  Forall (fun r => (NSE.Date first_row < NSE.Date r)%Z) others ->
  forall d, (d <= NSE.Date first_row)%Z ->
            fold_left Z.min (map NSE.Date others) d = d.
Proof.
  induction 1 as [|r others Hr _ IH]; intros d Hd; [reflexivity|].
  simpl. rewrite Z.min_l by lia. apply IH, Hd.
Qed.

Lemma last_cons_default (A : Type) (l : list A) :
  forall x d d', last (x :: l) d = last (x :: l) d'.
Proof.
  induction l as [|y l IH]; intros x d d'; [reflexivity|].
  change (last (x :: y :: l) d) with (last (y :: l) d).
  change (last (x :: y :: l) d') with (last (y :: l) d').
  apply IH.
Qed.

Lemma fold_max_chronological (others : list NSE.Row) :
  forall first_row,
    MoreProps.chronological (first_row :: others) ->
    fold_left Z.max (map NSE.Date others) (NSE.Date first_row)
    = NSE.Date (last others first_row).
Proof.
  induction others as [|r others IH]; intros first_row H; [reflexivity|].
  inversion H as [|? ? Hs Hall]; subst.
  inversion Hall as [|? ? Hr _]; subst.
  cbn [map fold_left]. rewrite Z.max_r by lia.
  rewrite (IH r Hs).
  destruct others as [|r' others']; [reflexivity|].
  change (last (r :: r' :: others') first_row)
    with (last (r' :: others') first_row).
  f_equal. apply last_cons_default.
Qed.

(** X16.  When the items of the answer come in the order of their days, no
    day twice, the frame of the summary is the rows as collected, its
    labels are the positions of its rows, and the first and last rows give
    the earliest and latest dates and the first and last closes. *)
Theorem chronological_answer (day_of : Q -> Z) (years : Z)
    (graph_data : list (list Q))
    (first_row : NSE.Row) (others : list NSE.Row)
    (Hrows : NSEFetch.collect day_of 0 graph_data = first_row :: others)
    (Hchron : MoreProps.chronological (first_row :: others)) :
  let s := NSEFetch.summarise years first_row others in
  NSEFetch.historical_data s = first_row :: others
  /\ Props.positional (NSEFetch.historical_data s)
  /\ NSEFetch.earliest_date s = NSE.Date first_row
  /\ NSEFetch.latest_date s = NSE.Date (last others first_row)
  /\ NSEFetch.first_close s = NSE.Close first_row
  /\ NSEFetch.last_close s = NSE.Close (last others first_row)
  /\ (others <> [] -> (0 < NSEFetch.days_diff s)%Z).
Proof.
  intros s. subst s. unfold NSEFetch.summarise. cbv zeta.
  cbn [NSEFetch.historical_data NSEFetch.earliest_date NSEFetch.latest_date
       NSEFetch.first_close NSEFetch.last_close NSEFetch.days_diff].
  rewrite (sort_values_chronological NSE.Date Hchron).
  inversion Hchron as [|? ? Hs Hall]; subst.
  rewrite (@fold_min_chronological first_row others Hall
             (NSE.Date first_row) (Z.le_refl _)).
  rewrite (@fold_max_chronological others first_row Hchron).
  assert (Hlast : last (first_row :: others) first_row
                  = last others first_row).
  { destruct others; reflexivity. }
  rewrite Hlast.
  split; [reflexivity|]. split.
  - intros k r Hk. rewrite <- Hrows in Hk.
    apply (collect_labels day_of graph_data 0 k Hk).
  - repeat split.
    intros Hne.
    assert (Hin : In (last others first_row) others).
    { destruct others as [|r others']; [congruence|].
      clear -r. revert r. induction others' as [|r' others' IH]; intros r.
      - now left.
      - right. apply IH. }
    rewrite Forall_forall in Hall. specialize (Hall _ Hin). lia.
Qed.

Lemma chronological_answer_witness :
  let s := NSEFetch.summarise 2
             {| NSE.label := 0; NSE.Date := 0; NSE.Close := 100 |}
             [{| NSE.label := 1; NSE.Date := 1; NSE.Close := 101 |};
              {| NSE.label := 2; NSE.Date := 2; NSE.Close := 102 |}] in
  NSEFetch.historical_data s
  = [{| NSE.label := 0; NSE.Date := 0; NSE.Close := 100 |};
     {| NSE.label := 1; NSE.Date := 1; NSE.Close := 101 |};
     {| NSE.label := 2; NSE.Date := 2; NSE.Close := 102 |}]
  /\ Props.positional (NSEFetch.historical_data s)
  /\ NSEFetch.earliest_date s = 0%Z
  /\ NSEFetch.latest_date s = 2%Z
  /\ NSEFetch.first_close s = 100
  /\ NSEFetch.last_close s = 102
  /\ ([{| NSE.label := 1; NSE.Date := 1; NSE.Close := 101 |};
       {| NSE.label := 2; NSE.Date := 2; NSE.Close := 102 |}] <> [] ->
      (0 < NSEFetch.days_diff s)%Z).
Proof.
  apply (@chronological_answer MoreExamples.utc_day 2
           MoreExamples.three_items
           {| NSE.label := 0; NSE.Date := 0; NSE.Close := 100 |}
           [{| NSE.label := 1; NSE.Date := 1; NSE.Close := 101 |};
            {| NSE.label := 2; NSE.Date := 2; NSE.Close := 102 |}]).
  - reflexivity.
  - repeat constructor; simpl; lia.
Defined.

End NSEChronological.

Section NSESummaryRate.
Import Py Frame.

Lemma days_over_year (d : Z) : inject_Z d / 365.25 == inject_Z d * (4 # 1461).
Proof. unfold Qdiv. apply Qmult_comp; reflexivity. Qed.

Lemma round2_Q_hundredths (x : Q) :
  NSEFetch.round2_Q x
  == inject_Z (MFApp.round_half_even_Q (x * 100)) * (1 # 100).
Proof. unfold NSEFetch.round2_Q. reflexivity. Qed.

(** One day is no hundredth of a year. *)
Lemma years_diff_short (d : Z) :
  (d <= 1)%Z -> NSEFetch.round2_Q (inject_Z d / 365.25) <= 0.
Proof.
  intros H. rewrite round2_Q_hundredths.
  assert (Hx : inject_Z d / 365.25 * 100 < 1 # 2).
  { rewrite days_over_year.
    assert (Hq : inject_Z d <= inject_Z 1) by (rewrite <- Zle_Qle; exact H).
    change (inject_Z 1) with 1 in Hq. lra. }
  pose proof (round_half_even_Q_low Hx) as Hr.
  assert (Hq : inject_Z (MFApp.round_half_even_Q (inject_Z d / 365.25 * 100))
               <= inject_Z 0) by (rewrite <- Zle_Qle; exact Hr).
  change (inject_Z 0) with 0 in Hq. lra.
Qed.

(** From two days on the years are positive and within a two-hundredth of
    the days over 365.25. *)
Lemma years_diff_long (d : Z) :
  (2 <= d)%Z ->
  let years := NSEFetch.round2_Q (inject_Z d / 365.25) in
  0 < years
  /\ years - (1 # 200) <= inject_Z d / 365.25
  /\ inject_Z d / 365.25 <= years + (1 # 200).
Proof.
  intros H years. unfold years. rewrite round2_Q_hundredths.
  destruct (round_half_even_Q_near (inject_Z d / 365.25 * 100)) as [Hlo Hhi].
  assert (Hx : 1 # 2 < inject_Z d / 365.25 * 100).
  { rewrite days_over_year.
    assert (Hq : inject_Z 2 <= inject_Z d) by (rewrite <- Zle_Qle; exact H).
    change (inject_Z 2) with 2 in Hq. lra. }
  assert (Hr : (1 <= MFApp.round_half_even_Q (inject_Z d / 365.25 * 100))%Z).
  { assert (Hq : inject_Z 0
                 < inject_Z (MFApp.round_half_even_Q
                               (inject_Z d / 365.25 * 100))).
    { change (inject_Z 0) with 0. lra. }
    rewrite <- Zlt_Qlt in Hq. lia. }
  assert (Hq : inject_Z 1
               <= inject_Z (MFApp.round_half_even_Q
                              (inject_Z d / 365.25 * 100)))
    by (rewrite <- Zle_Qle; exact Hr).
  change (inject_Z 1) with 1 in Hq.
  repeat split; lra.
Qed.

(** X17.  The rate in the summary of an NSE history: there is none when
    the earliest and the latest date are at most a day apart, or when the
    first close is not positive.  From two days on the years are the days
    over 365.25 rounded to two decimals, a positive number within 0.005 of
    them; with positive first and last closes the rate is that of the two
    closes over these years when the quotient of the closes, the exponent
    and the rate are within the floats, and it is infinite when the
    quotient and the exponent are floats and the power is beyond the
    largest float. *)
Theorem nse_summary_rate (years : Z) (first_row : NSE.Row)
    (others : list NSE.Row) :
  let s := NSEFetch.summarise years first_row others in
  ((NSEFetch.days_diff s <= 1)%Z -> NSEFetch.cagr s = None)
  /\ (NSEFetch.first_close s <= 0 ->
      NSEFetch.cagr s = None /\ NSEFetch.percentage_change s = 0)
  /\ ((2 <= NSEFetch.days_diff s)%Z ->
      (0 < NSEFetch.years_diff s
       /\ NSEFetch.years_diff s - (1 # 200)
          <= inject_Z (NSEFetch.days_diff s) / 365.25
       /\ inject_Z (NSEFetch.days_diff s) / 365.25
          <= NSEFetch.years_diff s + (1 # 200))
      /\ (0 < NSEFetch.first_close s ->
          0 < NSEFetch.last_close s ->
          (Spec.in_range (NSEFetch.first_close s) (NSEFetch.last_close s)
                         (NSEFetch.years_diff s) ->
           NSEFetch.cagr s
           = Some (Np.Num
                     (Spec.cagr (NSEFetch.first_close s)
                                (NSEFetch.last_close s)
                                (NSEFetch.years_diff s))))
          /\ (Spec.overflows (NSEFetch.first_close s) (NSEFetch.last_close s)
                             (NSEFetch.years_diff s) ->
              NSEFetch.cagr s = Some Np.Inf))).
Proof.
  intros s. subst s. unfold NSEFetch.summarise. cbv zeta.
  cbn [NSEFetch.cagr NSEFetch.first_close NSEFetch.last_close
       NSEFetch.days_diff NSEFetch.years_diff NSEFetch.percentage_change].
  set (df := sort_values NSE.Date (first_row :: others)).
  set (first_close := NSE.Close (hd first_row df)).
  set (last_close := NSE.Close (last df first_row)).
  set (date_diff := (fold_left Z.max (map NSE.Date others) (NSE.Date first_row)
                     - fold_left Z.min (map NSE.Date others)
                         (NSE.Date first_row))%Z).
  split; [|split].
  - intros Hd. apply years_diff_short in Hd.
    unfold gt0 at 2. rewrite (proj2 (Qle_bool_iff _ _) Hd).
    rewrite andb_false_r. reflexivity.
  - intros Hf. unfold gt0. rewrite (proj2 (Qle_bool_iff _ _) Hf).
    split; reflexivity.
  - intros Hd.
    destruct (years_diff_long Hd) as (Hpos & Hlo & Hhi).
    split; [repeat split; assumption|].
    intros Hf Hl.
    rewrite (proj2 (gt0_true _) Hf), (proj2 (gt0_true _) Hpos). cbn [andb].
    split; intros H.
    + rewrite (np_rate_fits Hf Hl Hpos (in_range_rate H)). reflexivity.
    + rewrite (np_rate_infinite Hf Hl Hpos (overflows_rate H)). reflexivity.
Qed.

Lemma nse_summary_rate_witness :
  let s := NSEFetch.summarise 2
             {| NSE.label := 0; NSE.Date := 0; NSE.Close := 100 |}
             [{| NSE.label := 1; NSE.Date := 1461; NSE.Close := 200 |}] in
  NSEFetch.cagr s
  = Some (Np.Num
            (Spec.cagr (NSEFetch.first_close s) (NSEFetch.last_close s)
               (NSEFetch.years_diff s)))
  /\ 0 < NSEFetch.years_diff s.
Proof.
  destruct (proj2 (proj2 (nse_summary_rate 2
              {| NSE.label := 0; NSE.Date := 0; NSE.Close := 100 |}
              [{| NSE.label := 1; NSE.Date := 1461; NSE.Close := 200 |}])))
    as [[Hpos _] Hrate].
  - vm_compute. discriminate.
  - split; [|exact Hpos].
    apply Hrate; [reflexivity | reflexivity |].
    apply in_range_moderate. reflexivity.
Defined.

End NSESummaryRate.
(** ** What the analyses fail with *)

Section YahooFailures.
Import Py Frame Yahoo Props.

(** The rate of a window and its rounding raise [TypeError] only on a
    negative end price: it is the error of rounding a complex number. *)
Lemma yahoo_rate_raise (s e : Q) (d1 d2 : Z) :
  gt0 (Spec.elapsed_years d1 d2) = true -> gt0 s = true ->
  (c <- Yahoo.calculate_cagr s e d1 d2 ;; Yahoo.round_cagr c)
  = Raise TypeError ->
  e < 0.
Proof.
  intros Hy Hs. apply gt0_true in Hy, Hs.
  unfold Yahoo.calculate_cagr. cbv zeta.
  fold (Spec.elapsed_years d1 d2).
  rewrite (proj2 (le0_false _) Hy), (proj2 (le0_false _) Hs). cbn [orb].
  rewrite (div_ok e (Q2R_pos_neq Hs)). cbn [bind].
  rewrite (div_ok 1 (Q2R_pos_neq Hy)). cbn [bind].
  assert (Hexpo : 0 < 1 / Spec.elapsed_years d1 d2).
  { apply Qlt_shift_div_l; [exact Hy|]. rewrite Qmult_0_l. reflexivity. }
  unfold pow.
  destruct (Qcompare (e / s) 0) eqn:Ec.
  - rewrite (proj1 (Qgt_alt _ _) Hexpo). cbn. discriminate.
  - intros _. apply Qlt_alt in Ec.
    apply Qnot_le_lt. intros He.
    assert (Hr : 0 <= e / s).
    { apply Qle_shift_div_l; [exact Hs|]. rewrite Qmult_0_l. exact He. }
    exact (Qlt_not_le _ _ Ec Hr).
  - destruct (Rlt_dec _ _); cbn; discriminate.
Qed.

Variable hist_data : list Bar.
Variable window_years stride_days end_dt : Z.

Lemma yahoo_step_raise (st : Loop) :
  Yahoo.step hist_data window_years stride_days end_dt st = Raise TypeError ->
  exists bar, In bar hist_data /\ Close bar < 0.
Proof.
  unfold Yahoo.step. cbv zeta.
  destruct (ltb _ _); [discriminate|].
  destruct (ltb _ _); [discriminate|].
  destruct (last_row (start_prices _ _)) as [first_bar|] eqn:Es;
    [|discriminate].
  destruct (last_row (end_prices _ _)) as [last_bar|] eqn:Ee;
    [|discriminate].
  destruct (ltb _ _); [discriminate|].
  destruct (gt0 _ && gt0 _) eqn:Eguard.
  - apply andb_true_iff in Eguard. destruct Eguard as [G1 G2].
    destruct (c <- calculate_cagr (Close first_bar) (Close last_bar)
                     (date first_bar) (date last_bar) ;; round_cagr c)
      as [rc|x'] eqn:Er.
    + destruct (calculate_cagr _ _ _ _) as [c0|x0]; cbn [bind] in Er |- *;
        [|discriminate].
      rewrite Er. cbn [bind]. destruct (geb _ _); discriminate.
    + assert (Hneg : x' = TypeError -> Close last_bar < 0).
      { intros ->.
        exact (@yahoo_rate_raise (Close first_bar) (Close last_bar)
                 (date first_bar) (date last_bar) G1 G2 Er). }
      assert (Hin : In last_bar hist_data).
      { apply last_row_In in Ee. unfold end_prices in Ee.
        apply filter_In in Ee. tauto. }
      destruct (calculate_cagr _ _ _ _) as [c0|x0]; cbn [bind] in Er |- *.
      * rewrite Er. cbn [bind]. intros H. injection H as ->.
        exists last_bar. split; [exact Hin | apply Hneg; reflexivity].
      * intros H. injection H as ->. injection Er as <-.
        exists last_bar. split; [exact Hin | apply Hneg; reflexivity].
  - cbn [bind]. destruct (geb _ _); discriminate.
Qed.

Lemma yahoo_loop_raise (fuel : nat) :
  forall (st : Loop),
    Yahoo.loop hist_data window_years stride_days end_dt fuel st
    = Some (Raise TypeError) ->
    exists bar, In bar hist_data /\ Close bar < 0.
Proof.
  induction fuel as [|fuel IH]; intros st; simpl; [discriminate|].
  destruct (Yahoo.step hist_data window_years stride_days end_dt st)
    as [[st'|st']|x'] eqn:E.
  - discriminate.
  - apply IH.
  - intros H. injection H as ->. eapply yahoo_step_raise. exact E.
Qed.

End YahooFailures.

Section YahooFailureCauses.
Import Py Frame.

(** X18.  What a failure of the Yahoo analysis means.  The empty history
    gives the failure that no history is available, and nothing else
    does; on a history that is not empty, a start date that [strptime]
    rejects gives the failure of the [except] branch with its
    [ValueError]; the failure that no valid rate could be calculated never
    occurs; and a failure with the [TypeError] of rounding a complex
    number takes a negative close in the history. *)
Theorem yahoo_failure_causes (fuel : nat) (hist_data : list Yahoo.Bar)
    (window_years : Z) (start_date : option Py.date_text) (stride_days : Z) :
  (hist_data = [] ->
   Yahoo.calculate_rolling_cagr fuel hist_data window_years start_date
                                stride_days
   = Some (Yahoo.Failed Yahoo.NoHistoricalData))
  /\ (hist_data <> [] -> start_date = Some Rejected ->
      Yahoo.calculate_rolling_cagr fuel hist_data window_years start_date
                                   stride_days
      = Some (Yahoo.Failed (Yahoo.Exception ValueError)))
  /\ (forall f,
         Yahoo.calculate_rolling_cagr fuel hist_data window_years start_date
                                      stride_days = Some (Yahoo.Failed f) ->
         match f with
         | Yahoo.NoHistoricalData => hist_data = []
         | Yahoo.NoValidCagr => False
         | Yahoo.NoRollingWindows => hist_data <> []
         | Yahoo.Exception TypeError =>
             exists bar, In bar hist_data /\ Yahoo.Close bar < 0
         | Yahoo.Exception _ => hist_data <> []
         end).
Proof.
  split; [|split].
  - intros ->. reflexivity.
  - intros Hne ->. destruct hist_data as [|first_bar rest]; [congruence|].
    reflexivity.
  - intros f Hfailed.
    unfold Yahoo.calculate_rolling_cagr in Hfailed.
    destruct hist_data as [|first_bar rest].
    { injection Hfailed as <-. reflexivity. }
    destruct (Yahoo.starting_date first_bar rest start_date)
      as [start_dt|x0] eqn:Esd.
    2:{ injection Hfailed as <-.
        unfold Yahoo.starting_date in Esd.
        destruct start_date as [[|day padded]|]; try discriminate.
        injection Esd as <-. discriminate. }
    cbv zeta in Hfailed.
    destruct (Yahoo.loop _ _ _ _ _ _) as [[ws|x]|] eqn:El; [| |discriminate].
    + pose proof (@loop_emitted _ _ _ _ fuel _ ws El (Forall_nil _)) as Hem.
      injection Hfailed as Hs. unfold Yahoo.summarise in Hs.
      destruct ws as [|w ws]; [injection Hs as <-; discriminate|].
      destruct (Stats.present (map Yahoo.cagr (w :: ws))) as [|c cs] eqn:Ep;
        [|discriminate].
      exfalso. inversion Hem as [|? ? Hw _]; subst.
      apply yahoo_emitted_cagr in Hw. destruct Hw as [Hc _].
      simpl in Ep. destruct (Yahoo.cagr w); [discriminate | congruence].
    + injection Hfailed as <-.
      destruct x; try discriminate.
      eapply yahoo_loop_raise. exact El.
Qed.

Lemma yahoo_failure_causes_witness :
  Yahoo.calculate_rolling_cagr 5 MoreExamples.negative_close 4
                               (Some Rejected) 30
  = Some (Yahoo.Failed (Yahoo.Exception ValueError))
  /\ Yahoo.calculate_rolling_cagr 5 MoreExamples.negative_close 4 None 30
     = Some (Yahoo.Failed (Yahoo.Exception TypeError))
  /\ exists bar, In bar MoreExamples.negative_close /\ Yahoo.Close bar < 0.
Proof.
  assert (Hrun : Yahoo.calculate_rolling_cagr 5 MoreExamples.negative_close 4
                   None 30
                 = Some (Yahoo.Failed (Yahoo.Exception TypeError))).
  { py_run. reflexivity. }
  split; [|split; [exact Hrun|]].
  - apply (proj1 (proj2 (yahoo_failure_causes 5 MoreExamples.negative_close
                           4 (Some Rejected) 30)));
      [discriminate | reflexivity].
  - exact (proj2 (proj2 (yahoo_failure_causes 5 MoreExamples.negative_close
                           4 None 30))
                 (Yahoo.Exception TypeError) Hrun).
Defined.

End YahooFailureCauses.

Section NSEFailures.
Import Py Frame NSE Props.

Lemma positional_within (df : list Row) :
  positional df -> MoreProps.labelled_within df.
Proof.
  intros Hp r Hin. apply In_nth_error in Hin. destruct Hin as [k Hk].
  rewrite (Hp k r Hk).
  assert (k < length df)%nat by (apply nth_error_Some; congruence). lia.
Qed.

Lemma iloc_within {A : Type} (l : list A) (i : Z) :
  (0 <= i < Z.of_nat (length l))%Z -> exists x, iloc l i = Ok x.
Proof.
  intros H. unfold iloc. cbv zeta.
  destruct (i <? 0)%Z eqn:E; [apply Z.ltb_lt in E; lia|]. rewrite E.
  destruct (nth_error l (Z.to_nat i)) as [x|] eqn:En;
    [exists x; reflexivity|].
  apply nth_error_None in En. lia.
Qed.

Variable df : list Row.
Variable window_days stride_days : Z.
Hypothesis Hlabels : MoreProps.labelled_within df.

Lemma nse_step_ok (st : Loop) :
  (0 <= start_idx st < Z.of_nat (length df))%Z ->
  exists c, step df window_days stride_days st = Ok c.
Proof.
  intros Hidx. unfold step. cbv zeta.
  destruct (iloc_within df Hidx) as [first_row ->]. cbn [bind].
  destruct (filter _ df) as [|candidate rest] eqn:Ef;
    [eexists; reflexivity|].
  assert (Hin : In candidate df).
  { assert (Hc : In candidate (candidate :: rest)) by now left.
    rewrite <- Ef in Hc. apply filter_In in Hc. tauto. }
  destruct (iloc_within df (Hlabels _ Hin)) as [last_row ->]. cbn [bind].
  destruct (nse_round_cagr_total (Close first_row) (Close last_row)
              (inject_Z (Date last_row - Date first_row) / 365.25))
    as [rc ->].
  cbn [bind]. eexists. reflexivity.
Qed.

Lemma nse_loop_no_raise (fuel : nat) :
  (0 <= stride_days)%Z ->
  forall st e,
    (0 <= start_idx st)%Z ->
    loop df window_days stride_days fuel st <> Some (Raise e).
Proof.
  intros Hstride. induction fuel as [|fuel IH]; intros st e Hidx;
    simpl; [discriminate|].
  destruct (start_idx st <? Z.of_nat (length df))%Z eqn:E; [|discriminate].
  apply Z.ltb_lt in E.
  destruct (nse_step_ok st (conj Hidx E)) as [c Hc]. rewrite Hc.
  destruct c as [st'|st']; [discriminate|].
  apply IH. apply nse_step_next in Hc. destruct Hc as [-> _]. lia.
Qed.

End NSEFailures.

Section NSEFailureCauses.
Import Py Frame.

Variable day_of : Q -> Z.
Variable respond : Z -> NSEFetch.response.

(** The rows collected are labelled within their number. *)
Lemma collect_within (graph_data : list (list Q)) :
  MoreProps.labelled_within (NSEFetch.collect day_of 0 graph_data).
Proof.
  intros r Hin. apply In_nth_error in Hin. destruct Hin as [k Hk].
  rewrite (collect_labels day_of graph_data 0 k Hk).
  assert (k < length (NSEFetch.collect day_of 0 graph_data))%nat
    by (apply nth_error_Some; congruence).
  simpl. lia.
Qed.

(** So is the frame of a fetched history, and it has a row. *)
Lemma fetched_within (max_years : Z) (s : NSEFetch.Summary) :
  NSEFetch.fetch_nse_historical_data day_of respond max_years = Some s ->
  MoreProps.labelled_within (NSEFetch.historical_data s)
  /\ NSEFetch.historical_data s <> [].
Proof.
  intros Hs. pose proof (nse_fetch_first_usable day_of respond max_years) as H.
  rewrite Hs in H. destruct H as (g & fr & ot & _ & _ & Hc & -> & _).
  unfold NSEFetch.summarise. cbv zeta. cbn [NSEFetch.historical_data].
  pose proof (sort_values_perm NSE.Date (fr :: ot)) as Hp.
  split.
  - intros r Hin. rewrite (Permutation_length Hp).
    apply sort_values_In in Hin. rewrite <- Hc in *.
    apply collect_within. exact Hin.
  - intros E. rewrite E in Hp. apply Permutation_nil in Hp. discriminate.
Qed.

(** X19.  What a failure of the NSE analysis of a fetched history means,
    the stride not being negative.  The failure of the fetch is passed on
    exactly when no request had a usable answer.  On a fetched history, a
    start date that [strptime] rejects gives the failure of the [except]
    branch with its [ValueError]; the failure that there is no data from
    the start date occurs exactly when the start date is read and every row
    is dated before it; the history is never found empty; and a failure
    of the [except] branch is never an [IndexError], a [TypeError] or a
    [ZeroDivisionError]. *)
Theorem nse_failure_causes (fuel : nat) (max_years window_years : Z)
    (start_date : option Py.date_text) (stride_days : Z)
    (Hstride : (0 <= stride_days)%Z) :
  let fetched :=
    NSEFetch.fetch_nse_historical_data day_of respond max_years in
  let answer :=
    NSE.calculate_nse_rolling_cagr fuel (NSEFetch.as_fetched fetched)
                                   window_years start_date stride_days in
  (answer = Some (NSE.Failed NSE.FetchFailed) <-> fetched = None)
  /\ (fetched <> None -> start_date = Some Rejected ->
      answer = Some (NSE.Failed (NSE.Exception ValueError)))
  /\ (answer = Some (NSE.Failed NSE.NoDataFromStart)
      <-> exists start_date_obj padded s,
            start_date = Some (Denotes start_date_obj padded)
            /\ fetched = Some s
            /\ forall r, In r (NSEFetch.historical_data s) ->
                         (NSE.Date r < start_date_obj)%Z)
  /\ answer <> Some (NSE.Failed NSE.NoHistoricalData)
  /\ (forall e,
         answer = Some (NSE.Failed (NSE.Exception e)) ->
         e <> IndexError /\ e <> TypeError /\ e <> ZeroDivisionError).
Proof.
  intros fetched answer. subst answer.
  destruct fetched as [s|] eqn:Es; subst fetched.
  2:{ cbn [NSEFetch.as_fetched NSE.calculate_nse_rolling_cagr].
      split; [split; reflexivity|].
      split; [congruence|].
      split; [split; [discriminate|]|].
      - intros (d & p & s & _ & H & _). discriminate.
      - split; [discriminate|]. intros e H. discriminate. }
  destruct (fetched_within _ Es) as [Hlab Hne].
  cbn [NSEFetch.as_fetched].
  unfold NSE.calculate_nse_rolling_cagr.
  destruct (NSEFetch.historical_data s) as [|row0 rows] eqn:Eh;
    [congruence|].
  destruct start_date as [[|d padded]|]; cbn [NSE.from_start strptime].
  - (* a rejected start date *)
    split; [split; discriminate|].
    split; [reflexivity|].
    split; [split; [discriminate|]|].
    + intros (d & p & s' & H & _). discriminate.
    + split; [discriminate|].
      intros e H. injection H as <-. repeat split; discriminate.
  - (* a start date that is read *)
    destruct (filter (fun r => (d <=? NSE.Date r)%Z) (row0 :: rows))
      as [|k kept] eqn:Efil.
    + split; [split; discriminate|].
      split; [discriminate|].
      split; [|split; [discriminate|intros e H; discriminate]].
      split; [intros _|reflexivity].
      exists d, padded, s. split; [reflexivity|]. split; [reflexivity|].
      rewrite Eh. intros r Hin.
      destruct (Z_lt_le_dec (NSE.Date r) d) as [Hlt|Hge]; [exact Hlt|].
      exfalso.
      assert (Hr : In r (filter (fun r => (d <=? NSE.Date r)%Z)
                                (row0 :: rows))).
      { apply filter_In. split; [exact Hin | now apply Z.leb_le]. }
      rewrite Efil in Hr. exact Hr.
    + assert (Hlab' : MoreProps.labelled_within (NSE.reset_index (k :: kept)))
        by apply positional_within, reset_index_positional.
      assert (Hsome : ~ exists start_date_obj padded' s',
                 Some (Denotes d padded)
                 = Some (Denotes start_date_obj padded')
                 /\ Some s = Some s'
                 /\ forall r, In r (NSEFetch.historical_data s') ->
                              (NSE.Date r < start_date_obj)%Z).
      { intros (d' & p' & s' & Hd & Hs' & Hall).
        injection Hd as <- <-. injection Hs' as <-. rewrite Eh in Hall.
        assert (Hk : In k (filter (fun r => (d <=? NSE.Date r)%Z)
                                  (row0 :: rows)))
          by (rewrite Efil; now left).
        apply filter_In in Hk. destruct Hk as [Hin Hge].
        apply Z.leb_le in Hge. specialize (Hall k Hin). lia. }
      cbv zeta.
      destruct (_ <? _)%Z.
      { split; [split; discriminate|]. split; [discriminate|].
        split; [split; [discriminate | intros H; contradiction]|].
        split; [discriminate | intros e H; discriminate]. }
      destruct (NSE.loop _ _ _ _ _) as [[ws|e]|] eqn:El.
      * assert (Hsum : forall f,
                   NSE.summarise window_years (Some (Denotes d padded)) ws
                   = NSE.Failed f ->
                   f = NSE.NotEnoughData \/ f = NSE.NoValidCagr).
        { intros f. unfold NSE.summarise.
          destruct ws as [|w ws']; [intros H; injection H as <-; now left|].
          destruct (Stats.present _);
            [intros H; injection H as <-; now right | discriminate]. }
        split; [split; [|discriminate]|].
        { intros H. injection H as H. apply Hsum in H.
          destruct H; discriminate. }
        split; [discriminate|].
        split; [split; [|intros H; contradiction]|].
        { intros H. injection H as H. apply Hsum in H.
          destruct H; discriminate. }
        split.
        { intros H. injection H as H. apply Hsum in H.
          destruct H; discriminate. }
        intros e H. injection H as H. apply Hsum in H.
        destruct H; discriminate.
      * exfalso.
        refine (@nse_loop_no_raise (NSE.reset_index (k :: kept)) _
                  stride_days Hlab' fuel Hstride
                  {| NSE.start_idx := 0; NSE.windows := [] |} e _ El).
        simpl. lia.
      * split; [split; discriminate|]. split; [discriminate|].
        split; [split; [discriminate | intros H; contradiction]|].
        split; [discriminate | intros e H; discriminate].
  - (* no start date *)
    assert (Hsome : ~ exists start_date_obj padded' s',
               @None date_text = Some (Denotes start_date_obj padded')
               /\ Some s = Some s'
               /\ forall r, In r (NSEFetch.historical_data s') ->
                            (NSE.Date r < start_date_obj)%Z).
    { intros (d' & p' & s' & Hd & _). discriminate. }
    cbv zeta.
    destruct (_ <? _)%Z.
    { split; [split; discriminate|]. split; [discriminate|].
      split; [split; [discriminate | intros H; contradiction]|].
      split; [discriminate | intros e H; discriminate]. }
    destruct (NSE.loop _ _ _ _ _) as [[ws|e]|] eqn:El.
    + assert (Hsum : forall f,
                 NSE.summarise window_years None ws = NSE.Failed f ->
                 f = NSE.NotEnoughData \/ f = NSE.NoValidCagr).
      { intros f. unfold NSE.summarise.
        destruct ws as [|w ws']; [intros H; injection H as <-; now left|].
        destruct (Stats.present _);
          [intros H; injection H as <-; now right | discriminate]. }
      split; [split; [|discriminate]|].
      { intros H. injection H as H. apply Hsum in H.
        destruct H; discriminate. }
      split; [discriminate|].
      split; [split; [|intros H; contradiction]|].
      { intros H. injection H as H. apply Hsum in H.
        destruct H; discriminate. }
      split.
      { intros H. injection H as H. apply Hsum in H.
        destruct H; discriminate. }
      intros e H. injection H as H. apply Hsum in H.
      destruct H; discriminate.
    + exfalso.
      refine (@nse_loop_no_raise (row0 :: rows) _ stride_days Hlab fuel
                Hstride {| NSE.start_idx := 0; NSE.windows := [] |} e _ El).
      simpl. lia.
    + split; [split; discriminate|]. split; [discriminate|].
      split; [split; [discriminate | intros H; contradiction]|].
      split; [discriminate | intros e H; discriminate].
Qed.

End NSEFailureCauses.

Section NSEFailureWitness.
Import Py.

Lemma nse_failure_causes_witness :
  NSE.calculate_nse_rolling_cagr 5
    (NSEFetch.as_fetched
       (NSEFetch.fetch_nse_historical_data MoreExamples.utc_day
          MoreExamples.no_answer 20))
    5 None 21
  = Some (NSE.Failed NSE.FetchFailed)
  /\ NSE.calculate_nse_rolling_cagr 5
       (NSEFetch.as_fetched
          (NSEFetch.fetch_nse_historical_data MoreExamples.utc_day
             MoreExamples.two_years_only 20))
       5 (Some Rejected) 21
     = Some (NSE.Failed (NSE.Exception ValueError))
  /\ NSE.calculate_nse_rolling_cagr 5
       (NSEFetch.as_fetched
          (NSEFetch.fetch_nse_historical_data MoreExamples.utc_day
             MoreExamples.two_years_only 20))
       5 (Some (Denotes 3 true)) 21
     = Some (NSE.Failed NSE.NoDataFromStart).
Proof.
  assert (Hstride : (0 <= 21)%Z) by lia.
  split; [|split].
  - apply (proj1 (@nse_failure_causes MoreExamples.utc_day
                    MoreExamples.no_answer 5 20 5 None 21 Hstride)).
    reflexivity.
  - apply (proj1 (proj2 (@nse_failure_causes MoreExamples.utc_day
                           MoreExamples.two_years_only 5 20 5
                           (Some Rejected) 21 Hstride)));
      [vm_compute; discriminate | reflexivity].
  - apply (proj1 (proj2 (proj2 (@nse_failure_causes MoreExamples.utc_day
                                  MoreExamples.two_years_only 5 20 5
                                  (Some (Denotes 3 true)) 21 Hstride)))).
    eexists 3%Z, true, _. split; [reflexivity|].
    split; [vm_compute; reflexivity|].
    intros r Hin. vm_compute in Hin.
    destruct Hin as [<-|[<-|[<-|[]]]]; vm_compute; reflexivity.
Defined.

End NSEFailureWitness.

(** ** The names of the NSE indices *)

Section IndexNames.
Import NSEIndices.
Local Open Scope string_scope.

Local Abbreviation string := String.string.
Local Abbreviation EmptyString := String.EmptyString.
Local Abbreviation String := String.String.

Lemma lstrip_idempotent (s : string) : lstrip (lstrip s) = lstrip s.
Proof.
  induction s as [|c s IH]; [reflexivity|]. simpl.
  destruct (is_space c) eqn:E; [exact IH|]. simpl. rewrite E. reflexivity.
Qed.

Lemma rstrip_idempotent (s : string) : rstrip (rstrip s) = rstrip s.
Proof.
  induction s as [|c s IH]; [reflexivity|]. simpl.
  destruct (rstrip s) as [|c' r] eqn:Er.
  - destruct (is_space c) eqn:E; [reflexivity|]. simpl. rewrite E. reflexivity.
  - change (rstrip (String c (String c' r)))
      with (match rstrip (String c' r) with
            | EmptyString =>
                if is_space c then EmptyString else String c EmptyString
            | String a b => String c (String a b)
            end).
    rewrite IH. reflexivity.
Qed.

(** Stripping the right end leaves a stripped left end stripped. *)
Lemma lstrip_rstrip (s : string) :
  lstrip s = s -> lstrip (rstrip s) = rstrip s.
Proof.
  destruct s as [|c s]; [reflexivity|]. simpl.
  destruct (is_space c) eqn:E.
  - intros H. exfalso.
    assert (Hlen : forall t, (String.length (lstrip t) <= String.length t)%nat).
    { induction t as [|a t IHt]; simpl; [lia|].
      destruct (is_space a); simpl; lia. }
    specialize (Hlen s). rewrite H in Hlen. simpl in Hlen. lia.
  - intros _. destruct (rstrip s) as [|c' r]; simpl; rewrite E; reflexivity.
Qed.

Lemma strip_idempotent (s : string) : strip (strip s) = strip s.
Proof.
  unfold strip.
  rewrite (@lstrip_rstrip (lstrip s) (lstrip_idempotent s)).
  apply rstrip_idempotent.
Qed.

(** A name in its normal form is found right behind its first ["NIFTY"]. *)
Lemma after_first_normal (text : string) :
  after_first "NIFTY" (String.append "NIFTY " text)
  = Some (String " "%char text).
Proof. reflexivity. Qed.

Lemma strip_leading_space (text : string) :
  strip (String " "%char text) = strip text.
Proof. reflexivity. Qed.

Lemma normalise_idempotent (index_name : string) :
  normalise (normalise index_name) = normalise index_name.
Proof.
  unfold normalise at 2 3.
  destruct (after_first "NIFTY" index_name) as [rest|] eqn:E.
  - unfold normalise. rewrite after_first_normal.
    rewrite strip_leading_space, strip_idempotent. reflexivity.
  - unfold normalise. rewrite E. reflexivity.
Qed.

(** X20.  The name under which an index is kept is in normal form:
    normalising it again changes nothing.  A name without ["NIFTY"] is kept
    as it is; any other is kept as ["NIFTY "] followed by the text after
    its first ["NIFTY"], stripped of the whitespace at both ends. *)
Theorem index_name_normal (index_name : string) :
  normalise (normalise index_name) = normalise index_name
  /\ (after_first "NIFTY" index_name = None ->
      normalise index_name = index_name)
  /\ (forall rest,
         after_first "NIFTY" index_name = Some rest ->
         normalise index_name = String.append "NIFTY " (strip rest)
         /\ strip (strip rest) = strip rest).
Proof.
  split; [|split].
  - apply normalise_idempotent.
  - intros E. unfold normalise. rewrite E. reflexivity.
  - intros rest E. unfold normalise. rewrite E.
    split; [reflexivity | apply strip_idempotent].
Qed.

Lemma index_name_normal_witness :
  normalise "S&P CNX NIFTY   50 " = "NIFTY 50"%string
  /\ strip (strip "   50 ") = strip "   50 ".
Proof.
  destruct (index_name_normal "S&P CNX NIFTY   50 ") as (_ & _ & H).
  destruct (H "   50 "%string eq_refl) as [Hn Hs].
  split; [rewrite Hn; reflexivity | exact Hs].
Defined.

Lemma get_set_same (k v : string) (d : dict) :
  get_item k (set_item k v d) = Some v.
Proof.
  induction d as [|[k' v'] d IH]; simpl.
  - rewrite String.eqb_refl. reflexivity.
  - destruct (String.eqb k k') eqn:E; simpl; rewrite ?String.eqb_refl, ?E;
      [reflexivity | exact IH].
Qed.

Lemma get_set_other (k k' v : string) (d : dict) :
  k <> k' -> get_item k (set_item k' v d) = get_item k d.
Proof.
  intros Hne. apply String.eqb_neq in Hne.
  induction d as [|[k0 v0] d IH]; simpl.
  - rewrite Hne. reflexivity.
  - destruct (String.eqb k' k0) eqn:E; simpl.
    + apply String.eqb_eq in E. subst k0. rewrite Hne. reflexivity.
    + rewrite IH. reflexivity.
Qed.

Lemma set_item_keys (k v : string) (d : dict) :
  forall k0, In k0 (map fst (set_item k v d)) -> k0 = k \/ In k0 (map fst d).
Proof.
  induction d as [|[k' v'] d IH]; intros k0; simpl.
  - intros [H|[]]; left; congruence.
  - destruct (String.eqb k k') eqn:E; simpl.
    + intros [H|H]; [left; congruence | right; right; exact H].
    + intros [H|H]; [right; left; exact H|].
      destruct (IH k0 H) as [H'|H']; [left; exact H' | right; right; exact H'].
Qed.

Lemma set_item_distinct (k v : string) (d : dict) :
  NoDup (map fst d) -> NoDup (map fst (set_item k v d)).
Proof.
  induction d as [|[k' v'] d IH]; intros H; simpl.
  - constructor; [tauto | constructor].
  - inversion H as [|? ? Hnotin Hnd]; subst.
    destruct (String.eqb k k') eqn:E; simpl.
    + apply String.eqb_eq in E. subst k'. constructor; assumption.
    + constructor; [|apply IH, Hnd].
      intros Hin. apply set_item_keys in Hin. destruct Hin as [Hin|Hin].
      * apply String.eqb_neq in E. congruence.
      * exact (Hnotin Hin).
Qed.

Lemma parse_stn_snoc (stn : list (list string)) (item : list string) :
  parse_stn (stn ++ [item])
  = match item with
    | index_symbol :: index_name :: _ =>
        set_item (normalise index_name) index_symbol (parse_stn stn)
    | _ => parse_stn stn
    end.
Proof. unfold parse_stn. rewrite fold_left_app. reflexivity. Qed.

(** X21.  In the dictionary of the indices a later item replaces the symbol
    of an earlier one that is kept under the same name, and leaves the
    other names alone; an item with fewer than two fields changes
    nothing. *)
Theorem later_item_wins (stn : list (list string)) (item : list string)
    (k : string) :
  get_item k (parse_stn (stn ++ [item]))
  = match item with
    | index_symbol :: index_name :: _ =>
        if String.eqb k (normalise index_name) then Some index_symbol
        else get_item k (parse_stn stn)
    | _ => get_item k (parse_stn stn)
    end.
Proof.
  rewrite parse_stn_snoc.
  destruct item as [|index_symbol [|index_name more]]; try reflexivity.
  destruct (String.eqb_spec k (normalise index_name)) as [->|Hne].
  - apply get_set_same.
  - apply get_set_other, Hne.
Qed.

Lemma later_item_wins_witness :
  get_item "NIFTY 50" (parse_stn MoreExamples.two_names) = Some "CNX50"%string.
Proof.
  exact (later_item_wins [["NIFTY50"; "NIFTY 50"]]%string
           ["CNX50"; "S&P CNX NIFTY   50 "]%string "NIFTY 50").
Defined.

(** The names of a parsed dictionary are distinct and in normal form. *)
Lemma parse_stn_keys (stn : list (list string)) :
  NoDup (map fst (parse_stn stn))
  /\ forall k, In k (map fst (parse_stn stn)) -> normalise k = k.
Proof.
  induction stn as [|item stn IH] using rev_ind.
  - split; [constructor | intros k []].
  - rewrite parse_stn_snoc. destruct IH as [Hnd Hnorm].
    destruct item as [|index_symbol [|index_name more]];
      try (split; assumption).
    split; [apply set_item_distinct, Hnd|].
    intros k Hin. apply set_item_keys in Hin. destruct Hin as [->|Hin].
    + apply normalise_idempotent.
    + apply Hnorm, Hin.
Qed.

End IndexNames.

Section FetchedIndices.
Import NSEIndices.
Local Open Scope string_scope.

Lemma parse_keys (data : option (list (list String.string))) :
  NoDup (map fst (parse data))
  /\ forall k, In k (map fst (parse data)) -> normalise k = k.
Proof.
  destruct data as [stn|]; [apply parse_stn_keys|].
  split; [constructor | intros k []].
Qed.

(** X22.  The dictionary of indices that [fetch_nse_indices] returns has
    no name twice and every name in normal form.  An answer of the API with
    status 200 is used whatever it lists, without a look at the local
    file; the local file is used when the API fails, and then only if it
    can be read and lists no index under the name ["error"]. *)
Theorem fetched_indices (api : api_answer) (file : local_file) (d : dict)
    (Hfetched : fetch_nse_indices api file = Indices d) :
  NoDup (map fst d)
  /\ (forall k, In k (map fst d) -> normalise k = k)
  /\ (forall data, api = ApiOk data -> d = parse data)
  /\ (api = ApiFailed ->
      exists data,
        file = File data /\ d = parse data /\ get_item "error" d = None).
Proof.
  unfold fetch_nse_indices in Hfetched.
  destruct api as [|data].
  - cbv zeta in Hfetched.
    destruct file as [| |data]; simpl in Hfetched; try discriminate.
    destruct (get_item "error" (parse data)) as [v|] eqn:Ee;
      simpl in Hfetched; [discriminate|].
    injection Hfetched as <-.
    destruct (parse_keys data) as [Hnd Hnorm].
    repeat split; try assumption; [discriminate|].
    intros _. exists data. repeat split. exact Ee.
  - injection Hfetched as <-.
    destruct (parse_keys data) as [Hnd Hnorm].
    repeat split; try assumption; [|discriminate].
    intros data' H. injection H as <-. reflexivity.
Qed.

Lemma fetched_indices_witness :
  NoDup (map fst [("NIFTY 50", "CNX50")])
  /\ (forall k, In k (map fst [("NIFTY 50", "CNX50")]) -> normalise k = k)
  /\ (forall data,
         ApiOk (Some MoreExamples.two_names) = ApiOk data ->
         [("NIFTY 50", "CNX50")] = parse data)
  /\ (ApiOk (Some MoreExamples.two_names) = ApiFailed ->
      exists data,
        Missing = File data
        /\ [("NIFTY 50", "CNX50")] = parse data
        /\ get_item "error" [("NIFTY 50", "CNX50")] = None).
Proof.
  apply (@fetched_indices (ApiOk (Some MoreExamples.two_names)) Missing
           [("NIFTY 50", "CNX50")]).
  reflexivity.
Defined.

End FetchedIndices.

(** ** The order of the windows of the mutual-fund report *)

Section MFChronological.
Import Py Frame MF Props.

Variable df : list Point.
Variable window_years : Z.

(** An iteration at [i] leaves the details alone or appends one that runs
    from position [i]. *)
Lemma body_position (i : nat) (acc : Acc) (c : control) :
  MF.body df window_years i acc = Ok c ->
  window_details (mf_state c) = window_details acc
  \/ exists d, window_details (mf_state c) = window_details acc ++ [d]
               /\ MoreProps.mf_emitted_at df window_years i d.
Proof.
  unfold MF.body. cbv zeta.
  destruct (iloc df (Z.of_nat i)) as [first_row|e] eqn:Ei; cbn [bind];
    [|discriminate].
  destruct (find_end_idx _ _ _) as [end_idx|] eqn:Ef;
    [|intros H; inversion H; now left].
  destruct (iloc df (Z.of_nat end_idx)) as [last_row|e] eqn:Ej; cbn [bind];
    [|discriminate].
  destruct (gt0 (nav first_row) && gt0 (nav last_row) && gt0 _) eqn:Eg;
    [|intros H; inversion H; now left].
  apply andb_true_iff in Eg. destruct Eg as [Eg G3].
  apply andb_true_iff in Eg. destruct Eg as [G1 G2].
  pose proof (proj1 (gt0_true _) G1) as P1.
  pose proof (proj1 (gt0_true _) G2) as P2.
  pose proof (proj1 (gt0_true _) G3) as P3.
  chain_cases P1 P2 P3 Hfit; [discriminate|]. cbn [sub1 times100].
  intros H. inversion H; subst c. right. cbn.
  eexists. split; [reflexivity|].
  apply iloc_nat in Ei, Ej.
  apply find_end_idx_some in Ef. destruct Ef as [Hle [[r [Hn Hg]] Hbefore]].
  rewrite nth_error_skipn in Hn.
  replace (S i + (end_idx - S i))%nat with end_idx in Hn by lia.
  assert (r = last_row) by congruence. subst r.
  exists end_idx, first_row, last_row. cbn.
  repeat split; try assumption; try lia.
  intros k row Hk Hrow.
  apply (Hbefore (k - S i)%nat row); [lia|].
  rewrite nth_error_skipn. replace (S i + (k - S i))%nat with k by lia.
  assumption.
Qed.

(** The details come with start positions that increase. *)
Lemma run_positions (starts : list nat) :
  StronglySorted lt starts ->
  forall acc acc' positions,
    MF.run df window_years starts acc = Ok acc' ->
    Forall2 (MoreProps.mf_emitted_at df window_years)
            positions (window_details acc) ->
    StronglySorted lt positions ->
    Forall (fun p => Forall (lt p) starts) positions ->
    exists positions',
      Forall2 (MoreProps.mf_emitted_at df window_years)
              positions' (window_details acc')
      /\ StronglySorted lt positions'.
Proof.
  induction 1 as [|i starts Hs IH Hall]; intros acc acc' positions; simpl.
  - intros H Hem Hsorted _. injection H as <-. exists positions. tauto.
  - destruct (MF.body df window_years i acc) as [c|e] eqn:Eb; cbn [bind];
      [|discriminate].
    intros H Hem Hsorted Hbelow.
    assert (Hnext :
      exists positions1,
        Forall2 (MoreProps.mf_emitted_at df window_years)
                positions1 (window_details (mf_state c))
        /\ StronglySorted lt positions1
        /\ Forall (fun p => Forall (lt p) starts) positions1).
    { destruct (body_position _ _ Eb) as [-> | [d [-> Hd]]].
      - exists positions. split; [exact Hem|]. split; [exact Hsorted|].
        eapply Forall_impl; [|exact Hbelow].
        intros p Hp. inversion Hp; assumption.
      - exists (positions ++ [i]). split; [|split].
        + apply Forall2_app; [exact Hem|]. constructor; [exact Hd|constructor].
        + clear -Hsorted Hbelow.
          induction Hsorted as [|p ps Hps IHp Hp]; simpl.
          * constructor; constructor.
          * inversion Hbelow as [|? ? Hpi Hrest]; subst.
            constructor; [apply IHp, Hrest|].
            apply Forall_app. split; [exact Hp|].
            constructor; [|constructor]. inversion Hpi; assumption.
        + apply Forall_app. split.
          * eapply Forall_impl; [|exact Hbelow].
            intros p Hp. inversion Hp; assumption.
          * constructor; [exact Hall | constructor]. }
    destruct Hnext as (positions1 & Hem1 & Hsorted1 & Hbelow1).
    destruct c as [acc1|acc1]; simpl in Hem1.
    + injection H as <-. exists positions1. tauto.
    + apply (IH acc1 acc' positions1 H Hem1 Hsorted1 Hbelow1).
Qed.

End MFChronological.

Section MFChronologicalReport.
Import Py Frame MF Props.

Lemma range_step_sorted (n stride : nat) :
  (0 < stride)%nat -> StronglySorted lt (range_step n stride).
Proof.
  intros Hstride. unfold range_step.
  generalize ((n + stride - 1) / stride)%nat as m. intros m.
  generalize 0%nat as a.
  induction m as [|m IH]; intros a; simpl; [constructor|].
  constructor; [apply IH|].
  rewrite Forall_forall. intros x Hx. apply in_map_iff in Hx.
  destruct Hx as (k & <- & Hk). apply in_seq in Hk. nia.
Qed.

(** Of two details appended at increasing positions of a frame in date
    order, the second neither starts nor ends before the first. *)
Lemma emitted_at_ordered (df : list Point) (window_years : Z)
    (i1 i2 : nat) (d1 d2 : Detail) :
  StronglySorted (fun a b => (date a <= date b)%Z) df ->
  (i1 < i2)%nat ->
  MoreProps.mf_emitted_at df window_years i1 d1 ->
  MoreProps.mf_emitted_at df window_years i2 d2 ->
  (d_start_date d1 <= d_start_date d2)%Z
  /\ (d_end_date d1 <= d_end_date d2)%Z.
Proof.
  intros Hsorted Hlt
    (j1 & f1 & l1 & Hf1 & Hl1 & Hij1 & Hs1 & He1 & Hg1 & Hb1)
    (j2 & f2 & l2 & Hf2 & Hl2 & Hij2 & Hs2 & He2 & Hg2 & Hb2).
  rewrite Hs1, Hs2, He1, He2.
  pose proof (sorted_nth Hsorted Hlt Hf1 Hf2) as Hstart. cbv beta in Hstart.
  split; [exact Hstart|].
  destruct (Nat.lt_trichotomy j1 j2) as [Hj|[Hj|Hj]].
  - exact (sorted_nth Hsorted Hj Hl1 Hl2).
  - subst j2. assert (l1 = l2) by congruence. subst l2. lia.
  - exfalso.
    assert (Hk : (i1 < j2 < j1)%nat) by lia.
    pose proof (Hb1 j2 l2 Hk Hl2) as Hfalse.
    apply geb_true in Hg2.
    assert (Hreach : inject_Z (date f1) + window_days window_years
                     <= inject_Z (date l2)).
    { rewrite Zle_Qle in Hstart. lra. }
    apply geb_true in Hreach. congruence.
Qed.

(** X23.  The windows of a mutual-fund report are in the order of time,
    whatever the order of the input: a later window neither starts nor
    ends before an earlier one. *)
Theorem mf_windows_chronological (data : list Point) (window_years : Z)
    (k1 k2 : nat) (d1 d2 : Detail) :
  (k1 < k2)%nat ->
  nth_error (report_details (calculate_rolling_cagr data window_years)) k1
    = Some d1 ->
  nth_error (report_details (calculate_rolling_cagr data window_years)) k2
    = Some d2 ->
  (d_start_date d1 <= d_start_date d2)%Z
  /\ (d_end_date d1 <= d_end_date d2)%Z.
Proof.
  intros Hk H1 H2.
  assert (Hdetails :
    exists positions,
      Forall2 (MoreProps.mf_emitted_at (sort_values date data) window_years)
              positions
              (report_details (calculate_rolling_cagr data window_years))
      /\ StronglySorted lt positions).
  { unfold calculate_rolling_cagr.
    destruct (run _ _ _ _) as [acc|e] eqn:Er.
    - assert (Hstride : (0 < stride_days)%nat) by (unfold stride_days; lia).
      destruct (@run_positions _ _ _
                  (range_step_sorted (length (sort_values date data)) Hstride)
                  _ _ [] Er (Forall2_nil _) (SSorted_nil _) (Forall_nil _))
        as (positions & Hem & Hsorted).
      destruct (cagr_values acc).
      + exists []. split; [constructor | constructor].
      + exists positions. split; assumption.
    - exists []. split; [constructor | constructor]. }
  destruct Hdetails as (positions & Hem & Hsorted).
  destruct (nth_error positions k1) as [i1|] eqn:E1.
  2:{ apply nth_error_None in E1. rewrite (Forall2_length Hem) in E1.
      apply nth_error_None in E1. congruence. }
  destruct (nth_error positions k2) as [i2|] eqn:E2.
  2:{ apply nth_error_None in E2. rewrite (Forall2_length Hem) in E2.
      apply nth_error_None in E2. congruence. }
  eapply emitted_at_ordered.
  - apply sort_values_sorted.
  - exact (sorted_nth Hsorted Hk E1 E2).
  - exact (forall2_nth_error Hem _ E1 H1).
  - exact (forall2_nth_error Hem _ E2 H2).
Qed.

Lemma mf_windows_chronological_witness :
  exists d1 d2,
    nth_error (report_details (calculate_rolling_cagr Examples.quadrupled 4)) 0
    = Some d1
    /\ nth_error (report_details (calculate_rolling_cagr Examples.quadrupled 4)) 1
       = Some d2
    /\ (d_start_date d1 <= d_start_date d2)%Z
    /\ (d_end_date d1 <= d_end_date d2)%Z.
Proof.
  eexists. eexists.
  split; [py_run; reflexivity|]. split; [py_run; reflexivity|].
  eapply (@mf_windows_chronological Examples.quadrupled 4 0 1).
  - lia.
  - py_run. reflexivity.
  - py_run. reflexivity.
Defined.

End MFChronologicalReport.

(** ** The order of the windows of the Yahoo and NSE reports *)

Section SortedLists.

Lemma sorted_snoc (A : Type) (R : A -> A -> Prop) (l : list A) (x : A) :
  StronglySorted R l -> Forall (fun a => R a x) l ->
  StronglySorted R (l ++ [x]).
Proof.
  induction 1 as [|a l Hs IH Ha]; intros Hall; simpl.
  - constructor; constructor.
  - inversion Hall as [|? ? Hax Hrest]; subst.
    constructor; [apply IH, Hrest|].
    apply Forall_app. split; [exact Ha|]. constructor; [exact Hax|constructor].
Qed.

Lemma sorted_filter (A : Type) (R : A -> A -> Prop) (p : A -> bool)
    (l : list A) :
  StronglySorted R l -> StronglySorted R (filter p l).
Proof.
  induction 1 as [|a l Hs IH Ha]; simpl; [constructor|].
  destruct (p a); [|exact IH].
  constructor; [exact IH|].
  rewrite Forall_forall in *. intros x Hx. apply filter_In in Hx.
  apply Ha. tauto.
Qed.

(** Equal or increasing positions of a sorted list hold sorted values. *)
Lemma sorted_le_nth (l : list Z) :
  StronglySorted Z.le l ->
  forall i j a b, (i <= j)%nat -> nth_error l i = Some a ->
                  nth_error l j = Some b -> (a <= b)%Z.
Proof.
  intros Hs i j a b Hij Hi Hj.
  destruct (Nat.eq_dec i j) as [->|Hne].
  - assert (a = b) by congruence. lia.
  - assert (Hlt : (i < j)%nat) by lia.
    exact (sorted_nth Hs Hlt Hi Hj).
Qed.

End SortedLists.

Section YahooChronological.
Import Py Frame Yahoo Props.

Variable hist_data : list Bar.
Variable window_years stride_days end_dt : Z.

(** An iteration leaves the windows alone or appends one read at its
    anchor. *)
Lemma yahoo_step_anchor (st : Loop) (c : control) :
  Yahoo.step hist_data window_years stride_days end_dt st = Ok c ->
  windows (yahoo_state c) = windows st
  \/ exists w, windows (yahoo_state c) = windows st ++ [w]
               /\ MoreProps.yahoo_emitted_at hist_data window_years end_dt
                    (current_start st) w.
Proof.
  unfold Yahoo.step. cbv zeta.
  destruct (ltb _ _); [intros H; inversion H; now left|].
  destruct (ltb _ _); [intros H; inversion H; now left|].
  destruct (last_row (start_prices _ _)) as [first_bar|] eqn:Es;
    [|intros H; inversion H; now left].
  destruct (last_row (end_prices _ _)) as [last_bar|] eqn:Ee;
    [|intros H; inversion H; now left].
  destruct (ltb _ _); [intros H; inversion H; now left|].
  destruct (gt0 _ && gt0 _).
  - destruct (calculate_cagr _ _ _ _) as [c0|e]; cbn [bind]; [|discriminate].
    destruct (round_cagr c0) as [rc|e]; cbn [bind]; [|discriminate].
    cbn [current_start windows window_num].
    intros H. right. eexists. split.
    + destruct (geb _ _); inversion H; reflexivity.
    + exists first_bar, last_bar. cbn [start_date end_date].
      repeat split; assumption.
  - cbn [bind]. intros H. left.
    destruct (geb _ _); inversion H; reflexivity.
Qed.

(** The windows come with anchors that do not decrease. *)
Lemma yahoo_loop_anchors (fuel : nat) :
  (0 <= stride_days)%Z ->
  forall st ws anchors,
    Yahoo.loop hist_data window_years stride_days end_dt fuel st
    = Some (Ok ws) ->
    Forall2 (MoreProps.yahoo_emitted_at hist_data window_years end_dt)
            anchors (windows st) ->
    StronglySorted Z.le anchors ->
    Forall (fun a => (a <= current_start st)%Z) anchors ->
    exists anchors',
      Forall2 (MoreProps.yahoo_emitted_at hist_data window_years end_dt)
              anchors' ws
      /\ StronglySorted Z.le anchors'.
Proof.
  intros Hstride. induction fuel as [|fuel IH]; intros st ws anchors;
    simpl; [discriminate|].
  destruct (Yahoo.step hist_data window_years stride_days end_dt st)
    as [c|e] eqn:Estep; [|discriminate].
  intros H Hem Hsorted Hbelow.
  assert (Hnext :
    exists anchors1,
      Forall2 (MoreProps.yahoo_emitted_at hist_data window_years end_dt)
              anchors1 (windows (yahoo_state c))
      /\ StronglySorted Z.le anchors1
      /\ Forall (fun a => (a <= current_start st)%Z) anchors1).
  { destruct (yahoo_step_anchor _ Estep) as [-> | [w [-> Hw]]].
    - exists anchors. tauto.
    - exists (anchors ++ [current_start st]). split; [|split].
      + apply Forall2_app; [exact Hem|]. constructor; [exact Hw|constructor].
      + apply sorted_snoc; assumption.
      + apply Forall_app. split; [exact Hbelow|].
        constructor; [lia | constructor]. }
  destruct Hnext as (anchors1 & Hem1 & Hsorted1 & Hbelow1).
  destruct c as [st'|st']; simpl in Hem1.
  - injection H as <-. exists anchors1. tauto.
  - apply (IH st' ws anchors1 H Hem1 Hsorted1).
    apply yahoo_step_next in Estep. rewrite Estep.
    eapply Forall_impl; [|exact Hbelow1]. intros a Ha. simpl in Ha. lia.
Qed.

(** The floor lookup follows its target. *)
Lemma floor_monotone (t1 t2 : Q) (r1 r2 : Bar) :
  yahoo_ordered hist_data ->
  t1 <= t2 ->
  last_row (end_prices hist_data t1) = Some r1 ->
  last_row (end_prices hist_data t2) = Some r2 ->
  (date r1 <= date r2)%Z.
Proof.
  intros Hord Ht H1 H2.
  destruct (last_row_filter_latest _ Hord H1) as [Hin1 [Hp1 _]].
  destruct (last_row_filter_latest _ Hord H2) as [_ [_ Hlatest]].
  assert (Hp2 : Qle_bool (inject_Z (date r1)) t2 = true).
  { apply Qle_bool_iff. apply Qle_bool_iff in Hp1.
    eapply Qle_trans; eassumption. }
  destruct (Hlatest r1 Hin1 Hp2) as [-> | Hlt]; lia.
Qed.

Lemma window_end_monotone (cs1 cs2 : Z) :
  (cs1 <= cs2)%Z ->
  MoreProps.yahoo_window_end window_years end_dt cs1
  <= MoreProps.yahoo_window_end window_years end_dt cs2.
Proof.
  intros H. rewrite Zle_Qle in H.
  unfold MoreProps.yahoo_window_end, gtb. cbv zeta.
  destruct (Qle_bool (inject_Z cs1 + window_days window_years)
                     (inject_Z end_dt)) eqn:E1;
    destruct (Qle_bool (inject_Z cs2 + window_days window_years)
                       (inject_Z end_dt)) eqn:E2; cbn [negb].
  - lra.
  - apply Qle_bool_iff in E1. exact E1.
  - apply Qle_bool_iff in E2.
    assert (Hn : ~ inject_Z cs1 + window_days window_years <= inject_Z end_dt).
    { intros Hle. apply Qle_bool_iff in Hle. congruence. }
    exfalso. apply Hn. lra.
  - apply Qle_refl.
Qed.

Lemma yahoo_emitted_at_ordered (cs1 cs2 : Z) (w1 w2 : Window) :
  yahoo_ordered hist_data ->
  (cs1 <= cs2)%Z ->
  MoreProps.yahoo_emitted_at hist_data window_years end_dt cs1 w1 ->
  MoreProps.yahoo_emitted_at hist_data window_years end_dt cs2 w2 ->
  (start_date w1 <= start_date w2)%Z /\ (end_date w1 <= end_date w2)%Z.
Proof.
  intros Hord Hcs (f1 & l1 & Hf1 & Hl1 & -> & ->) (f2 & l2 & Hf2 & Hl2 & -> & ->).
  rewrite start_prices_end_prices in Hf1, Hf2.
  split.
  - eapply floor_monotone; [exact Hord | | exact Hf1 | exact Hf2].
    rewrite <- Zle_Qle. exact Hcs.
  - eapply floor_monotone; [exact Hord | | exact Hl1 | exact Hl2].
    apply window_end_monotone, Hcs.
Qed.

End YahooChronological.

Section YahooChronologicalReport.
Import Py Frame Props.

(** X25.  On a history in date order and with a stride that is not
    negative, the windows of a Yahoo report are in the order of time: a
    later window neither starts nor ends before an earlier one. *)
Theorem yahoo_windows_chronological (fuel : nat) (hist_data : list Yahoo.Bar)
    (window_years : Z) (start_date : option Py.date_text) (stride_days : Z)
    (r : Yahoo.Report) (k1 k2 : nat) (w1 w2 : Yahoo.Window)
    (Hordered : yahoo_ordered hist_data)
    (Hstride : (0 <= stride_days)%Z)
    (Hdone : Yahoo.calculate_rolling_cagr fuel hist_data window_years
               start_date stride_days = Some (Yahoo.Done r))
    (Hk : (k1 < k2)%nat)
    (H1 : nth_error (Yahoo.rep_windows r) k1 = Some w1)
    (H2 : nth_error (Yahoo.rep_windows r) k2 = Some w2) :
  (Yahoo.start_date w1 <= Yahoo.start_date w2)%Z
  /\ (Yahoo.end_date w1 <= Yahoo.end_date w2)%Z.
Proof.
  unfold Yahoo.calculate_rolling_cagr in Hdone.
  destruct hist_data as [|first_bar rest] eqn:Eh; [discriminate|].
  destruct (Yahoo.starting_date _ _ _) as [start_dt|e0]; [|discriminate].
  cbv zeta in Hdone.
  destruct (Yahoo.loop _ _ _ _ _ _) as [[ws|e]|] eqn:El; try discriminate.
  injection Hdone as Hs.
  pose proof (summarise_done _ _ _ _ Hs) as [Hw _]. rewrite Hw in H1, H2.
  destruct (@yahoo_loop_anchors _ _ _ _ fuel Hstride _ ws [] El
              (Forall2_nil _) (SSorted_nil _) (Forall_nil _))
    as (anchors & Hem & Hsorted).
  destruct (nth_error anchors k1) as [a1|] eqn:E1.
  2:{ apply nth_error_None in E1. rewrite (Forall2_length Hem) in E1.
      apply nth_error_None in E1. congruence. }
  destruct (nth_error anchors k2) as [a2|] eqn:E2.
  2:{ apply nth_error_None in E2. rewrite (Forall2_length Hem) in E2.
      apply nth_error_None in E2. congruence. }
  eapply yahoo_emitted_at_ordered.
  - exact Hordered.
  - exact (sorted_nth Hsorted Hk E1 E2).
  - exact (forall2_nth_error Hem _ E1 H1).
  - exact (forall2_nth_error Hem _ E2 H2).
Qed.

Lemma yahoo_windows_chronological_witness :
  exists r w1 w2,
    Yahoo.calculate_rolling_cagr 5 MoreExamples.four_closes 1 None 30
    = Some (Yahoo.Done r)
    /\ nth_error (Yahoo.rep_windows r) 0 = Some w1
    /\ nth_error (Yahoo.rep_windows r) 1 = Some w2
    /\ (Yahoo.start_date w1 <= Yahoo.start_date w2)%Z
    /\ (Yahoo.end_date w1 <= Yahoo.end_date w2)%Z.
Proof.
  eexists. eexists. eexists.
  split; [py_run; reflexivity|]. split; [reflexivity|].
  split; [reflexivity|].
  eapply (@yahoo_windows_chronological 5 MoreExamples.four_closes 1 None 30
            _ 0 1).
  - repeat constructor; simpl; lia.
  - lia.
  - py_run. reflexivity.
  - lia.
  - reflexivity.
  - reflexivity.
Defined.

End YahooChronologicalReport.

Section NSEChronologicalLoop.
Import Py Frame NSE Props.

Variable df : list Row.
Variable window_days stride_days : Z.

(** An iteration that appends a window read it at its position. *)
Lemma nse_step_position (st : Loop) (c : control) :
  NSE.step df window_days stride_days st = Ok c ->
  windows (nse_state c) = windows st
  \/ exists w, windows (nse_state c) = windows st ++ [w]
               /\ MoreProps.nse_emitted_at df window_days (start_idx st) w.
Proof.
  unfold NSE.step. cbv zeta.
  destruct (iloc df (start_idx st)) as [first_row|e] eqn:Ei; cbn [bind];
    [|discriminate].
  destruct (filter _ df) as [|candidate rest] eqn:Ef;
    [intros H; inversion H; now left|].
  destruct (iloc df (label candidate)) as [last_row|e] eqn:Ej; cbn [bind];
    [|discriminate].
  destruct (round_cagr _) as [rc|e]; cbn [bind]; [|discriminate].
  intros H; inversion H; subst c. right. eexists. split; [reflexivity|].
  exists first_row, candidate, rest, last_row. cbn.
  repeat split; assumption.
Qed.

(** The windows come with positions that do not decrease and are not
    negative. *)
Lemma nse_loop_positions (fuel : nat) :
  (0 <= stride_days)%Z ->
  forall st ws positions,
    NSE.loop df window_days stride_days fuel st = Some (Ok ws) ->
    Forall2 (MoreProps.nse_emitted_at df window_days)
            positions (windows st) ->
    StronglySorted Z.le positions ->
    Forall (fun p => (0 <= p <= start_idx st)%Z) positions ->
    (0 <= start_idx st)%Z ->
    exists positions',
      Forall2 (MoreProps.nse_emitted_at df window_days) positions' ws
      /\ StronglySorted Z.le positions'
      /\ Forall (fun p => (0 <= p)%Z) positions'.
Proof.
  intros Hstride. induction fuel as [|fuel IH]; intros st ws positions;
    simpl; [discriminate|].
  destruct (start_idx st <? Z.of_nat (length df))%Z.
  2:{ intros H Hem Hsorted Hbelow _. injection H as <-.
      exists positions. split; [exact Hem|]. split; [exact Hsorted|].
      eapply Forall_impl; [|exact Hbelow]. intros p Hp. simpl in Hp. lia. }
  destruct (NSE.step df window_days stride_days st) as [c|e] eqn:Estep;
    [|discriminate].
  intros H Hem Hsorted Hbelow Hidx.
  assert (Hnext :
    exists positions1,
      Forall2 (MoreProps.nse_emitted_at df window_days)
              positions1 (windows (nse_state c))
      /\ StronglySorted Z.le positions1
      /\ Forall (fun p => (0 <= p <= start_idx st)%Z) positions1).
  { destruct (nse_step_position _ Estep) as [-> | [w [-> Hw]]].
    - exists positions. tauto.
    - exists (positions ++ [start_idx st]). split; [|split].
      + apply Forall2_app; [exact Hem|]. constructor; [exact Hw|constructor].
      + apply sorted_snoc; [exact Hsorted|].
        eapply Forall_impl; [|exact Hbelow]. intros p Hp. simpl in Hp. lia.
      + apply Forall_app. split; [exact Hbelow|].
        constructor; [lia | constructor]. }
  destruct Hnext as (positions1 & Hem1 & Hsorted1 & Hbelow1).
  destruct c as [st'|st']; simpl in Hem1.
  - injection H as <-. exists positions1.
    split; [exact Hem1|]. split; [exact Hsorted1|].
    eapply Forall_impl; [|exact Hbelow1]. intros p Hp. simpl in Hp. lia.
  - apply nse_step_next in Estep. destruct Estep as [Enext _].
    apply (IH st' ws positions1 H Hem1 Hsorted1).
    + rewrite Enext. eapply Forall_impl; [|exact Hbelow1].
      intros p Hp. simpl in Hp. lia.
    + rewrite Enext. lia.
Qed.

Lemma iloc_nonneg {A : Type} (l : list A) (i : Z) (x : A) :
  (0 <= i)%Z -> iloc l i = Ok x -> nth_error l (Z.to_nat i) = Some x.
Proof.
  intros Hi. unfold iloc. cbv zeta.
  destruct (i <? 0)%Z eqn:E; [apply Z.ltb_lt in E; lia|]. rewrite E.
  destruct (nth_error l (Z.to_nat i)); [congruence | discriminate].
Qed.

(** In a frame in date order the first row a test of the form
    [threshold <= Date] keeps has the least date of the rows it keeps. *)
Lemma first_candidate_least (threshold : Z) (candidate : Row)
    (rest : list Row) (b : Row) :
  MoreProps.nse_date_order df ->
  filter (fun r => (threshold <=? Date r)%Z) df = candidate :: rest ->
  In b df -> (threshold <= Date b)%Z ->
  (Date candidate <= Date b)%Z.
Proof.
  unfold MoreProps.nse_date_order. intros Hord Hf Hb Hge.
  destruct (filter_first _ _ Hf) as (l1 & l2 & Hsplit & Hp & Hall).
  rewrite Hsplit in Hord, Hb.
  rewrite map_app in Hord. simpl in Hord.
  apply in_app_or in Hb. destruct Hb as [Hb|[<-|Hb]].
  - rewrite Forall_forall in Hall. specialize (Hall b Hb). simpl in Hall.
    apply Z.leb_gt in Hall. lia.
  - lia.
  - clear -Hord Hb. induction l1 as [|a l1 IH]; simpl in Hord.
    + inversion Hord as [|? ? _ Hall]; subst.
      rewrite Forall_forall in Hall. apply Hall. apply in_map, Hb.
    + inversion Hord; subst. apply IH. assumption.
Qed.

Lemma nse_emitted_at_ordered (i1 i2 : Z) (w1 w2 : Window) :
  MoreProps.nse_date_order df -> positional df ->
  (0 <= i1 <= i2)%Z ->
  MoreProps.nse_emitted_at df window_days i1 w1 ->
  MoreProps.nse_emitted_at df window_days i2 w2 ->
  (start_date w1 <= start_date w2)%Z /\ (end_date w1 <= end_date w2)%Z.
Proof.
  intros Hord Hpos Hi
    (f1 & c1 & rest1 & l1 & Hf1 & Hc1 & Hl1 & -> & ->)
    (f2 & c2 & rest2 & l2 & Hf2 & Hc2 & Hl2 & -> & ->).
  assert (Hin : forall c rest (t : Z),
             filter (fun r => (t <=? Date r)%Z) df = c :: rest ->
             In c df /\ (t <= Date c)%Z).
  { intros c rest t Hf.
    assert (Hc : In c (c :: rest)) by now left.
    rewrite <- Hf in Hc. apply filter_In in Hc.
    split; [tauto|]. apply Z.leb_le. tauto. }
  destruct (Hin _ _ _ Hc1) as [Hin1 Hge1].
  destruct (Hin _ _ _ Hc2) as [Hin2 Hge2].
  rewrite (@positional_iloc _ _ Hpos Hin1) in Hl1. injection Hl1 as <-.
  rewrite (@positional_iloc _ _ Hpos Hin2) in Hl2. injection Hl2 as <-.
  apply iloc_nonneg in Hf1; [|lia]. apply iloc_nonneg in Hf2; [|lia].
  assert (Hstart : (Date f1 <= Date f2)%Z).
  { apply (@sorted_le_nth (map Date df) Hord (Z.to_nat i1) (Z.to_nat i2));
      [lia | |]; rewrite nth_error_map; [rewrite Hf1 | rewrite Hf2];
      reflexivity. }
  split; [exact Hstart|].
  apply (first_candidate_least _ Hord Hc1 Hin2). lia.
Qed.

End NSEChronologicalLoop.

Section NSEChronologicalReport.
Import Py Frame Props.

Lemma reset_index_dates_map (df : list NSE.Row) :
  map NSE.Date (NSE.reset_index df) = map NSE.Date df.
Proof.
  unfold NSE.reset_index. generalize 0%nat as a.
  induction df as [|r df IH]; intros a; simpl; [reflexivity|].
  f_equal. apply IH.
Qed.

Lemma filter_dates_order (p : NSE.Row -> bool) (df : list NSE.Row) :
  MoreProps.nse_date_order df -> MoreProps.nse_date_order (filter p df).
Proof.
  unfold MoreProps.nse_date_order.
  induction df as [|r df IH]; simpl; intros H; [constructor|].
  inversion H as [|? ? Hs Hall]; subst.
  destruct (p r); simpl; [|apply IH, Hs].
  constructor; [apply IH, Hs|].
  rewrite Forall_forall in *. intros d Hd. apply in_map_iff in Hd.
  destruct Hd as (x & <- & Hx). apply filter_In in Hx.
  apply Hall. apply in_map. tauto.
Qed.

(** The frame of a summary is in date order. *)
Lemma summary_date_order (years : Z) (first_row : NSE.Row)
    (others : list NSE.Row) :
  MoreProps.nse_date_order
    (NSEFetch.historical_data (NSEFetch.summarise years first_row others)).
Proof.
  unfold NSEFetch.summarise. cbv zeta. cbn [NSEFetch.historical_data].
  unfold MoreProps.nse_date_order.
  pose proof (sort_values_sorted NSE.Date (first_row :: others)) as H.
  induction H as [|a l Hs IH Hall]; simpl; [constructor|].
  constructor; [exact IH|].
  rewrite Forall_forall in *. intros d Hd. apply in_map_iff in Hd.
  destruct Hd as (x & <- & Hx). apply Hall, Hx.
Qed.

(** X26.  On a frame in date order, labelled by position unless a start
    date is given, and with a stride that is not negative, the windows of an
    NSE report are in the order of time: a later window neither starts nor
    ends before an earlier one.  The frame of every fetched history is in
    date order. *)
Theorem nse_windows_chronological (fuel : nat) (df : list NSE.Row)
    (window_years : Z) (start_date : option Py.date_text) (stride_days : Z)
    (r : NSE.Report) (k1 k2 : nat) (w1 w2 : NSE.Window)
    (Hordered : MoreProps.nse_date_order df)
    (Hlabels : start_date = None -> positional df)
    (Hstride : (0 <= stride_days)%Z)
    (Hdone : NSE.calculate_nse_rolling_cagr fuel (NSE.Fetched df)
               window_years start_date stride_days = Some (NSE.Done r))
    (Hk : (k1 < k2)%nat)
    (H1 : nth_error (NSE.rep_windows r) k1 = Some w1)
    (H2 : nth_error (NSE.rep_windows r) k2 = Some w2) :
  ((NSE.start_date w1 <= NSE.start_date w2)%Z
   /\ (NSE.end_date w1 <= NSE.end_date w2)%Z)
  /\ forall years first_row others,
       MoreProps.nse_date_order
         (NSEFetch.historical_data
            (NSEFetch.summarise years first_row others)).
Proof.
  split; [|apply summary_date_order].
  unfold NSE.calculate_nse_rolling_cagr in Hdone.
  destruct df as [|row0 rows] eqn:Edf; [discriminate|]. rewrite <- Edf in *.
  assert (Hdone' :
    match NSE.from_start df start_date with
    | inl f => Some (NSE.Failed f)
    | inr df0 =>
        let window_days := int_of (inject_Z window_years * 365.25) in
        if (Z.of_nat (length df0) <? window_days / 30)%Z
        then Some (NSE.Failed NSE.InsufficientData)
        else
          match NSE.loop df0 window_days stride_days fuel
                         {| NSE.start_idx := 0; NSE.windows := [] |} with
          | Some (Ok ws) => Some (NSE.summarise window_years start_date ws)
          | Some (Raise e) => Some (NSE.Failed (NSE.Exception e))
          | None => None
          end
    end = Some (NSE.Done r)).
  { rewrite Edf. rewrite Edf in Hdone. exact Hdone. }
  clear Hdone.
  destruct (NSE.from_start df start_date) as [f|df'] eqn:Ef; [discriminate|].
  destruct (from_start_frame Ef Hlabels) as [Hpos' _].
  assert (Hord' : MoreProps.nse_date_order df').
  { unfold NSE.from_start in Ef.
    destruct start_date as [[|d padded]|]; [discriminate| |].
    - cbn [strptime] in Ef.
      destruct (filter _ df) as [|k kept] eqn:Efil; [discriminate|].
      injection Ef as <-. unfold MoreProps.nse_date_order.
      rewrite reset_index_dates_map. rewrite <- Efil.
      apply filter_dates_order, Hordered.
    - injection Ef as <-. exact Hordered. }
  cbv zeta in Hdone'.
  destruct (_ <? _)%Z; [discriminate|].
  destruct (NSE.loop _ _ _ _ _) as [[ws|e]|] eqn:El; try discriminate.
  injection Hdone' as Hs.
  pose proof (nse_summarise_done _ _ _ Hs) as [Hw _]. rewrite Hw in H1, H2.
  destruct (@nse_loop_positions df' _ stride_days fuel Hstride _ ws [] El
              (Forall2_nil _) (SSorted_nil _) (Forall_nil _))
    as (positions & Hem & Hsorted & Hnonneg); [simpl; lia|].
  destruct (nth_error positions k1) as [i1|] eqn:E1.
  2:{ apply nth_error_None in E1. rewrite (Forall2_length Hem) in E1.
      apply nth_error_None in E1. congruence. }
  destruct (nth_error positions k2) as [i2|] eqn:E2.
  2:{ apply nth_error_None in E2. rewrite (Forall2_length Hem) in E2.
      apply nth_error_None in E2. congruence. }
  eapply (@nse_emitted_at_ordered df' _ i1 i2).
  - exact Hord'.
  - exact Hpos'.
  - split.
    + rewrite Forall_forall in Hnonneg. apply Hnonneg.
      eapply nth_error_In. exact E1.
    + exact (sorted_nth Hsorted Hk E1 E2).
  - exact (forall2_nth_error Hem _ E1 H1).
  - exact (forall2_nth_error Hem _ E2 H2).
Qed.

Lemma nse_windows_chronological_witness :
  exists r w1 w2,
    NSE.calculate_nse_rolling_cagr 5 (NSE.Fetched Examples.zero_first_close)
                                   1 (Some (Denotes 0 true)) 21
    = Some (NSE.Done r)
    /\ nth_error (NSE.rep_windows r) 0 = Some w1
    /\ nth_error (NSE.rep_windows r) 1 = Some w2
    /\ (NSE.start_date w1 <= NSE.start_date w2)%Z
    /\ (NSE.end_date w1 <= NSE.end_date w2)%Z.
Proof.
  assert (Hord : MoreProps.nse_date_order Examples.zero_first_close).
  { unfold MoreProps.nse_date_order. simpl.
    repeat match goal with
           | |- StronglySorted _ _ => constructor
           | |- Forall _ _ => constructor
           | |- (_ <= _)%Z => lia
           end. }
  assert (Hlab : Some (Denotes 0 true) = None
                 -> positional Examples.zero_first_close)
    by discriminate.
  assert (Hstride : (0 <= 21)%Z) by lia.
  assert (Hk : (0 < 1)%nat) by lia.
  eexists. eexists. eexists.
  split; [py_run; reflexivity|]. split; [reflexivity|].
  split; [reflexivity|].
  exact (proj1 (@nse_windows_chronological 5 Examples.zero_first_close 1
                  (Some (Denotes 0 true)) 21 _ 0 1 _ _ Hord Hlab Hstride
                  ltac:(py_run; reflexivity) Hk eq_refl eq_refl)).
Defined.

End NSEChronologicalReport.
